(** * LocalHub: search_places, get_directions and the polyline decoder

    A shallow embedding of the LocalHub tool handlers and of the helpers
    they use, followed by the properties that the specification states
    about them.

    Conventions of the embedding.
    - A JavaScript [number] is read as a real number: arithmetic is exact
      and there is no NaN.  The truthiness of a number is [x <> 0].
    - The 32-bit integer operators of the polyline decoder ([|], [<<],
      [>>], [&], [~]) are modelled on [Z] with the wrap-around of ToInt32
      written out.
    - A request to the maps provider is recorded by its parameters instead
      of by the text of its URL; the same holds for the Google Maps link of
      a directions result.
    - [await] is the bind of a small monad that reads the environment
      (process.env, the database and the provider), records every provider
      request and propagates thrown errors up to the nearest [try]. *)

From Stdlib Require Import Reals Lra ZArith Lia String Ascii List Sorted.
From stdpp Require Import base option list strings gmap.
From Equations Require Import Equations.

Set Warnings "-register-all".

Local Open Scope string_scope.

(* ================================================================== *)
(** * Part I: the program *)
(* ================================================================== *)

(** ** JavaScript values *)

Module JS.

(** A value as [JSON.parse] yields it. *)
Inductive json :=
| JNull
| JBool (b : bool)
| JNumber (x : R)
| JString (s : string)
| JArray (items : list json)
| JObject (fields : gmap string json).

(** [typeof v === 'object'] on a parsed value: objects, arrays and null. *)
Definition typeof_object (v : json) : bool :=
  match v with
  | JNull | JArray _ | JObject _ => true
  | _ => false
  end.

(** [v.name]: property access; anything absent reads as undefined
    ([None]).  Only called on truthy values here. *)
Definition prop (v : json) (name : string) : option json :=
  match v with
  | JObject fields => fields !! name
  | _ => None
  end.

(** [typeof v === 'number'] where [v] may be undefined. *)
Definition typeof_number (v : option json) : bool :=
  match v with
  | Some (JNumber _) => true
  | _ => false
  end.

(** Truthiness of a parsed value that may be undefined. *)
Definition truthy (v : option json) : bool :=
  match v with
  | None | Some JNull => false
  | Some (JBool b) => b
  | Some (JNumber x) => if Req_dec_T x 0 then false else true
  | Some (JString s) => negb (String.eqb s "")
  | Some (JArray _) | Some (JObject _) => true
  end.

(** Truthiness of a number and of a string. *)
Definition truthy_number (x : R) : bool :=
  if Req_dec_T x 0 then false else true.

Definition truthy_string (s : string) : bool :=
  negb (String.eqb s "").

(** An optional string that is truthy: present and not empty. *)
Definition nonempty (s : option string) : option string :=
  match s with
  | Some v => if truthy_string v then Some v else None
  | None => None
  end.

(** [Math.max], [Math.min], [Math.sqrt] and [Math.atan2] on reals. *)
Definition Math_max (x y : R) : R := if Rle_dec x y then y else x.
Definition Math_min (x y : R) : R := if Rle_dec x y then x else y.
Definition Math_sqrt (x : R) : R := sqrt x.

Definition Math_atan2 (y x : R) : R :=
  if Rlt_dec 0 x then atan (y / x)
  else if Rlt_dec x 0 then
    (if Rle_dec 0 y then atan (y / x) + PI else atan (y / x) - PI)
  else if Rlt_dec 0 y then PI / 2
  else if Rlt_dec y 0 then - (PI / 2)
  else 0.

End JS.

(** ** apps/localhub/server/utils.ts *)

Module Utils.

(** The two shapes of [NextResponse.json] the handlers produce: a body
    with status 200, or [{ error }] with an explicit status. *)
Inductive NextResponse (A : Type) :=
| json_ok (body : A)
| json_error (status : Z) (error : string).
Arguments json_ok {A} body.
Arguments json_error {A} status error.

Definition badRequest {A} (message : string) : NextResponse A :=
  json_error 400 message.

Definition externalError {A} (message : string) : NextResponse A :=
  json_error 502 message.

Definition serverError {A} (message : string) : NextResponse A :=
  json_error 500 message.

End Utils.

(** ** apps/localhub/server/types.ts *)

Module Types.

Record LatLng := { lat : R; lng : R }.

Record ProviderRef := { source : string; placeId : option string }.

Record Place := {
  id : string;
  name : string;
  address : string;
  phone : option string;
  rating : option R;
  userRatingsTotal : option R;
  location : LatLng;
  provider : ProviderRef
}.

Record Viewport := { north : R; south : R; east : R; west : R }.

Record SearchData := {
  query : string;
  resolvedArea : string;
  center : LatLng;
  viewport : Viewport
}.

(** The Google Maps link, by its parameters. *)
Record MapsDirUrl := {
  url_origin : LatLng;
  url_destination : LatLng;
  url_travelmode : string
}.

Record DirectionsData := {
  from : LatLng;
  to : LatLng;
  mode : string;
  polyline : string;
  distanceText : string;
  durationText : string;
  googleMapsUrl : MapsDirUrl
}.

(** [ToolOutput]; the [placeDetails] member belongs to a handler that is
    not modelled here. *)
Record ToolOutput := {
  search : option SearchData;
  places : option (list Place);
  directions : option DirectionsData
}.

End Types.

(** ** apps/localhub/server/place-filter.ts

    [getAllBusinessPlaceIds] and [calculateDistance] (the source text is
    at lines 65-130 of apps/localhub/server/types.ts). *)

Module PlaceFilter.
Import JS.
Local Open Scope R_scope.

(** A row of the Business table, as far as the handlers read it. *)
Record Business := {
  projectId : Z;
  placeId : string;
  businessName : string
}.

(** [prisma.business.findMany({ select: { placeId: true } })] followed by
    the projection. *)
Definition getAllBusinessPlaceIds (table : list Business) : list string :=
  map placeId table.

Definition calculateDistance (lat1 lng1 lat2 lng2 : R) : R :=
  let R_ := 6371000 in
  let phi1 := (lat1 * PI) / 180 in
  let phi2 := (lat2 * PI) / 180 in
  let dphi := ((lat2 - lat1) * PI) / 180 in
  let dlambda := ((lng2 - lng1) * PI) / 180 in
  let a :=
    sin (dphi / 2) * sin (dphi / 2) +
    cos phi1 * cos phi2 * sin (dlambda / 2) * sin (dlambda / 2) in
  let c := 2 * Math_atan2 (Math_sqrt a) (Math_sqrt (1 - a)) in
  R_ * c.

End PlaceFilter.

(** ** The maps provider and the environment of a request *)

Module Provider.
Import Types.

(** What [await fetch(url)] followed by [await response.json()] yields:
    the parsed body, or a thrown error. *)
Inductive Fetched (A : Type) :=
| fetch_threw (message : string)
| fetch_json (data : A).
Arguments fetch_threw {A} message.
Arguments fetch_json {A} data.

Record Geometry := { g_location : option LatLng }.

(** Geocoding API *)
Record GeocodeResult := { gc_geometry : option Geometry }.
Record GeocodeResponse := {
  gc_status : string;
  gc_results : option (list GeocodeResult)
}.

(** Place Details API *)
Record PlaceResult := {
  place_id : string;
  pr_name : string;
  formatted_address : option string;
  pr_geometry : option Geometry;
  pr_rating : option R;
  user_ratings_total : option R;
  formatted_phone_number : option string
}.
Record DetailsResponse := {
  pd_status : string;
  pd_result : option PlaceResult
}.

(** Directions API *)
Record TextValue := { text : option string }.
Record Leg := { distance : option TextValue; duration : option TextValue }.
Record OverviewPolyline := { points : option string }.
Record Route := {
  legs : option (list Leg);
  overview_polyline : option OverviewPolyline
}.
Record DirectionsResponse := {
  dr_status : string;
  error_message : option string;
  routes : option (list Route)
}.

(** A request sent to the provider, by its query parameters. *)
Inductive Request :=
| GeocodeRequest (address key : string)
| DetailsRequest (place_id fields key : string) (language : option string)
| DirectionsRequest (origin destination : LatLng) (mode key : string)
                    (language : option string).

Definition is_details_request (q : Request) : bool :=
  match q with DetailsRequest _ _ _ _ => true | _ => false end.

Definition is_geocode_request (q : Request) : bool :=
  match q with GeocodeRequest _ _ => true | _ => false end.

(** Everything a handler reads from outside its request body. *)
Record Env := {
  GOOGLE_PLACES_API_KEY : option string;
  GOOGLE_DIRECTIONS_API_KEY : option string;
  business : list PlaceFilter.Business;
  geocode_api : string -> string -> Fetched GeocodeResponse;
  details_api :
    string -> string -> string -> option string -> Fetched DetailsResponse;
  directions_api :
    LatLng -> LatLng -> string -> string -> option string ->
    Fetched DirectionsResponse
}.

End Provider.

(** ** Asynchronous code: a reader, writer and error monad *)

Module Async.
Import Provider.

Inductive Outcome (A : Type) :=
| Returned (value : A)
| Thrown (message : string).
Arguments Returned {A} value.
Arguments Thrown {A} message.

(** A computation reads the environment and yields its outcome together
    with the provider requests it sent, in order. *)
Definition Eff (A : Type) : Type := Env -> Outcome A * list Request.

Definition ret {A} (a : A) : Eff A := fun _ => (Returned a, []).

Definition throw {A} (message : string) : Eff A :=
  fun _ => (Thrown message, []).

Definition bind {A B} (m : Eff A) (k : A -> Eff B) : Eff B :=
  fun env =>
    match m env with
    | (Returned a, sent) =>
        let '(r, sent') := k a env in (r, (sent ++ sent')%list)
    | (Thrown message, sent) => (Thrown message, sent)
    end.

(** [try { m } catch (error) { handler(error.message) }] *)
Definition try_catch {A} (m : Eff A) (handler : string -> Eff A) : Eff A :=
  fun env =>
    match m env with
    | (Returned a, sent) => (Returned a, sent)
    | (Thrown message, sent) =>
        let '(r, sent') := handler message env in (r, (sent ++ sent')%list)
    end.

(** [process.env.NAME], kept only when truthy (set and not empty). *)
Definition getenv (name : Env -> option string) : Eff (option string) :=
  fun env => (Returned (JS.nonempty (name env)), []).

Definition read_business : Eff (list PlaceFilter.Business) :=
  fun env => (Returned (business env), []).

Definition settle {A} (q : Request) (f : Fetched A) : Outcome A * list Request :=
  match f with
  | fetch_json data => (Returned data, [q])
  | fetch_threw message => (Thrown message, [q])
  end.

Definition fetch_geocode (address key : string) : Eff GeocodeResponse :=
  fun env =>
    settle (GeocodeRequest address key) (geocode_api env address key).

Definition fetch_details (place_id fields key : string)
    (language : option string) : Eff DetailsResponse :=
  fun env =>
    settle (DetailsRequest place_id fields key language)
           (details_api env place_id fields key language).

Definition fetch_directions (origin destination : Types.LatLng)
    (mode key : string) (language : option string) : Eff DirectionsResponse :=
  fun env =>
    settle (DirectionsRequest origin destination mode key language)
           (directions_api env origin destination mode key language).

(** [Promise.all(items.map(f))]: the callbacks start in order. *)
Fixpoint all {A B} (f : A -> Eff B) (items : list A) : Eff (list B) :=
  match items with
  | [] => ret []
  | x :: rest =>
      bind (f x) (fun y => bind (all f rest) (fun ys => ret (y :: ys)))
  end.

Module Notations.
Notation "'await' x <- m ; k" := (bind m (fun x => k))
  (at level 10, x name, m at level 100, k at level 200,
   format "'[v' 'await'  x  <-  m ; '/' k ']'").
End Notations.

End Async.

(** ** app/api/localhub/tools/search_places/route.ts

    The handler of search_places: [geocodeWhere],
    [expandViewportFromPoints] and [POST] (the source text is at lines
    165-395 of search_places/tests/filter.test.ts). *)

Module SearchPlaces.
Import JS Utils Types Provider Async Async.Notations.
Import PlaceFilter.
Local Open Scope R_scope.

(** The request body after destructuring, typed as the tool's input
    schema declares it; an absent member is [None]. *)
Record Body := {
  b_query : option string;
  b_where : option string;
  b_center : option LatLng;
  b_radius_m : option R;
  b_language : option string
}.

Definition geocodeWhere (where_ : option string) : Eff (option LatLng) :=
  match nonempty where_ with
  | None => ret None
  | Some address =>
      await apiKey <- getenv GOOGLE_PLACES_API_KEY;
      match apiKey with
      | None => throw "GOOGLE_PLACES_API_KEY not configured"
      | Some key =>
          try_catch
            (await data <- fetch_geocode address key;
             if String.eqb (gc_status data) "OK" then
               match gc_results data with
               | Some (first :: _) =>
                   match gc_geometry first with
                   | Some {| g_location := Some location |} =>
                       ret (Some {| lat := lat location;
                                    lng := lng location |})
                   | _ => throw "TypeError"
                   end
               | _ => ret None
               end
             else ret None)
            (fun _ => ret None)
      end
  end.

(** One step of the loop of [expandViewportFromPoints]. *)
Definition extend (box : Viewport) (point : LatLng) : Viewport :=
  {| north := if Rlt_dec (north box) (lat point) then lat point else north box;
     south := if Rlt_dec (lat point) (south box) then lat point else south box;
     east := if Rlt_dec (east box) (lng point) then lng point else east box;
     west := if Rlt_dec (lng point) (west box) then lng point else west box |}.

Definition expandViewportFromPoints (points : list LatLng) : option Viewport :=
  match points with
  | [] => None
  | first :: _ =>
      let box :=
        fold_left extend points
          {| north := lat first; south := lat first;
             east := lng first; west := lng first |} in
      let padLat := (north box - south box) * 0.05 in
      let padLng := (east box - west box) * 0.05 in
      Some {| north := north box + padLat;
              south := south box - padLat;
              east := east box + padLng;
              west := west box - padLng |}
  end.

(** The box of 0.01 degrees around the centre, used when there is no
    place to frame. *)
Definition defaultViewport (resolvedCenter : LatLng) : Viewport :=
  {| north := lat resolvedCenter + 0.01;
     south := lat resolvedCenter - 0.01;
     east := lng resolvedCenter + 0.01;
     west := lng resolvedCenter - 0.01 |}.

(** [center && typeof center === 'object' && center.lat && center.lng] *)
Definition center_test (center : option LatLng) : option LatLng :=
  match center with
  | Some c =>
      if truthy_number (lat c) && truthy_number (lng c) then Some c else None
  | None => None
  end.

(** The resolution of the search centre: either an early response, or
    [resolvedCenter] and [resolvedArea]. *)
Definition resolveCenter (body : Body)
  : Eff (NextResponse ToolOutput + LatLng * string) :=
  match center_test (b_center body) with
  | Some c => ret (inr ({| lat := lat c; lng := lng c |}, ""))
  | None =>
      match nonempty (b_where body) with
      | Some w =>
          await resolvedCenter <- geocodeWhere (Some w);
          match resolvedCenter with
          | Some rc => ret (inr (rc, w))
          | None =>
              ret (inl (badRequest
                "Could not resolve a search area from the provided location"))
          end
      | None =>
          ret (inl (badRequest
            "Either center coordinates or where location string must be provided"))
      end
  end.

(** [Math.max(100, Math.min(50000, radius_m))], [radius_m] defaulting to
    40000. *)
Definition searchRadius (radius_m : option R) : R :=
  Math_max 100 (Math_min 50000 (default 40000 radius_m)).

(** A place together with its distance from the centre. *)
Record Ranked := { r_place : Place; r_distance : R }.

(** The callback mapped over the place ids of the database, from the
    parsed response on: the place with its distance when the response is
    OK, has a location and lies within the radius, null otherwise. *)
Definition rankPlace (resolvedCenter : LatLng) (radius : R)
    (data : DetailsResponse) : option Ranked :=
  if String.eqb (pd_status data) "OK" then
    match pd_result data with
    | Some place =>
        match pr_geometry place with
        | Some {| g_location := Some position |} =>
            let distance :=
              calculateDistance (lat resolvedCenter) (lng resolvedCenter)
                (lat position) (lng position) in
            if Rle_dec distance radius then
              Some
                {| r_place :=
                     {| id := place_id place;
                        name := pr_name place;
                        address := default "" (formatted_address place);
                        phone := None;
                        rating := pr_rating place;
                        userRatingsTotal := user_ratings_total place;
                        location := {| lat := lat position;
                                       lng := lng position |};
                        provider :=
                          {| source := "google_places";
                             Types.placeId := Some (place_id place) |} |};
                   r_distance := distance |}
            else None
        | _ => None
        end
    | None => None
    end
  else None.

Definition detailsFields : string :=
  "place_id,name,formatted_address,geometry,rating,user_ratings_total".

(** The callback itself: the request, and null when anything throws. *)
Definition fetchPlace (resolvedCenter : LatLng) (radius : R)
    (apiKey : string) (language : option string) (placeId : string)
  : Eff (option Ranked) :=
  try_catch
    (await data <-
       fetch_details placeId detailsFields apiKey (nonempty language);
     ret (rankPlace resolvedCenter radius data))
    (fun _ => ret None).

(** [Array.prototype.sort] with a comparator: a stable sort; [x] goes
    before the first [y] with [compare x y <= 0]. *)
Fixpoint sort_insert {A} (compare : A -> A -> R) (x : A) (sorted : list A)
  : list A :=
  match sorted with
  | [] => [x]
  | y :: rest =>
      if Rle_dec (compare x y) 0 then x :: y :: rest
      else y :: sort_insert compare x rest
  end.

Definition Array_sort {A} (compare : A -> A -> R) (items : list A) : list A :=
  fold_right (sort_insert compare) [] items.

Definition POST (body : Body) : Eff (NextResponse ToolOutput) :=
  try_catch
    (match nonempty (b_query body) with
     | None => ret (badRequest "Missing required parameter: query")
     | Some query =>
         await resolved <- resolveCenter body;
         match resolved with
         | inl response => ret response
         | inr (resolvedCenter, resolvedArea) =>
           let radius := searchRadius (b_radius_m body) in
           await apiKey <- getenv GOOGLE_PLACES_API_KEY;
           match apiKey with
           | None => ret (serverError "GOOGLE_PLACES_API_KEY not configured")
           | Some key =>
             await rows <- read_business;
             let databasePlaceIds := getAllBusinessPlaceIds rows in
             if Nat.eqb (length databasePlaceIds) 0 then
               ret (json_ok
                 {| search := Some
                      {| Types.query := query;
                         Types.resolvedArea := resolvedArea;
                         center := resolvedCenter;
                         viewport := defaultViewport resolvedCenter |};
                    places := Some [];
                    directions := None |})
             else
               await results <-
                 all (fetchPlace resolvedCenter radius key (b_language body))
                     databasePlaceIds;
               let validPlaces := omap (fun p => p) results in
               let sorted :=
                 Array_sort (fun a b => r_distance a - r_distance b)
                            validPlaces in
               let filteredPlaces := map r_place sorted in
               let placeLocations := map location filteredPlaces in
               let viewport :=
                 default (defaultViewport resolvedCenter)
                         (expandViewportFromPoints placeLocations) in
               ret (json_ok
                 {| search := Some
                      {| Types.query := query;
                         Types.resolvedArea := resolvedArea;
                         center := resolvedCenter;
                         viewport := viewport |};
                    places := Some filteredPlaces;
                    directions := None |})
           end
         end
     end)
    (fun message => ret (serverError message)).

End SearchPlaces.

(** ** app/api/localhub/tools/get_directions/route.ts *)

Module GetDirections.
Import JS Utils Types Provider Async Async.Notations.

(** The request body after destructuring.  The two coordinate members
    are kept as parsed values, since the handler inspects their type. *)
Record Body := {
  to_coords : option json;
  from_coords : option json;
  b_mode : option string;
  b_language : option string
}.

(** [!c || typeof c !== 'object' || typeof c.lat !== 'number' ||
     typeof c.lng !== 'number'] *)
Definition rejected (c : option json) : bool :=
  negb (truthy c) ||
  match c with
  | Some v =>
      negb (typeof_object v) ||
      negb (typeof_number (prop v "lat")) ||
      negb (typeof_number (prop v "lng"))
  | None => true
  end.

(** The number held by a member that passed [typeof ... === 'number']. *)
Definition number_of (v : option json) : R :=
  match v with
  | Some (JNumber x) => x
  | _ => 0%R
  end.

Definition coords_of (c : option json) : LatLng :=
  match c with
  | Some v => {| lat := number_of (prop v "lat");
                 lng := number_of (prop v "lng") |}
  | None => {| lat := 0%R; lng := 0%R |}
  end.

(** [routes?.[0]] and [legs?.[0]] *)
Definition first {A} (items : option (list A)) : option A :=
  match items with
  | Some (x :: _) => Some x
  | _ => None
  end.

(** The handler from the parsed response of the Directions API on. *)
Definition respond (from_ to_ : LatLng) (mode : string)
    (directionsData : DirectionsResponse) : NextResponse ToolOutput :=
  if negb (String.eqb (dr_status directionsData) "OK") then
    externalError
      ("Directions API error: " ++ dr_status directionsData ++
       match nonempty (error_message directionsData) with
       | Some m => " - " ++ m
       | None => ""
       end)
  else
    match first (routes directionsData) with
    | None => externalError "No routes found in Directions API response"
    | Some route =>
        match first (legs route) with
        | None => externalError "No legs found in route"
        | Some leg =>
            match nonempty (overview_polyline route ≫= points) with
            | None => externalError "No polyline found in route"
            | Some line =>
                json_ok
                  {| search := None;
                     places := None;
                     directions := Some
                       {| from := from_;
                          to := to_;
                          mode := mode;
                          polyline := line;
                          distanceText :=
                            default "Unknown distance"
                              (nonempty (distance leg ≫= text));
                          durationText :=
                            default "Unknown duration"
                              (nonempty (duration leg ≫= text));
                          googleMapsUrl :=
                            {| url_origin := from_;
                               url_destination := to_;
                               url_travelmode := mode |} |} |}
            end
        end
    end.

Definition POST (body : Body) : Eff (NextResponse ToolOutput) :=
  try_catch
    (let mode := default "driving" (b_mode body) in
     if rejected (to_coords body) then
       ret (badRequest
         "Missing or invalid required parameter: to_coords (must be an object with lat and lng numbers)")
     else if rejected (from_coords body) then
       ret (badRequest
         "Missing or invalid required parameter: from_coords (must be an object with lat and lng numbers)")
     else
       let from_ := coords_of (from_coords body) in
       let to_ := coords_of (to_coords body) in
       await directionsKey <- getenv GOOGLE_DIRECTIONS_API_KEY;
       await placesKey <- getenv GOOGLE_PLACES_API_KEY;
       match (match directionsKey with Some k => Some k | None => placesKey end)
       with
       | None => ret (serverError "GOOGLE_DIRECTIONS_API_KEY not configured")
       | Some apiKey =>
           await directionsData <-
             fetch_directions from_ to_ mode apiKey
                              (nonempty (b_language body));
           ret (respond from_ to_ mode directionsData)
       end)
    (fun message => ret (serverError message)).

End GetDirections.

(** ** apps/localhub/web/src/component.tsx: the polyline decoder *)

Module Polyline.
Import Types.
Local Open Scope Z_scope.

(** ToInt32 and the operators built on it. *)
Definition ToInt32 (z : Z) : Z := (z + 2 ^ 31) mod 2 ^ 32 - 2 ^ 31.

Definition shl (x count : Z) : Z :=
  ToInt32 (Z.shiftl (ToInt32 x) (count mod 32)).
Definition sar (x count : Z) : Z :=
  Z.shiftr (ToInt32 x) (count mod 32).
Definition bor (x y : Z) : Z := ToInt32 (Z.lor (ToInt32 x) (ToInt32 y)).
Definition band (x y : Z) : Z := ToInt32 (Z.land (ToInt32 x) (ToInt32 y)).
Definition bnot (x : Z) : Z := ToInt32 (Z.lnot (ToInt32 x)).

(** [str.charCodeAt(i)] of a character that exists. *)
Definition charCode (ch : ascii) : Z := Z.of_nat (nat_of_ascii ch).

(** One [do { ... } while (b >= 0x20)] loop, from [shift] and [result];
    it returns [result] and the rest of the string.  Past the end
    [charCodeAt] is NaN: [b & 0x1f] is 0 and the loop stops. *)
Fixpoint read_value (str : string) (shift result : Z) : Z * string :=
  match str with
  | EmptyString => (bor result (shl 0 shift), EmptyString)
  | String ch rest =>
      let b := charCode ch - 63 in
      let result := bor result (shl (band b 31) shift) in
      if 32 <=? b then read_value rest (shift + 5) result
      else (result, rest)
  end.

(** [(result & 1) ? ~(result >> 1) : (result >> 1)] *)
Definition delta (result : Z) : Z :=
  if band result 1 =? 0 then sar result 1 else bnot (sar result 1).

Lemma read_value_length (str : string) (shift result : Z) :
  (String.length (snd (read_value str shift result)) <= String.length str)%nat.
Proof.
  revert shift result.
  induction str as [|ch rest IH]; intros shift result; simpl; [lia|].
  destruct (32 <=? charCode ch - 63); simpl; [|lia].
  specialize (IH (shift + 5) (bor result (shl (band (charCode ch - 63) 31) shift))).
  lia.
Qed.

Lemma read_value_shorter (ch : ascii) (rest : string) (shift result : Z) :
  (String.length (snd (read_value (String ch rest) shift result))
   < String.length (String ch rest))%nat.
Proof.
  cbn [read_value].
  destruct (32 <=? charCode ch - 63); cbn [snd String.length]; [|lia].
  pose proof (read_value_length rest (shift + 5)
    (bor result (shl (band (charCode ch - 63) 31) shift))).
  lia.
Qed.

(** The [while (index < str.length)] loop; [lat] and [lng] are the
    running sums, which are integers. *)
#[local] Obligation Tactic := idtac.
Equations? decode_from (str : string) (lat lng : Z) : list LatLng
  by wf (String.length str) lt :=
  decode_from EmptyString lat lng := [];
  decode_from (String ch rest) lat lng :=
    let r1 := read_value (String ch rest) 0 0 in
    let lat := lat + delta (fst r1) in
    let r2 := read_value (snd r1) 0 0 in
    let lng := lng + delta (fst r2) in
    {| Types.lat := (IZR lat / 100000)%R; Types.lng := (IZR lng / 100000)%R |}
      :: decode_from (snd r2) lat lng.
Proof.
  pose proof (read_value_shorter ch rest 0 0) as H1.
  pose proof (read_value_length (snd r1) 0 0) as H2.
  subst r2 r1.
  lia.
Qed.

Definition decodePolyline (str : string) : list LatLng :=
  decode_from str 0 0.

End Polyline.

(** ** Reference definitions, written from the specification *)

Module Reference.
Import Types.

Section Geo.
Local Open Scope R_scope.

(** Degrees to radians. *)
Definition radians (degrees : R) : R := degrees * PI / 180.

(** The haversine formula as the specification writes it:
    [R * 2 * atan2 (sqrt h) (sqrt (1 - h))] with
    [h = sin^2 (dphi / 2) + cos phi1 * cos phi2 * sin^2 (dlambda / 2)]
    and the mean Earth radius of 6,371,000 m. *)
Definition haversine (a b : LatLng) : R :=
  let phi1 := radians (lat a) in
  let phi2 := radians (lat b) in
  let dphi := phi2 - phi1 in
  let dlambda := radians (lng b) - radians (lng a) in
  let h := (sin (dphi / 2)) ^ 2 + cos phi1 * cos phi2 * (sin (dlambda / 2)) ^ 2 in
  6371000 * (2 * JS.Math_atan2 (sqrt h) (sqrt (1 - h))).

(** A value forced into the interval [[lo, hi]]. *)
Definition clamp (lo hi x : R) : R :=
  if Rlt_dec x lo then lo else if Rlt_dec hi x then hi else x.

(** [m] is the greatest (smallest) value of [f] over [points]. *)
Definition is_max (f : LatLng -> R) (points : list LatLng) (m : R) : Prop :=
  (exists p, In p points /\ f p = m) /\ Forall (fun p => f p <= m) points.

Definition is_min (f : LatLng -> R) (points : list LatLng) (m : R) : Prop :=
  (exists p, In p points /\ f p = m) /\ Forall (fun p => m <= f p) points.

(** The point [p] lies in the box. *)
Definition encloses (box : Viewport) (p : LatLng) : Prop :=
  south box <= lat p <= north box /\ west box <= lng p <= east box.

(** [m] is [start] or the value of [f] at one of the points. *)
Definition attained (f : LatLng -> R) (start : R) (points : list LatLng)
    (m : R) : Prop :=
  m = start \/ exists p, In p points /\ f p = m.
End Geo.

(** Modelled from the spec: the reference encoder of the round-trip
    property, which is not part of the repository.  It is the encoded
    polyline algorithm as published: each value, in units of 1e-5
    degrees, is taken as its offset from the previous point, shifted left
    by one bit and inverted when negative, then cut into 5-bit chunks
    from the low end, every chunk but the last or-ed with 0x20, and 63
    added to each. *)
Section Encoder.
Local Open Scope Z_scope.

Definition fromCharCode (code : Z) : ascii := ascii_of_nat (Z.to_nat code).

#[local] Obligation Tactic := idtac.
Equations? encode_unsigned (num : Z) : string by wf (Z.to_nat num) lt :=
  encode_unsigned num with Z_le_dec 32 num := {
    | left _ =>
        String (fromCharCode (Z.lor 32 (Z.land num 31) + 63))
               (encode_unsigned (Z.shiftr num 5));
    | right _ => String (fromCharCode (num + 63)) EmptyString
  }.
Proof.
  rewrite Z.shiftr_div_pow2 by lia.
  apply Z2Nat.inj_lt; try lia.
  - apply Z.div_pos; lia.
  - apply Z.div_lt; lia.
Qed.

Definition encode_signed (value : Z) : string :=
  let shifted := Z.shiftl value 1 in
  encode_unsigned (if value <? 0 then Z.lnot shifted else shifted).

(** A path is given by its points in units of 1e-5 degrees. *)
Fixpoint encode_from (path : list (Z * Z)) (lat0 lng0 : Z) : string :=
  match path with
  | [] => EmptyString
  | (lat1, lng1) :: rest =>
      encode_signed (lat1 - lat0) ++ encode_signed (lng1 - lng0) ++
      encode_from rest lat1 lng1
  end.

Definition encodePolyline (path : list (Z * Z)) : string :=
  encode_from path 0 0.

(** The point, in degrees, that a pair of multiples of 1e-5 stands for. *)
Definition degrees (p : Z * Z) : LatLng :=
  {| lat := (IZR (fst p) / 100000)%R; lng := (IZR (snd p) / 100000)%R |}.

(** A coordinate: a latitude of at most 90 degrees and a longitude of at
    most 180 degrees, north or south, east or west. *)
Definition valid_point (p : Z * Z) : Prop :=
  -9000000 <= fst p <= 9000000 /\ -18000000 <= snd p <= 18000000.

(** Two points that agree within 1e-5 degrees. *)
Definition near (p q : LatLng) : Prop :=
  (Rabs (lat p - lat q) <= 0.00001)%R /\ (Rabs (lng p - lng q) <= 0.00001)%R.

(** The path of the example in the description of the format. *)
Definition samplePath : list (Z * Z) :=
  [(3850000, -12020000); (4070000, -12095000); (4325200, -12645300)].
End Encoder.

End Reference.

(** ** Notions used to state the properties of the handlers *)

Module Observations.
Import JS Utils Types Provider Async PlaceFilter SearchPlaces.
Local Open Scope Z_scope.
Local Open Scope R_scope.

(** The distance of a place from the centre of the search. *)
Definition distanceFrom (origin : LatLng) (p : Place) : R :=
  calculateDistance (lat origin) (lng origin)
                    (lat (location p)) (lng (location p)).

(** The handler got past the check of [query] and resolved the centre to
    [origin], with the label [area], sending the requests [sent]. *)
Definition origin_resolves (body : Body) (env : Env)
    (origin : LatLng) (area : string) (sent : list Request) : Prop :=
  (exists query, nonempty (b_query body) = Some query) /\
  resolveCenter body env = (Returned (inr (origin, area)), sent).

(** The answer of the provider to the details request for [placeId]. *)
Definition detailsOf (env : Env) (key : string) (language : option string)
    (placeId : string) : Fetched DetailsResponse :=
  details_api env placeId detailsFields key (nonempty language).

(** The location a details response carries, if any. *)
Definition locationOf (data : DetailsResponse) : option LatLng :=
  match pd_result data with
  | Some place =>
      match pr_geometry place with
      | Some geometry => g_location geometry
      | None => None
      end
  | None => None
  end.

(** A details lookup that threw, came back with a status other than OK,
    or came back without a geometry location. *)
Inductive lookup_fails : Fetched DetailsResponse -> Prop :=
| fails_thrown (message : string) :
    lookup_fails (fetch_threw message)
| fails_status (data : DetailsResponse) :
    pd_status data <> "OK" -> lookup_fails (fetch_json data)
| fails_location (data : DetailsResponse) :
    locationOf data = None -> lookup_fails (fetch_json data).

(** What the callback yields for [placeId], without the effects. *)
Definition lookup (env : Env) (origin : LatLng) (radius : R) (key : string)
    (language : option string) (placeId : string) : option Ranked :=
  match detailsOf env key language placeId with
  | fetch_json data => rankPlace origin radius data
  | fetch_threw _ => None
  end.

(** The places found for a list of place ids: looked up, kept when not
    null, sorted by distance. *)
Definition found (env : Env) (origin : LatLng) (radius : R) (key : string)
    (language : option string) (placeIds : list string) : list Ranked :=
  Array_sort (fun a b => r_distance a - r_distance b)
    (omap (fun p => p) (map (lookup env origin radius key language) placeIds)).

(** The response body built from the sorted places. *)
Definition output (query area : string) (origin : LatLng)
    (sorted : list Ranked) : ToolOutput :=
  {| search := Some
       {| Types.query := query;
          resolvedArea := area;
          center := origin;
          viewport :=
            default (defaultViewport origin)
              (expandViewportFromPoints (map location (map r_place sorted))) |};
     places := Some (map r_place sorted);
     directions := None |}.

(** A successful response: status 200 with the body [out]. *)
Definition succeeds (result : Outcome (NextResponse ToolOutput) * list Request)
    (out : ToolOutput) : Prop :=
  fst result = Returned (json_ok out).

(** The response is an error of the given status. *)
Definition fails_with (status : Z)
    (result : Outcome (NextResponse ToolOutput) * list Request) : Prop :=
  exists message, fst result = Returned (json_error status message).

(** A coordinate argument that is present and is an object with numeric
    [lat] and [lng]. *)
Definition valid_coords (c : option json) : Prop :=
  exists fields latitude longitude,
    c = Some (JObject fields) /\
    fields !! "lat" = Some (JNumber latitude) /\
    fields !! "lng" = Some (JNumber longitude).

(** A directions response without a first route, without a first leg in
    it, or without an overview polyline. *)
Inductive lacks_data (data : DirectionsResponse) : Prop :=
| lacks_route :
    GetDirections.first (routes data) = None -> lacks_data data
| lacks_leg (route : Route) :
    GetDirections.first (routes data) = Some route ->
    GetDirections.first (legs route) = None -> lacks_data data
| lacks_polyline (route : Route) :
    GetDirections.first (routes data) = Some route ->
    nonempty (overview_polyline route ≫= points) = None -> lacks_data data.

End Observations.

(** ** Sample data, after the test suites *)

Module Samples.
Import JS Utils Types Provider Async PlaceFilter.
Local Open Scope R_scope.

Definition dublin : LatLng := {| lat := 53.3498; lng := -6.2603 |}.

Definition coffeeShop : PlaceResult :=
  {| place_id := "place1";
     pr_name := "Test Coffee Shop";
     formatted_address := Some "123 Main St";
     pr_geometry := Some {| g_location := Some dublin |};
     pr_rating := Some 4.5;
     user_ratings_total := Some 100;
     formatted_phone_number := Some "+353 1 555 0100" |}.

Definition row (placeId : string) : Business :=
  {| projectId := 1%Z; PlaceFilter.placeId := placeId;
     businessName := placeId |}.

Definition sampleRoute : Route :=
  {| legs := Some [ {| distance := Some {| text := Some "5.2 km" |};
                       duration := Some {| text := Some "12 mins" |} |} ];
     overview_polyline := Some {| points := Some "encodedPolylineString123" |} |}.

(** A provider that knows the place "A", reports NOT_FOUND for "B" and
    fails for any other place id; it geocodes "Dublin" only, and finds a
    route for driving only. *)
Definition sampleEnv (key : option string) (rows : list Business) : Env :=
  {| GOOGLE_PLACES_API_KEY := key;
     GOOGLE_DIRECTIONS_API_KEY := None;
     business := rows;
     geocode_api := fun address _ =>
       if String.eqb address "Dublin" then
         fetch_json
           {| gc_status := "OK";
              gc_results := Some
                [ {| gc_geometry := Some {| g_location := Some dublin |} |} ] |}
       else
         fetch_json {| gc_status := "ZERO_RESULTS"; gc_results := Some [] |};
     details_api := fun placeId _ _ _ =>
       if String.eqb placeId "A" then
         fetch_json {| pd_status := "OK"; pd_result := Some coffeeShop |}
       else if String.eqb placeId "B" then
         fetch_json {| pd_status := "NOT_FOUND"; pd_result := None |}
       else fetch_threw "fetch failed";
     directions_api := fun _ _ mode _ _ =>
       if String.eqb mode "driving" then
         fetch_json {| dr_status := "OK"; error_message := None;
                       routes := Some [sampleRoute] |}
       else
         fetch_json {| dr_status := "ZERO_RESULTS"; error_message := None;
                       routes := None |} |}.

Definition coords (latitude longitude : R) : json :=
  JObject {[ "lat" := JNumber latitude; "lng" := JNumber longitude ]}.

Definition directionsBody (to_ from_ : option json) (mode : option string)
  : GetDirections.Body :=
  {| GetDirections.to_coords := to_;
     GetDirections.from_coords := from_;
     GetDirections.b_mode := mode;
     GetDirections.b_language := None |}.

Definition searchBody (where_ : option string) (center : option LatLng)
  : SearchPlaces.Body :=
  {| SearchPlaces.b_query := Some "coffee";
     SearchPlaces.b_where := where_;
     SearchPlaces.b_center := center;
     SearchPlaces.b_radius_m := None;
     SearchPlaces.b_language := None |}.

(** The coffee shop as search_places returns it, at distance 0 from
    [dublin]. *)
Definition coffeeShopPlace : Place :=
  {| id := "place1";
     name := "Test Coffee Shop";
     address := "123 Main St";
     phone := None;
     rating := Some 4.5;
     userRatingsTotal := Some 100;
     location := dublin;
     provider := {| source := "google_places"; Types.placeId := Some "place1" |} |}.

End Samples.

(** ** apps/localhub/server/place-filter.ts, continued *)

Module PlaceFilterQueries.
Import PlaceFilter.

(** [filterPlacesByDatabase]: nothing for no place id, and otherwise the
    [placeId] of the rows that
    [prisma.business.findMany({ where: { placeId: { in: placeIds } } })]
    selects, here in the order of the table. *)
Definition filterPlacesByDatabase (table : list Business)
    (placeIds : list string) : list string :=
  if Nat.eqb (length placeIds) 0 then []
  else
    map placeId
      (List.filter (fun b => existsb (String.eqb (placeId b)) placeIds) table).

End PlaceFilterQueries.

(** ** Further notions used to state properties *)

Module Outcomes.
Import JS Utils Types Provider Async PlaceFilter SearchPlaces Observations.
Local Open Scope Z_scope.
Local Open Scope R_scope.

(** [response.status] *)
Definition statusOf {A} (response : NextResponse A) : Z :=
  match response with
  | json_ok _ => 200%Z
  | json_error status _ => status
  end.

(** The handler answered, with the given status. *)
Definition answers {A} (status : Z)
    (result : Outcome (NextResponse A) * list Request) : Prop :=
  exists response, fst result = Returned response /\ statusOf response = status.

(** The location that [geocodeWhere] reads off an answer of the Geocoding
    API: that of the first result of an OK answer. *)
Definition firstLocation (answer : Fetched GeocodeResponse) : option LatLng :=
  match answer with
  | fetch_threw _ => None
  | fetch_json data =>
      if String.eqb (gc_status data) "OK" then
        match gc_results data with
        | Some (first :: _) =>
            match gc_geometry first with
            | Some geometry => g_location geometry
            | None => None
            end
        | _ => None
        end
      else None
  end.

(** The request body with another [radius_m]. *)
Definition with_radius (body : Body) (radius_m : option R) : Body :=
  {| b_query := b_query body;
     b_where := b_where body;
     b_center := b_center body;
     b_radius_m := radius_m;
     b_language := b_language body |}.

(** The lookups that did not yield null, in the order of the database. *)
Definition kept (env : Env) (origin : LatLng) (radius : R) (key : string)
    (language : option string) (placeIds : list string) : list Ranked :=
  omap (fun p => p) (map (lookup env origin radius key language) placeIds).

(** A box that is not inside out. *)
Definition well_formed (box : Viewport) : Prop :=
  south box <= north box /\ west box <= east box.

(** The coordinate argument [c] is an object whose [lat] and [lng] are
    the numbers of [p]. *)
Definition coords_are (c : option json) (p : LatLng) : Prop :=
  exists fields,
    c = Some (JObject fields) /\
    fields !! "lat" = Some (JNumber (lat p)) /\
    fields !! "lng" = Some (JNumber (lng p)).

(** [process.env.GOOGLE_DIRECTIONS_API_KEY || process.env.GOOGLE_PLACES_API_KEY],
    when truthy. *)
Definition directionsKey (env : Env) : option string :=
  match nonempty (GOOGLE_DIRECTIONS_API_KEY env) with
  | Some key => Some key
  | None => nonempty (GOOGLE_PLACES_API_KEY env)
  end.

End Outcomes.

(** ** app/api/mcp/route.ts: the JSON-RPC front door

    [TOOLS], [POST] and its handlers (the source text is at lines 142-526
    of app/admin/layout.tsx).  The handlers reach the tools over HTTP, at
    the routes of the application itself; such a request is recorded by
    its URL, method and body, and its outcome is read from the
    environment.  A reply [NextResponse.json({ jsonrpc: '2.0', id, ... })]
    is recorded by its HTTP status, its [id] and its result or error. *)

Module Mcp.
Import JS Provider Async.
Local Open Scope Z_scope.

(** The double quote character, code 34. *)
Definition doubleQuote : string := String (ascii_of_nat 34) EmptyString.

Record InternalRequest := {
  url : string;
  http_method : string;
  request_body : option json
}.

(** What the handlers read of a [Response]. *)
Record HttpReply := {
  ok : bool;
  statusText : string;
  reply_json : Fetched json;
  reply_text : Fetched string
}.

Record Site := {
  NEXT_PUBLIC_BASE_URL : option string;
  site_fetch : InternalRequest -> Fetched HttpReply
}.

Inductive RpcBody :=
| rpc_result (result : json)
| rpc_error (code : Z) (message : string).

Record RpcReply := {
  http_status : Z;
  reply_id : option json;
  reply_body : RpcBody
}.

(** [process.env.NEXT_PUBLIC_BASE_URL || 'http://localhost:3000'] *)
Definition baseUrl (site : Site) : string :=
  default "http://localhost:3000" (nonempty (NEXT_PUBLIC_BASE_URL site)).

(** [v === s] for a string literal [s]. *)
Definition is_string (v : option json) (s : string) : bool :=
  match v with
  | Some (JString t) => String.eqb t s
  | _ => false
  end.

(** [value == null]: null or undefined, on which a property access or a
    destructuring throws. *)
Definition nullish (v : option json) : bool :=
  match v with
  | None | Some JNull => true
  | _ => false
  end.

(** [places?.length]: of an array or a string, or the member of that name
    of an object. *)
Definition lengthOf (v : option json) : option json :=
  match v with
  | Some (JArray items) => Some (JNumber (INR (length items)))
  | Some (JString s) => Some (JNumber (INR (String.length s)))
  | Some (JObject fields) => fields !! "length"
  | _ => None
  end.

Definition widgetMeta : json :=
  JObject {[ "openai/outputTemplate" := JString "ui://widget/localhub-map.html" ]}.

Definition TOOLS : json :=
  JArray
    [ JObject
        {[ "name" := JString "localhub.search_places";
           "title" := JString "Search Places";
           "description" := JString
             "Search for local businesses and places using Google Places API. Accepts a query string and optional location parameters to find nearby businesses.";
           "annotations" := JObject {[ "readOnlyHint" := JBool true ]};
           "_meta" := JObject
             {[ "openai/outputTemplate" := JString "ui://widget/localhub-map.html";
                "openai/resultCanProduceWidget" := JBool true;
                "openai/widgetAccessible" := JBool true;
                "openai/toolInvocation/invoking" := JString "Searching places...";
                "openai/toolInvocation/invoked" := JString "Places loaded" ]};
           "securitySchemes" := JArray [ JObject {[ "type" := JString "noauth" ]} ];
           "inputSchema" := JObject
             {[ "type" := JString "object";
                "properties" := JObject
                  {[ "query" := JObject
                       {[ "type" := JString "string";
                          "description" := JString
                            ("Search query for places (e.g., " ++ doubleQuote ++
                             "coffee shops" ++ doubleQuote ++ ", " ++
                             doubleQuote ++ "restaurants" ++ doubleQuote ++ ")") ]};
                     "where" := JObject
                       {[ "type" := JString "string";
                          "description" := JString
                            ("Optional location string to resolve (e.g., " ++
                             doubleQuote ++ "Dublin" ++ doubleQuote ++ ", " ++
                             doubleQuote ++ "San Francisco" ++ doubleQuote ++ ")") ]};
                     "center" := JObject
                       {[ "type" := JString "object";
                          "description" := JString
                            "Optional center coordinates for search";
                          "properties" := JObject
                            {[ "lat" := JObject {[ "type" := JString "number" ]};
                               "lng" := JObject {[ "type" := JString "number" ]} ]} ]};
                     "radius_m" := JObject
                       {[ "type" := JString "number";
                          "description" := JString
                            "Search radius in meters (default 5000, min 100, max 50000)";
                          "default" := JNumber 5000 ]};
                     "open_now" := JObject
                       {[ "type" := JString "boolean";
                          "description" := JString
                            "Filter to only show places open now";
                          "default" := JBool false ]};
                     "language" := JObject
                       {[ "type" := JString "string";
                          "description" := JString
                            ("Language code for results (e.g., " ++ doubleQuote ++
                             "en" ++ doubleQuote ++ ", " ++ doubleQuote ++ "es" ++
                             doubleQuote ++ ")") ]} ]};
                "required" := JArray [ JString "query" ] ]} ]};
      JObject
        {[ "name" := JString "localhub.get_place_details";
           "title" := JString "Get Place Details";
           "description" := JString
             "Get detailed information about a specific place including phone number, website, and opening hours. Use this when the user wants more details about a selected place.";
           "annotations" := JObject {[ "readOnlyHint" := JBool true ]};
           "_meta" := JObject
             {[ "openai/outputTemplate" := JString "ui://widget/localhub-map.html";
                "openai/resultCanProduceWidget" := JBool true;
                "openai/widgetAccessible" := JBool true;
                "openai/toolInvocation/invoking" := JString "Fetching place details...";
                "openai/toolInvocation/invoked" := JString "Details loaded" ]};
           "securitySchemes" := JArray [ JObject {[ "type" := JString "noauth" ]} ];
           "inputSchema" := JObject
             {[ "type" := JString "object";
                "properties" := JObject
                  {[ "place_id" := JObject
                       {[ "type" := JString "string";
                          "description" := JString
                            "Google Place ID of the place to get details for" ]} ]};
                "required" := JArray [ JString "place_id" ] ]} ]} ].

Section Handlers.

(** The conversion of a value to a string inside a template literal, and
    the message of the TypeError that an expression throws when the value
    it reads a member of is null or undefined: both belong to the
    JavaScript engine. *)
Variable ToString : option json -> string.
Variable TypeError : string -> option json -> string.

Definition reply (id : option json) (body : RpcBody) : RpcReply :=
  {| http_status := 200; reply_id := id; reply_body := body |}.

Definition handleInitialize (id params : option json) : RpcReply :=
  reply id (rpc_result (JObject
    {[ "protocolVersion" := JString "2024-11-05";
       "serverInfo" := JObject
         {[ "name" := JString "localhub"; "version" := JString "1.0.0" ]};
       "capabilities" := JObject
         {[ "tools" := JObject ∅; "resources" := JObject ∅ ]} ]})).

Definition handleToolsList (id : option json) : RpcReply :=
  reply id (rpc_result (JObject {[ "tools" := TOOLS ]})).

(** The [catch] of [handleToolsCall]. *)
Definition toolFailed (id : option json) (message : string) : RpcReply :=
  reply id (rpc_error (-32000) ("Tool execution failed: " ++ message)).

(** The text of the result of a search, from the parsed response and the
    arguments; reading a member of null or undefined throws. *)
Definition searchText (data : json) (args : option json) : Outcome string :=
  if nullish (Some data) then Thrown (TypeError "data.places" (Some data))
  else
    let count :=
      let n := if nullish (prop data "places") then None
               else lengthOf (prop data "places") in
      if truthy n then n else Some (JNumber 0) in
    if nullish args then Thrown (TypeError "args.query" args)
    else
      Returned ("Found " ++ ToString count ++ " places for " ++ doubleQuote ++
                ToString (args ≫= fun a => prop a "query") ++ doubleQuote).

(** The text of the result of get_place_details. *)
Definition detailsText (data : json) : Outcome string :=
  if nullish (Some data) then Thrown (TypeError "data.place_id" (Some data))
  else if truthy (prop data "phone") then
    Returned ("Phone: " ++ ToString (prop data "phone") ++
              (if truthy (prop data "website")
               then ", Website: " ++ ToString (prop data "website")
               else ""))
  else Returned "Details loaded".

(** The two branches of [handleToolsCall] that call a tool: the request,
    the check of [response.ok], the parsed body and the result; anything
    thrown goes to the [catch]. *)
Definition callTool (id : option json) (site : Site) (path failure : string)
    (args : option json) (text : json -> Outcome string)
    (content : json -> json) : Outcome RpcReply * list InternalRequest :=
  let request :=
    {| url := baseUrl site ++ path; http_method := "POST";
       request_body := args |} in
  match site_fetch site request with
  | fetch_threw message => (Returned (toolFailed id message), [request])
  | fetch_json response =>
      if negb (ok response) then
        (Returned (toolFailed id (failure ++ statusText response)), [request])
      else
        match reply_json response with
        | fetch_threw message => (Returned (toolFailed id message), [request])
        | fetch_json data =>
            match text data with
            | Thrown message => (Returned (toolFailed id message), [request])
            | Returned line =>
                (Returned (reply id (rpc_result (JObject
                   {[ "content" := JArray
                        [ JObject {[ "type" := JString "text";
                                     "text" := JString line ]} ];
                      "structuredContent" := content data;
                      "_meta" := widgetMeta ]}))),
                 [request])
            end
        end
  end.

Definition handleToolsCall (id params : option json) (site : Site)
  : Outcome RpcReply * list InternalRequest :=
  if nullish params then (Thrown (TypeError "{ name, arguments: args } = params" params), [])
  else
    let name := params ≫= fun p => prop p "name" in
    let args := params ≫= fun p => prop p "arguments" in
    if is_string name "localhub.search_places" then
      callTool id site "/api/localhub/tools/search_places" "Search failed: "
               args (fun data => searchText data args) (fun data => data)
    else if is_string name "localhub.get_place_details" then
      callTool id site "/api/localhub/tools/get_place_details"
               "Get place details failed: "
               args detailsText
               (fun data => JObject {[ "placeDetails" := data ]})
    else
      (Returned (toolFailed id ("Unknown tool: " ++ ToString name)), []).

Definition handleResourcesList (id : option json) : RpcReply :=
  reply id (rpc_result (JObject
    {[ "resources" := JArray
         [ JObject
             {[ "uri" := JString "ui://widget/localhub-map.html";
                "name" := JString "LocalHub Map Widget";
                "mimeType" := JString "text/html+skybridge";
                "description" := JString
                  "Interactive map widget for displaying places and directions" ]} ] ]})).

Definition handleResourcesRead (id params : option json) (site : Site)
  : Outcome RpcReply * list InternalRequest :=
  if nullish params then (Thrown (TypeError "{ uri } = params" params), [])
  else
    let uri := params ≫= fun p => prop p "uri" in
    if is_string uri "ui://widget/localhub-map.html" then
      let request :=
        {| url := baseUrl site ++ "/api/localhub/resources/localhub-map";
           http_method := "GET"; request_body := None |} in
      match site_fetch site request with
      | fetch_threw message => (Thrown message, [request])
      | fetch_json response =>
          match reply_text response with
          | fetch_threw message => (Thrown message, [request])
          | fetch_json html =>
              (Returned (reply id (rpc_result (JObject
                 {[ "contents" := JArray
                      [ JObject
                          {[ "uri" := JString "ui://widget/localhub-map.html";
                             "mimeType" := JString "text/html+skybridge";
                             "text" := JString html;
                             "_meta" := JObject
                               {[ "openai/widgetPrefersBorder" := JBool true;
                                  "openai/widgetDomain" := JString "https://chatgpt.com";
                                  "openai/widgetCSP" := JObject
                                    {[ "connect_domains" := JArray
                                         [ JString "https://maps.googleapis.com";
                                           JString "https://maps.gstatic.com";
                                           JString (baseUrl site) ];
                                       "resource_domains" := JArray
                                         [ JString "https://maps.googleapis.com";
                                           JString "https://maps.gstatic.com";
                                           JString "https://fonts.googleapis.com";
                                           JString "https://fonts.gstatic.com";
                                           JString (baseUrl site) ] ]} ]} ]} ] ]}))),
               [request])
          end
      end
    else
      (Returned (reply id (rpc_error (-32602)
         ("Resource not found: " ++ ToString uri))), []).

(** The [catch] of [POST]. *)
Definition parseError : RpcReply :=
  {| http_status := 500; reply_id := Some JNull;
     reply_body := rpc_error (-32700) "Parse error" |}.

(** [POST]: [body] is what [request.json()] yields, or nothing when it
    throws.  A handler that is [async] is returned without [await], so
    what it throws is not caught here. *)
Definition POST (body : option json) (site : Site)
  : Outcome RpcReply * list InternalRequest :=
  match body with
  | None => (Returned parseError, [])
  | Some JNull => (Returned parseError, [])
  | Some request =>
      let jsonrpc := prop request "jsonrpc" in
      let id := prop request "id" in
      let method := prop request "method" in
      let params := prop request "params" in
      if negb (is_string jsonrpc "2.0") then
        (Returned (reply id (rpc_error (-32600)
           "Invalid Request - must be JSON-RPC 2.0")), [])
      else if is_string method "initialize" then
        (Returned (handleInitialize id params), [])
      else if is_string method "tools/list" then
        (Returned (handleToolsList id), [])
      else if is_string method "tools/call" then
        handleToolsCall id params site
      else if is_string method "resources/list" then
        (Returned (handleResourcesList id), [])
      else if is_string method "resources/read" then
        handleResourcesRead id params site
      else
        (Returned (reply id (rpc_error (-32601)
           ("Method not found: " ++ ToString method))), [])
  end.

End Handlers.

(** The names of the tools of the manifest. *)
Definition toolNames : list string :=
  match TOOLS with
  | JArray tools =>
      omap (fun tool =>
              match prop tool "name" with
              | Some (JString name) => Some name
              | _ => None
              end) tools
  | _ => []
  end.

(** The request carries [jsonrpc: '2.0'] and the given method. *)
Definition calls (request : json) (method : string) : Prop :=
  is_string (prop request "jsonrpc") "2.0" = true /\
  is_string (prop request "method") method = true.

(** One of the five methods that [POST] routes. *)
Definition routed (method : option json) : bool :=
  is_string method "initialize" || is_string method "tools/list" ||
  is_string method "tools/call" || is_string method "resources/list" ||
  is_string method "resources/read".

(** The dispatcher replied with a JSON-RPC error of the given code. *)
Definition errs (code : Z)
    (result : Outcome RpcReply * list InternalRequest) : Prop :=
  exists r message,
    fst result = Returned r /\ reply_body r = rpc_error code message.

(** The request for the widget fails: [fetch] or [response.text()]
    throws. *)
Definition widget_unavailable (site : Site) : Prop :=
  match site_fetch site
          {| url := baseUrl site ++ "/api/localhub/resources/localhub-map";
             http_method := "GET"; request_body := None |} with
  | fetch_threw _ => True
  | fetch_json response =>
      match reply_text response with
      | fetch_threw _ => True
      | fetch_json _ => False
      end
  end.

End Mcp.

(** ** Sample requests to the front door *)

Module McpSamples.
Import JS Provider Async Mcp.

Definition plainToString (v : option json) : string :=
  match v with
  | Some (JString s) => s
  | _ => "undefined"
  end.

Definition plainTypeError (expression : string) (v : option json) : string :=
  "Cannot evaluate " ++ expression.

(** A site whose routes answer 200 with the given body. *)
Definition siteAnswering (data : json) : Site :=
  {| NEXT_PUBLIC_BASE_URL := None;
     site_fetch := fun _ =>
       fetch_json {| ok := true; statusText := "OK";
                     reply_json := fetch_json data;
                     reply_text := fetch_json "<div id='root'></div>" |} |}.

Definition noPlaces : json := JObject {[ "places" := JArray [] ]}.

(** [{ jsonrpc: '2.0', id: 'a', method, params }] *)
Definition rpc (method : string) (params : json) : json :=
  JObject {[ "jsonrpc" := JString "2.0"; "id" := JString "a";
             "method" := JString method; "params" := params ]}.

Definition toolCall (name : string) (args : json) : json :=
  rpc "tools/call"
      (JObject {[ "name" := JString name; "arguments" := args ]}).

Definition coffee : json := JObject {[ "query" := JString "coffee" ]}.

End McpSamples.

(** ** The handlers from the request on

    [POST] of both tools begins, inside its [try], with
    [const body = await request.json()] and the destructuring of [body];
    the search then reads the database.  What fails there is answered by
    the [catch] like anything else that is thrown. *)

Module Requests.

(** What [await request.json()] hands to the destructuring: it rejects
    when the body is not JSON; it yields null, which cannot be
    destructured; or it yields a value, read through its members, typed
    as the tool's input schema declares them. *)
Inductive Received (B : Type) :=
| not_json (message : string)
| json_null
| json_members (body : B).
Arguments not_json {B} message.
Arguments json_null {B}.
Arguments json_members {B} body.

(** A member of the body, undefined when there is no body to read. *)
Definition member {B A} (read : B -> option A) (request : Received B)
  : option A :=
  match request with
  | json_members body => read body
  | _ => None
  end.

End Requests.

Module SearchPlacesRoute.
Import JS Utils Types Provider Async Async.Notations.
Import PlaceFilter SearchPlaces Requests.

Section Route.

(** The message of the TypeError that the engine throws when the given
    declaration destructures null. *)
Variable TypeError : string -> string.

(** [POST] when [await getAllBusinessPlaceIds()] rejects with [message]:
    the handler up to the read of the database. *)
Definition database_down (body : Body) (message : string)
  : Eff (NextResponse ToolOutput) :=
  try_catch
    (match nonempty (b_query body) with
     | None => ret (badRequest "Missing required parameter: query")
     | Some query =>
         await resolved <- resolveCenter body;
         match resolved with
         | inl response => ret response
         | inr (resolvedCenter, resolvedArea) =>
           await apiKey <- getenv GOOGLE_PLACES_API_KEY;
           match apiKey with
           | None => ret (serverError "GOOGLE_PLACES_API_KEY not configured")
           | Some key => throw message
           end
         end
     end)
    (fun message => ret (serverError message)).

(** [POST], from the request and the state of the database:
    [database_error] is the message with which the read rejects, when it
    does. *)
Definition POST (request : Received Body) (database_error : option string)
  : Eff (NextResponse ToolOutput) :=
  match request with
  | not_json message => ret (serverError message)
  | json_null =>
      ret (serverError
             (TypeError "{ query, where, center, radius_m = 40000, language } = body"))
  | json_members body =>
      match database_error with
      | None => SearchPlaces.POST body
      | Some message => database_down body message
      end
  end.

End Route.

End SearchPlacesRoute.

Module GetDirectionsRoute.
Import JS Utils Types Provider Async Async.Notations.
Import GetDirections Requests.

Section Route.

Variable TypeError : string -> string.

(** [POST], from the request. *)
Definition POST (request : Received Body) : Eff (NextResponse ToolOutput) :=
  match request with
  | not_json message => ret (serverError message)
  | json_null =>
      ret (serverError
             (TypeError "{ to_coords, from_coords, mode = 'driving', language } = body"))
  | json_members body => GetDirections.POST body
  end.

End Route.

End GetDirectionsRoute.

(** ** The places a search has to show *)

Module Availability.
Import JS Utils Types Provider Async PlaceFilter SearchPlaces Observations.
Local Open Scope R_scope.

(** The place shown for a result of the provider at [position]. *)
Definition placeOf (result : PlaceResult) (position : LatLng) : Place :=
  {| id := place_id result;
     name := pr_name result;
     address := default "" (formatted_address result);
     phone := None;
     rating := pr_rating result;
     userRatingsTotal := user_ratings_total result;
     location := {| lat := lat position; lng := lng position |};
     provider := {| source := "google_places";
                    Types.placeId := Some (place_id result) |} |}.

(** The lookup of [placeId] came back with status OK, a result and a
    location no further than [radius] from [origin]: [place] is what the
    search has to show for it. *)
Definition available (env : Env) (key : string) (language : option string)
    (origin : LatLng) (radius : R) (placeId : string) (place : Place) : Prop :=
  exists data result position,
    detailsOf env key language placeId = fetch_json data /\
    pd_status data = "OK" /\
    pd_result data = Some result /\
    locationOf data = Some position /\
    calculateDistance (lat origin) (lng origin) (lat position) (lng position)
      <= radius /\
    place = placeOf result position.

End Availability.

(** ** Sample data with places at several distances *)

Module RankedSamples.
Import JS Utils Types Provider Async PlaceFilter Samples.
Local Open Scope R_scope.

(** A thousandth of a degree north of [dublin], about 111 m away. *)
Definition nearby : LatLng := {| lat := 53.3508; lng := -6.2603 |}.

(** Half a degree north of [dublin], about 55.6 km away. *)
Definition distant : LatLng := {| lat := 53.8498; lng := -6.2603 |}.

Definition shopAt (placeId name : string) (position : option LatLng)
  : PlaceResult :=
  {| place_id := placeId;
     pr_name := name;
     formatted_address := None;
     pr_geometry := Some {| g_location := position |};
     pr_rating := None;
     user_ratings_total := None;
     formatted_phone_number := None |}.

(** A provider that knows the coffee shop "A" at [dublin], "near" and
    "far" north of it and "nowhere" without a location, reports
    NOT_FOUND for "B" and fails for any other place id. *)
Definition rankedEnv (rows : list Business) : Env :=
  {| GOOGLE_PLACES_API_KEY := Some "test-api-key";
     GOOGLE_DIRECTIONS_API_KEY := None;
     business := rows;
     geocode_api := fun _ _ =>
       fetch_json {| gc_status := "ZERO_RESULTS"; gc_results := Some [] |};
     details_api := fun placeId _ _ _ =>
       if String.eqb placeId "A" then
         fetch_json {| pd_status := "OK"; pd_result := Some coffeeShop |}
       else if String.eqb placeId "near" then
         fetch_json {| pd_status := "OK";
                       pd_result := Some (shopAt "place2" "Near Bakery"
                                                 (Some nearby)) |}
       else if String.eqb placeId "far" then
         fetch_json {| pd_status := "OK";
                       pd_result := Some (shopAt "place3" "Far Bakery"
                                                 (Some distant)) |}
       else if String.eqb placeId "nowhere" then
         fetch_json {| pd_status := "OK";
                       pd_result := Some (shopAt "place4" "Lost Bakery" None) |}
       else if String.eqb placeId "B" then
         fetch_json {| pd_status := "NOT_FOUND"; pd_result := None |}
       else fetch_threw "fetch failed";
     directions_api := fun _ _ _ _ _ => fetch_threw "fetch failed" |}.

(** The database lists the far and the near bakery before the coffee
    shop. *)
Definition rankedRows : list Business :=
  [row "far"; row "near"; row "B"; row "nowhere"; row "C"; row "A"].

(** A search around [dublin] that asks for 60 km. *)
Definition rankedBody : SearchPlaces.Body :=
  {| SearchPlaces.b_query := Some "coffee";
     SearchPlaces.b_where := None;
     SearchPlaces.b_center := Some dublin;
     SearchPlaces.b_radius_m := Some 60000;
     SearchPlaces.b_language := None |}.

Definition nearPlace : Place :=
  {| id := "place2";
     name := "Near Bakery";
     address := "";
     phone := None;
     rating := None;
     userRatingsTotal := None;
     location := nearby;
     provider := {| source := "google_places"; Types.placeId := Some "place2" |} |}.

(** The message of a TypeError, in the words of V8. *)
Definition nullMessage (declaration : string) : string :=
  "Cannot destructure '" ++ declaration ++ "' as it is null.".

End RankedSamples.

(* ================================================================== *)
(** * Part II: properties *)
(* ================================================================== *)

(** ** Distance and bounding box *)

Section GeoMath.
Import JS Types PlaceFilter SearchPlaces Reference.
Local Open Scope R_scope.

Lemma Math_atan2_0_1 : Math_atan2 0 1 = 0.
Proof.
  unfold Math_atan2.
  destruct (Rlt_dec 0 1) as [_|H]; [|lra].
  replace (0 / 1) with 0 by lra.
  apply atan_0.
Qed.

(** The quantity under the square roots does not change when the two
    points are exchanged. *)
Lemma sin_half_swap (x y : R) :
  sin ((x - y) * PI / 180 / 2) * sin ((x - y) * PI / 180 / 2) =
  sin ((y - x) * PI / 180 / 2) * sin ((y - x) * PI / 180 / 2).
Proof.
  replace ((x - y) * PI / 180 / 2) with (- ((y - x) * PI / 180 / 2)) by lra.
  rewrite sin_neg. ring.
Qed.

Lemma calculateDistance_same (lat1 lng1 : R) :
  calculateDistance lat1 lng1 lat1 lng1 = 0.
Proof.
  unfold calculateDistance, Math_sqrt.
  replace ((lat1 - lat1) * PI / 180 / 2) with 0 by lra.
  replace ((lng1 - lng1) * PI / 180 / 2) with 0 by lra.
  rewrite sin_0.
  replace (0 * 0 + cos (lat1 * PI / 180) * cos (lat1 * PI / 180) * 0 * 0)
    with 0 by ring.
  rewrite Rminus_0_r, sqrt_0, sqrt_1, Math_atan2_0_1. ring.
Qed.

Lemma calculateDistance_sym (lat1 lng1 lat2 lng2 : R) :
  calculateDistance lat1 lng1 lat2 lng2 = calculateDistance lat2 lng2 lat1 lng1.
Proof.
  unfold calculateDistance.
  rewrite (sin_half_swap lat2 lat1).
  rewrite !Rmult_assoc, (sin_half_swap lng2 lng1), <- !Rmult_assoc.
  rewrite (Rmult_comm (cos (lat1 * PI / 180)) (cos (lat2 * PI / 180))).
  reflexivity.
Qed.

(** C7: [calculateDistance] is the reference haversine formula with the
    mean Earth radius of 6,371,000 m; the distance from a point to itself
    is 0 and the distance is symmetric. *)
Theorem calculateDistance_haversine (a b : LatLng) :
  calculateDistance (lat a) (lng a) (lat b) (lng b) = haversine a b /\
  calculateDistance (lat a) (lng a) (lat a) (lng a) = 0 /\
  calculateDistance (lat a) (lng a) (lat b) (lng b) =
  calculateDistance (lat b) (lng b) (lat a) (lng a).
Proof.
  split; [|split].
  - unfold calculateDistance, haversine, radians, Math_sqrt.
    replace (lat b * PI / 180 - lat a * PI / 180)
      with ((lat b - lat a) * PI / 180) by lra.
    replace (lng b * PI / 180 - lng a * PI / 180)
      with ((lng b - lng a) * PI / 180) by lra.
    set (s1 := sin ((lat b - lat a) * PI / 180 / 2)).
    set (s2 := sin ((lng b - lng a) * PI / 180 / 2)).
    replace (s1 ^ 2 + cos (lat a * PI / 180) * cos (lat b * PI / 180) * s2 ^ 2)
      with (s1 * s1 + cos (lat a * PI / 180) * cos (lat b * PI / 180) * s2 * s2)
      by ring.
    reflexivity.
  - apply calculateDistance_same.
  - apply calculateDistance_sym.
Qed.

(** *** The loop of [expandViewportFromPoints] *)

Lemma extend_grows (box : Viewport) (q : LatLng) :
  north box <= north (extend box q) /\ south (extend box q) <= south box /\
  east box <= east (extend box q) /\ west (extend box q) <= west box.
Proof.
  unfold extend; cbn.
  repeat match goal with |- context [Rlt_dec ?x ?y] => destruct (Rlt_dec x y) end;
    lra.
Qed.

Lemma extend_encloses (box : Viewport) (q : LatLng) :
  encloses (extend box q) q.
Proof.
  unfold encloses, extend; cbn.
  repeat match goal with |- context [Rlt_dec ?x ?y] => destruct (Rlt_dec x y) end;
    lra.
Qed.

Lemma encloses_extend (box : Viewport) (p q : LatLng) :
  encloses box p -> encloses (extend box q) p.
Proof.
  unfold encloses. pose proof (extend_grows box q). lra.
Qed.

Lemma fold_extend_encloses (points : list LatLng) (box : Viewport) (p : LatLng) :
  encloses box p \/ In p points -> encloses (fold_left extend points box) p.
Proof.
  revert box.
  induction points as [|q points IH]; intros box [H|H]; cbn.
  - exact H.
  - destruct H.
  - apply IH. left. now apply encloses_extend.
  - apply IH. destruct H as [-> | H]; [left; apply extend_encloses | now right].
Qed.

Lemma fold_extend_attained (points : list LatLng) (box : Viewport) :
  let out := fold_left extend points box in
  attained lat (north box) points (north out) /\
  attained lat (south box) points (south out) /\
  attained lng (east box) points (east out) /\
  attained lng (west box) points (west out).
Proof.
  revert box.
  induction points as [|q points IH]; intros box; cbn.
  - unfold attained; auto.
  - destruct (IH (extend box q)) as (Hn & Hs & He & Hw).
    assert (step : forall f start start' m,
               start' = start \/ start' = f q ->
               attained f start' points m -> attained f start (q :: points) m).
    { intros f start start' m Hst [-> | (p & Hp & <-)].
      - destruct Hst as [-> | ->]; [now left|].
        right. exists q. split; [now left | reflexivity].
      - right. exists p. split; [now right | reflexivity]. }
    repeat split.
    + apply (step lat _ (north (extend box q))); [|exact Hn].
      cbn. destruct (Rlt_dec _ _); auto.
    + apply (step lat _ (south (extend box q))); [|exact Hs].
      cbn. destruct (Rlt_dec _ _); auto.
    + apply (step lng _ (east (extend box q))); [|exact He].
      cbn. destruct (Rlt_dec _ _); auto.
    + apply (step lng _ (west (extend box q))); [|exact Hw].
      cbn. destruct (Rlt_dec _ _); auto.
Qed.

Lemma attained_first (f : LatLng -> R) (p : LatLng) (ps : list LatLng) (m : R) :
  attained f (f p) (p :: ps) m -> exists q, In q (p :: ps) /\ f q = m.
Proof.
  intros [-> | H]; [|exact H].
  exists p. split; [now left | reflexivity].
Qed.

(** C8: the bounding box of no point is null; the box of a non-empty
    list is the minimum and maximum latitude and longitude, each moved
    outwards by 5% of the span, so it reaches at least as far north as
    the maximum latitude, as far south as the minimum latitude, as far
    east as the maximum longitude and as far west as the minimum
    longitude. *)
Theorem expandViewportFromPoints_bounds :
  expandViewportFromPoints [] = None /\
  forall (p : LatLng) (ps : list LatLng),
  exists box maxLat minLat maxLng minLng,
    expandViewportFromPoints (p :: ps) = Some box /\
    is_max lat (p :: ps) maxLat /\ is_min lat (p :: ps) minLat /\
    is_max lng (p :: ps) maxLng /\ is_min lng (p :: ps) minLng /\
    north box = maxLat + (maxLat - minLat) * 0.05 /\
    south box = minLat - (maxLat - minLat) * 0.05 /\
    east box = maxLng + (maxLng - minLng) * 0.05 /\
    west box = minLng - (maxLng - minLng) * 0.05 /\
    north box >= maxLat /\ south box <= minLat /\
    east box >= maxLng /\ west box <= minLng.
Proof.
  split; [reflexivity|].
  intros p ps.
  set (start := {| north := lat p; south := lat p;
                   east := lng p; west := lng p |}).
  set (out := fold_left extend (p :: ps) start).
  assert (Hin : forall q, In q (p :: ps) -> encloses out q).
  { intros q Hq. apply fold_extend_encloses. now right. }
  destruct (fold_extend_attained (p :: ps) start) as (Hn & Hs & He & Hw).
  fold out in Hn, Hs, He, Hw.
  apply (attained_first lat) in Hn, Hs.
  apply (attained_first lng) in He, Hw.
  destruct (Hin p (or_introl eq_refl)) as [Hlat Hlng].
  exists {| north := north out + (north out - south out) * 0.05;
            south := south out - (north out - south out) * 0.05;
            east := east out + (east out - west out) * 0.05;
            west := west out - (east out - west out) * 0.05 |},
    (north out), (south out), (east out), (west out).
  split; [reflexivity|].
  repeat split; try assumption; cbn [north south east west]; try lra;
    apply List.Forall_forall; intros q Hq; destruct (Hin q Hq); lra.
Qed.

End GeoMath.


(** ** search_places: how the handler runs *)

Section SearchRuns.
Import JS Utils Types Provider Async PlaceFilter SearchPlaces Observations.
Local Open Scope R_scope.

Lemma fetchPlace_run origin radius key language placeId env :
  fetchPlace origin radius key language placeId env =
  (Returned (lookup env origin radius key language placeId),
   [DetailsRequest placeId detailsFields key (nonempty language)]).
Proof.
  unfold fetchPlace, lookup, detailsOf, try_catch, bind, fetch_details, settle, ret.
  destruct (details_api env placeId detailsFields key (nonempty language));
    reflexivity.
Qed.

(** The lookups never throw: [Promise.all] yields one entry per place id
    and one details request per place id. *)
Lemma all_fetchPlace_run origin radius key language placeIds env :
  all (fetchPlace origin radius key language) placeIds env =
  (Returned (map (lookup env origin radius key language) placeIds),
   map (fun placeId =>
          DetailsRequest placeId detailsFields key (nonempty language))
       placeIds).
Proof.
  induction placeIds as [|placeId rest IH]; [reflexivity|].
  cbn [all map]. unfold bind at 1. rewrite fetchPlace_run.
  unfold bind at 1. rewrite IH. unfold ret.
  cbn. now rewrite app_nil_r.
Qed.

(** The handler as a function of the outcome of its steps. *)
Lemma POST_run body env :
  POST body env =
  match nonempty (b_query body) with
  | None => (Returned (badRequest "Missing required parameter: query"), [])
  | Some query =>
      match resolveCenter body env with
      | (Thrown message, sent) => (Returned (serverError message), sent)
      | (Returned (inl response), sent) => (Returned response, sent)
      | (Returned (inr (origin, area)), sent) =>
          match nonempty (GOOGLE_PLACES_API_KEY env) with
          | None =>
              (Returned (serverError "GOOGLE_PLACES_API_KEY not configured"),
               sent)
          | Some key =>
              let placeIds := getAllBusinessPlaceIds (business env) in
              (Returned (json_ok
                 (output query area origin
                    (found env origin (searchRadius (b_radius_m body)) key
                           (b_language body) placeIds))),
               (sent ++
                map (fun placeId =>
                       DetailsRequest placeId detailsFields key
                                      (nonempty (b_language body)))
                    placeIds)%list)
          end
      end
  end.
Proof.
  unfold POST, try_catch.
  destruct (nonempty (b_query body)) as [query|]; [|reflexivity].
  unfold bind at 1.
  destruct (resolveCenter body env) as [[[response|[origin area]]|message] sent];
    cbn [ret]; rewrite ?app_nil_r; try reflexivity.
  unfold bind at 1, getenv at 1.
  destruct (nonempty (GOOGLE_PLACES_API_KEY env)) as [key|];
    cbn [ret app]; rewrite ?app_nil_r; [|reflexivity].
  unfold bind at 1, read_business at 1.
  destruct (getAllBusinessPlaceIds (business env)) as [|placeId rest] eqn:Hids.
  - cbn. now rewrite ?app_nil_r.
  - cbn [length Nat.eqb].
    unfold bind at 1. rewrite all_fetchPlace_run.
    cbn [ret app]. now rewrite ?app_nil_r.
Qed.

(** *** The sort *)

Lemma sort_insert_In {A} (compare : A -> A -> R) (x y : A) (l : list A) :
  In y (sort_insert compare x l) <-> y = x \/ In y l.
Proof.
  induction l as [|z l IH]; cbn.
  - intuition.
  - destruct (Rle_dec (compare x z) 0); cbn; [intuition|].
    rewrite IH. intuition.
Qed.

Lemma Array_sort_In {A} (compare : A -> A -> R) (y : A) (l : list A) :
  In y (Array_sort compare l) <-> In y l.
Proof.
  induction l as [|x l IH]; cbn; [tauto|].
  rewrite sort_insert_In, IH. intuition.
Qed.

Lemma sort_insert_sorted {A} (key : A -> R) (x : A) (l : list A) :
  StronglySorted (fun a b => key a <= key b) l ->
  StronglySorted (fun a b => key a <= key b)
                 (sort_insert (fun a b => key a - key b) x l).
Proof.
  induction 1 as [|z l Hl IH Hz]; cbn.
  - repeat constructor.
  - destruct (Rle_dec (key x - key z) 0) as [Hle|Hgt].
    + constructor; [now constructor|].
      constructor; [lra|].
      eapply List.Forall_impl; [|exact Hz]. cbn. intros b Hb. lra.
    + constructor; [exact IH|].
      apply List.Forall_forall. intros b Hb.
      apply sort_insert_In in Hb. destruct Hb as [-> | Hb]; [lra|].
      rewrite List.Forall_forall in Hz. now apply Hz.
Qed.

Lemma Array_sort_sorted {A} (key : A -> R) (l : list A) :
  StronglySorted (fun a b => key a <= key b)
                 (Array_sort (fun a b => key a - key b) l).
Proof.
  induction l as [|x l IH]; cbn; [constructor|].
  now apply sort_insert_sorted.
Qed.

(** The sort at work: ascending, whatever the order of arrival. *)
Lemma Array_sort_example :
  Array_sort (fun a b => a - b) [3; 1; 2] = [1; 2; 3].
Proof.
  unfold Array_sort; cbn [fold_right sort_insert].
  repeat match goal with
         | |- context [Rle_dec ?x ?y] =>
             destruct (Rle_dec x y); try lra; cbn [sort_insert]
         end.
  reflexivity.
Qed.

(** *** What a kept place looks like *)

Lemma rankPlace_Some origin radius data ranked :
  rankPlace origin radius data = Some ranked ->
  pd_status data = "OK" /\
  (exists position, locationOf data = Some position /\
                    location (r_place ranked) = position) /\
  phone (r_place ranked) = None /\
  r_distance ranked = distanceFrom origin (r_place ranked) /\
  r_distance ranked <= radius.
Proof.
  unfold rankPlace, locationOf, distanceFrom.
  destruct (String.eqb (pd_status data) "OK") eqn:Hst; [|discriminate].
  apply String.eqb_eq in Hst.
  destruct (pd_result data) as [place|]; [|discriminate].
  destruct (pr_geometry place) as [[[position|]]|]; try discriminate.
  destruct (Rle_dec _ _) as [Hle|]; [|discriminate].
  intros [= <-]; cbn.
  repeat split; try assumption.
  exists position. destruct position; split; reflexivity.
Qed.

Lemma lookup_Some env origin radius key language placeId ranked :
  lookup env origin radius key language placeId = Some ranked ->
  exists data,
    detailsOf env key language placeId = fetch_json data /\
    rankPlace origin radius data = Some ranked.
Proof.
  unfold lookup.
  destruct (detailsOf env key language placeId) as [|data]; [discriminate|].
  intros H. now exists data.
Qed.

Lemma lookup_fails_None env origin radius key language placeId :
  lookup_fails (detailsOf env key language placeId) ->
  lookup env origin radius key language placeId = None.
Proof.
  unfold lookup. intros H.
  destruct (lookup env origin radius key language placeId) as [ranked|] eqn:Hl;
    [|unfold lookup in Hl; exact Hl].
  exfalso.
  apply lookup_Some in Hl as (data & Hd & Hr).
  apply rankPlace_Some in Hr as (Hst & (position & Hloc & _) & _).
  rewrite Hd in H. inversion H; subst; congruence.
Qed.

(** The places found are those of the lookups that did not yield null. *)
Lemma found_In env origin radius key language placeIds ranked :
  In ranked (found env origin radius key language placeIds) <->
  exists placeId,
    In placeId placeIds /\
    lookup env origin radius key language placeId = Some ranked.
Proof.
  unfold found. rewrite Array_sort_In.
  rewrite <- list_elem_of_In, list_elem_of_omap.
  split.
  - intros (r & Hr & Heq). cbn in Heq. subst r.
    apply list_elem_of_In, in_map_iff in Hr as (placeId & Hp & Hin).
    now exists placeId.
  - intros (placeId & Hin & Hl).
    exists (Some ranked). split; [|reflexivity].
    apply list_elem_of_In, in_map_iff. now exists placeId.
Qed.

End SearchRuns.

(** ** search_places: the resolution of the centre *)

Section SearchCentre.
Import JS Utils Types Provider Async PlaceFilter SearchPlaces Observations.
Import Samples.
Local Open Scope R_scope.

Lemma truthy_number_0 : truthy_number 0 = false.
Proof. unfold truthy_number. destruct (Req_dec_T 0 0); [reflexivity|contradiction]. Qed.

Lemma truthy_number_nonzero (x : R) : x <> 0 -> truthy_number x = true.
Proof. intros H. unfold truthy_number. destruct (Req_dec_T x 0); [contradiction|reflexivity]. Qed.

Lemma center_test_Some (center : option LatLng) (c : LatLng) :
  center_test center = Some c <-> center = Some c /\ lat c <> 0 /\ lng c <> 0.
Proof.
  unfold center_test, truthy_number. split.
  - destruct center as [c'|]; [|discriminate].
    destruct (Req_dec_T (lat c') 0), (Req_dec_T (lng c') 0); cbn;
      try discriminate.
    intros [= ->]. auto.
  - intros (-> & Hlat & Hlng).
    destruct (Req_dec_T (lat c) 0), (Req_dec_T (lng c) 0); cbn;
      try contradiction.
    reflexivity.
Qed.

(** A centre that passes the test is the origin, as it stands, and nothing
    is geocoded. *)
Lemma resolveCenter_center body env c :
  center_test (b_center body) = Some c ->
  resolveCenter body env = (Returned (inr (c, "")), []).
Proof.
  intros H. unfold resolveCenter. rewrite H. now destruct c.
Qed.

(** The requests of [geocodeWhere] are geocoding requests. *)
Lemma geocodeWhere_sent where_ env :
  Forall (fun q => is_geocode_request q = true) (snd (geocodeWhere where_ env)).
Proof.
  unfold geocodeWhere.
  destruct (nonempty where_) as [address|]; [|constructor].
  unfold bind at 1, getenv at 1.
  destruct (nonempty (GOOGLE_PLACES_API_KEY env)) as [key|]; [|constructor].
  unfold try_catch, bind, fetch_geocode, settle, throw, ret.
  destruct (geocode_api env address key) as [message|data]; cbn.
  - repeat constructor.
  - destruct (String.eqb (gc_status data) "OK"); [|repeat constructor].
    destruct (gc_results data) as [[|first rest]|]; try (repeat constructor).
    destruct (gc_geometry first) as [[[location|]]|]; repeat constructor.
Qed.

(** How the centre can have been resolved. *)
Lemma resolveCenter_inr body env origin area sent :
  resolveCenter body env = (Returned (inr (origin, area)), sent) ->
  (center_test (b_center body) = Some origin /\ area = "" /\ sent = []) \/
  (center_test (b_center body) = None /\
   nonempty (b_where body) = Some area /\
   geocodeWhere (Some area) env = (Returned (Some origin), sent)).
Proof.
  unfold resolveCenter.
  destruct (center_test (b_center body)) as [c|] eqn:Hc.
  - intros [= <- <- <-]. left. destruct c. auto.
  - destruct (nonempty (b_where body)) as [w|]; [|discriminate].
    unfold bind.
    destruct (geocodeWhere (Some w) env) as [[[rc|]|message] sent'] eqn:Hg;
      cbn; try discriminate.
    intros [= <- <- <-]. right. rewrite app_nil_r. auto.
Qed.

Lemma resolveCenter_inl body env response sent :
  resolveCenter body env = (Returned (inl response), sent) ->
  exists message, response = badRequest message.
Proof.
  unfold resolveCenter.
  destruct (center_test (b_center body)) as [c|]; [discriminate|].
  destruct (nonempty (b_where body)) as [w|].
  - unfold bind.
    destruct (geocodeWhere (Some w) env) as [[[rc|]|message] sent'];
      cbn; try discriminate.
    intros [= <- <-]. eauto.
  - intros [= <- <-]. eauto.
Qed.

Lemma resolveCenter_sent body env :
  Forall (fun q => is_geocode_request q = true) (snd (resolveCenter body env)).
Proof.
  unfold resolveCenter.
  destruct (center_test (b_center body)) as [c|]; [constructor|].
  destruct (nonempty (b_where body)) as [w|]; [|constructor].
  pose proof (geocodeWhere_sent (Some w) env) as H.
  unfold bind.
  destruct (geocodeWhere (Some w) env) as [[[rc|]|message] sent']; cbn in *;
    rewrite ?app_nil_r; exact H.
Qed.

(** A successful response is the one built from the resolved centre and
    the places found. *)
Lemma POST_succeeds_inv body env out :
  succeeds (POST body env) out ->
  exists query origin area sent key,
    nonempty (b_query body) = Some query /\
    resolveCenter body env = (Returned (inr (origin, area)), sent) /\
    nonempty (GOOGLE_PLACES_API_KEY env) = Some key /\
    out = output query area origin
            (found env origin (searchRadius (b_radius_m body)) key
                   (b_language body)
                   (getAllBusinessPlaceIds (business env))).
Proof.
  unfold succeeds. rewrite POST_run.
  destruct (nonempty (b_query body)) as [query|]; [|discriminate].
  destruct (resolveCenter body env) as [[[response|[origin area]]|message] sent]
    eqn:Hr; cbn [fst]; try discriminate.
  - apply resolveCenter_inl in Hr as [message ->]. discriminate.
  - destruct (nonempty (GOOGLE_PLACES_API_KEY env)) as [key|]; [|discriminate].
    cbn. intros [= <-].
    exists query, origin, area, sent, key. auto.
Qed.

(** C1: a centre on the equator or on the prime meridian is not used: with
    no [where] the request is rejected with status 400, and with a [where]
    the place name is geocoded instead. *)
Theorem center_zero_not_used :
  (forall env x,
     POST (searchBody None (Some {| lat := 0; lng := x |})) env =
     (Returned (badRequest
        "Either center coordinates or where location string must be provided"),
      [])) /\
  (forall env x,
     POST (searchBody None (Some {| lat := x; lng := 0 |})) env =
     (Returned (badRequest
        "Either center coordinates or where location string must be provided"),
      [])) /\
  (forall rows,
     exists out,
       POST (searchBody (Some "Dublin") (Some {| lat := 0; lng := 10 |}))
            (sampleEnv (Some "test-api-key") rows) =
       (Returned (json_ok out),
        (GeocodeRequest "Dublin" "test-api-key" ::
         map (fun placeId =>
                DetailsRequest placeId detailsFields "test-api-key" None)
             (getAllBusinessPlaceIds rows))) /\
       (search out ≫= fun s => Some (center s)) = Some dublin).
Proof.
  split; [|split].
  - intros env x. rewrite POST_run. cbn.
    unfold resolveCenter, center_test. cbn. now rewrite truthy_number_0.
  - intros env x. rewrite POST_run. cbn.
    unfold resolveCenter, center_test. cbn.
    now rewrite truthy_number_0, andb_false_r.
  - intros rows. eexists. rewrite POST_run. cbn.
    unfold resolveCenter, center_test. cbn. rewrite truthy_number_0. cbn.
    split; reflexivity.
Qed.

End SearchCentre.

(** ** search_places: the response *)

Section SearchResponse.
Import JS Utils Types Provider Async PlaceFilter SearchPlaces Observations.
Import Reference Samples.
Local Open Scope R_scope.

Lemma searchRadius_clamp (radius_m : option R) :
  searchRadius radius_m = clamp 100 50000 (default 40000 radius_m) /\
  100 <= searchRadius radius_m <= 50000.
Proof.
  unfold searchRadius, clamp, Math_max, Math_min.
  set (x := default 40000 radius_m).
  destruct (Rle_dec 50000 x), (Rlt_dec x 100), (Rlt_dec 50000 x);
    repeat match goal with |- context [Rle_dec ?a ?b] => destruct (Rle_dec a b) end;
    split; lra.
Qed.

(** 10 is raised to 100 and 999999 is lowered to 50000. *)
Lemma searchRadius_examples :
  searchRadius (Some 10) = 100 /\ searchRadius (Some 999999) = 50000.
Proof.
  unfold searchRadius, Math_max, Math_min, from_option, Datatypes.id. split.
  - destruct (Rle_dec 50000 10); [lra|].
    destruct (Rle_dec 100 10); [lra|reflexivity].
  - destruct (Rle_dec 50000 999999); [|lra].
    destruct (Rle_dec 100 50000); [reflexivity|lra].
Qed.

Lemma searchRadius_default : searchRadius None = 40000.
Proof.
  unfold searchRadius, Math_max, Math_min; cbn [default].
  destruct (Rle_dec 50000 40000); [lra|].
  destruct (Rle_dec 100 40000); [reflexivity|lra].
Qed.

(** Every place found carries its distance from the origin, which is
    within the radius, and has no phone number. *)
Lemma found_facts env origin radius key language placeIds :
  Forall (fun ranked =>
            r_distance ranked = distanceFrom origin (r_place ranked) /\
            r_distance ranked <= radius /\
            phone (r_place ranked) = None)
         (found env origin radius key language placeIds).
Proof.
  apply List.Forall_forall. intros ranked Hin.
  apply found_In in Hin as (placeId & _ & Hl).
  apply lookup_Some in Hl as (data & _ & Hr).
  apply rankPlace_Some in Hr as (_ & _ & Hphone & Hd & Hle).
  auto.
Qed.

Lemma sorted_places origin (l : list Ranked) :
  Forall (fun ranked => r_distance ranked = distanceFrom origin (r_place ranked)) l ->
  StronglySorted (fun a b => r_distance a <= r_distance b) l ->
  StronglySorted (fun p q => distanceFrom origin p <= distanceFrom origin q)
                 (map r_place l).
Proof.
  intros Hd Hs. induction Hs as [|a l Hs IH Ha]; cbn; [constructor|].
  apply List.Forall_cons_iff in Hd as [Hda Hdl].
  constructor; [now apply IH|].
  apply List.Forall_forall. intros p Hp.
  apply in_map_iff in Hp as (b & <- & Hb).
  rewrite List.Forall_forall in Ha, Hdl.
  rewrite <- Hda, <- (Hdl b Hb). now apply Ha.
Qed.

(** C2: in a successful response the places are in ascending order of
    their haversine distance from the resolved origin, and each lies
    within the clamped radius: [radius_m], 40000 by default, forced into
    the interval from 100 to 50000. *)
Theorem search_sorted_within_radius body env out :
  succeeds (POST body env) out ->
  exists s ps,
    search out = Some s /\ places out = Some ps /\
    StronglySorted
      (fun p q => distanceFrom (center s) p <= distanceFrom (center s) q) ps /\
    Forall (fun p => distanceFrom (center s) p <= searchRadius (b_radius_m body))
           ps /\
    searchRadius (b_radius_m body) =
      clamp 100 50000 (default 40000 (b_radius_m body)) /\
    100 <= searchRadius (b_radius_m body) <= 50000.
Proof.
  intros H.
  apply POST_succeeds_inv in H
    as (query & origin & area & sent & key & _ & _ & _ & ->).
  set (l := found env origin (searchRadius (b_radius_m body)) key
                  (b_language body) (getAllBusinessPlaceIds (business env))).
  pose proof (found_facts env origin (searchRadius (b_radius_m body)) key
                (b_language body) (getAllBusinessPlaceIds (business env)))
    as Hfacts.
  fold l in Hfacts.
  eexists _, (map r_place l). cbn [output search places center].
  split; [reflexivity|]. split; [reflexivity|].
  cbn [center].
  split; [|split].
  - apply sorted_places.
    + eapply List.Forall_impl; [|exact Hfacts]. cbn. tauto.
    + apply Array_sort_sorted.
  - apply List.Forall_forall. intros p Hp.
    apply in_map_iff in Hp as (ranked & <- & Hin).
    rewrite List.Forall_forall in Hfacts.
    destruct (Hfacts ranked Hin) as (Hd & Hle & _). now rewrite <- Hd.
  - apply searchRadius_clamp.
Qed.

(** C10: no place of a successful response has a phone number. *)
Theorem search_places_phone_null body env out :
  succeeds (POST body env) out ->
  exists ps, places out = Some ps /\ Forall (fun p => phone p = None) ps.
Proof.
  intros H.
  apply POST_succeeds_inv in H
    as (query & origin & area & sent & key & _ & _ & _ & ->).
  eexists. split; [reflexivity|].
  apply List.Forall_forall. intros p Hp.
  apply in_map_iff in Hp as (ranked & <- & Hin).
  pose proof (found_facts env origin (searchRadius (b_radius_m body)) key
                (b_language body) (getAllBusinessPlaceIds (business env)))
    as Hfacts.
  rewrite List.Forall_forall in Hfacts.
  now destruct (Hfacts ranked Hin) as (_ & _ & Hphone).
Qed.

(** C5, in the form that holds: in a successful response [resolvedArea]
    is the [where] of the request when no centre was given, and the empty
    string when a centre with non-zero latitude and longitude was given. *)
Theorem resolvedArea_label body env out :
  succeeds (POST body env) out ->
  exists s,
    search out = Some s /\
    (b_center body = None -> b_where body = Some (resolvedArea s)) /\
    (forall c, b_center body = Some c -> lat c <> 0 -> lng c <> 0 ->
               resolvedArea s = "").
Proof.
  intros H.
  apply POST_succeeds_inv in H
    as (query & origin & area & sent & key & _ & Hr & _ & ->).
  eexists. split; [reflexivity|]. cbn [resolvedArea].
  apply resolveCenter_inr in Hr as [(Hc & -> & _)|(Hc & Hw & _)].
  - split; [|reflexivity].
    intros Hnone. rewrite Hnone in Hc. discriminate.
  - split.
    + intros _. unfold nonempty in Hw.
      destruct (b_where body) as [w|]; [|discriminate].
      destruct (truthy_string w); [|discriminate].
      exact Hw.
    + intros c Hsome Hlat Hlng.
      assert (center_test (b_center body) = Some c) as Hc'
        by (apply center_test_Some; auto).
      congruence.
Qed.

(** C3, in the form that holds: when the origin resolves, the provider
    key is configured and the database holds no business, the response
    is successful, with no place and the box of 0.01 degrees around the
    origin, and no place-details request is sent. *)
Theorem search_empty_allow_list body env origin area sent key :
  origin_resolves body env origin area sent ->
  nonempty (GOOGLE_PLACES_API_KEY env) = Some key ->
  getAllBusinessPlaceIds (business env) = [] ->
  exists query,
    nonempty (b_query body) = Some query /\
    POST body env =
    (Returned (json_ok
       {| search := Some
            {| Types.query := query;
               resolvedArea := area;
               center := origin;
               viewport := {| north := lat origin + 0.01;
                              south := lat origin - 0.01;
                              east := lng origin + 0.01;
                              west := lng origin - 0.01 |} |};
          places := Some [];
          directions := None |}),
     sent) /\
    Forall (fun q => is_details_request q = false) (snd (POST body env)).
Proof.
  intros [[query Hq] Hr] Hkey Hids.
  exists query. split; [exact Hq|].
  assert (POST body env =
          (Returned (json_ok (output query area origin [])), sent)) as Hrun.
  { rewrite POST_run, Hq, Hr, Hkey, Hids. cbn. now rewrite app_nil_r. }
  split; [exact Hrun|].
  rewrite Hrun. cbn [snd].
  pose proof (resolveCenter_sent body env) as Hsent.
  rewrite Hr in Hsent. cbn [snd] in Hsent.
  eapply List.Forall_impl; [|exact Hsent].
  intros [] Hg; cbn in *; congruence.
Qed.

End SearchResponse.

(** ** search_places on the sample data *)

Section SearchSamples.
Import JS Utils Types Provider Async PlaceFilter SearchPlaces Observations.
Import Reference Samples.
Local Open Scope R_scope.

Lemma dublin_passes : center_test (Some dublin) = Some dublin.
Proof. apply center_test_Some. cbn. repeat split; lra. Qed.

Lemma dublin_resolves where_ env :
  origin_resolves (searchBody where_ (Some dublin)) env dublin "" [].
Proof.
  split; [now exists "coffee"|].
  apply resolveCenter_center. exact dublin_passes.
Qed.

Lemma rankPlace_coffeeShop :
  rankPlace dublin (searchRadius None)
            {| pd_status := "OK"; pd_result := Some coffeeShop |} =
  Some {| r_place := coffeeShopPlace; r_distance := 0 |}.
Proof.
  unfold rankPlace. cbn [pd_status pd_result String.eqb Ascii.eqb Bool.eqb
                         coffeeShop pr_geometry].
  rewrite calculateDistance_same, searchRadius_default.
  destruct (Rle_dec 0 40000); [reflexivity|lra].
Qed.

(** With the places "A", "B" and "C" in the database, only "A" is found. *)
Lemma sample_found key :
  found (sampleEnv (Some key) [row "A"; row "B"; row "C"]) dublin
        (searchRadius None) key None ["A"; "B"; "C"] =
  [ {| r_place := coffeeShopPlace; r_distance := 0 |} ].
Proof.
  unfold found, lookup, detailsOf.
  cbn [map sampleEnv details_api String.eqb Ascii.eqb Bool.eqb].
  rewrite rankPlace_coffeeShop. reflexivity.
Qed.

Lemma sample_search_succeeds where_ :
  succeeds
    (POST (searchBody where_ (Some dublin))
          (sampleEnv (Some "test-api-key") [row "A"; row "B"; row "C"]))
    (output "coffee" "" dublin
            [ {| r_place := coffeeShopPlace; r_distance := 0 |} ]).
Proof.
  unfold succeeds. rewrite POST_run.
  destruct (dublin_resolves where_
              (sampleEnv (Some "test-api-key") [row "A"; row "B"; row "C"]))
    as [_ Hr].
  rewrite Hr.
  cbn [searchBody b_query b_radius_m b_language nonempty truthy_string
       String.eqb Ascii.eqb Bool.eqb negb sampleEnv GOOGLE_PLACES_API_KEY
       business getAllBusinessPlaceIds map row PlaceFilter.placeId fst].
  now rewrite sample_found.
Qed.

(** C10 on the sample data: the provider has a phone number for the
    coffee shop, the response has none. *)
Lemma search_places_phone_null_sample :
  formatted_phone_number coffeeShop = Some "+353 1 555 0100" /\
  exists ps,
    places (output "coffee" "" dublin
              [ {| r_place := coffeeShopPlace; r_distance := 0 |} ]) = Some ps /\
    Forall (fun p => phone p = None) ps.
Proof.
  split; [reflexivity|].
  exact (search_places_phone_null
           (searchBody None (Some dublin))
           (sampleEnv (Some "test-api-key") [row "A"; row "B"; row "C"])
           _ (sample_search_succeeds None)).
Defined.

(** C5 does not hold when a centre comes with a [where]: the label is
    empty. *)
Lemma resolvedArea_with_center_and_where :
  let body := searchBody (Some "Dublin") (Some dublin) in
  let env := sampleEnv (Some "test-api-key") [row "A"; row "B"; row "C"] in
  exists out s,
    succeeds (POST body env) out /\ search out = Some s /\
    b_where body = Some "Dublin" /\ resolvedArea s = "" /\
    resolvedArea s <> "Dublin".
Proof.
  cbv zeta. eexists _, _.
  split; [apply sample_search_succeeds|].
  split; [reflexivity|]. cbn. repeat split. discriminate.
Qed.

(** C5, in the form that holds, on the sample data. *)
Lemma resolvedArea_label_sample :
  exists s,
    search (output "coffee" "" dublin
              [ {| r_place := coffeeShopPlace; r_distance := 0 |} ]) = Some s /\
    (Some dublin = None -> Some "Dublin" = Some (resolvedArea s)) /\
    (forall c, Some dublin = Some c -> lat c <> 0 -> lng c <> 0 ->
               resolvedArea s = "").
Proof.
  exact (resolvedArea_label
           (searchBody (Some "Dublin") (Some dublin))
           (sampleEnv (Some "test-api-key") [row "A"; row "B"; row "C"])
           _ (sample_search_succeeds (Some "Dublin"))).
Defined.

(** C3 does not hold without the provider key: the origin resolves and
    the database is empty, but the response is an error. *)
Lemma search_empty_without_key :
  let body := searchBody None (Some dublin) in
  let env := sampleEnv None [] in
  origin_resolves body env dublin "" [] /\
  getAllBusinessPlaceIds (business env) = [] /\
  POST body env =
    (Returned (serverError "GOOGLE_PLACES_API_KEY not configured"), []) /\
  ~ exists out, succeeds (POST body env) out.
Proof.
  cbv zeta.
  assert (POST (searchBody None (Some dublin)) (sampleEnv None []) =
          (Returned (serverError "GOOGLE_PLACES_API_KEY not configured"), []))
    as Hrun.
  { rewrite POST_run.
    destruct (dublin_resolves None (sampleEnv None [])) as [_ Hr].
    rewrite Hr. reflexivity. }
  split; [apply dublin_resolves|]. split; [reflexivity|].
  split; [exact Hrun|].
  intros [out H]. unfold succeeds in H. rewrite Hrun in H. discriminate.
Qed.

(** C3, in the form that holds, on the sample data. *)
Lemma search_empty_allow_list_sample :
  exists query,
    nonempty (b_query (searchBody None (Some dublin))) = Some query /\
    POST (searchBody None (Some dublin)) (sampleEnv (Some "test-api-key") []) =
    (Returned (json_ok
       {| search := Some
            {| Types.query := query;
               resolvedArea := "";
               center := dublin;
               viewport := {| north := lat dublin + 0.01;
                              south := lat dublin - 0.01;
                              east := lng dublin + 0.01;
                              west := lng dublin - 0.01 |} |};
          places := Some [];
          directions := None |}),
     []) /\
    Forall (fun q => is_details_request q = false)
           (snd (POST (searchBody None (Some dublin))
                      (sampleEnv (Some "test-api-key") []))).
Proof.
  apply (search_empty_allow_list
           (searchBody None (Some dublin))
           (sampleEnv (Some "test-api-key") []) dublin "" [] "test-api-key").
  - apply dublin_resolves.
  - reflexivity.
  - reflexivity.
Defined.

End SearchSamples.

(** ** get_directions *)

Section Directions.
Import JS Utils Types Provider Async Observations Samples.
Import GetDirections.

Lemma rejected_valid (c : option json) :
  rejected c = false <-> valid_coords c.
Proof.
  unfold rejected, valid_coords. split.
  - intros H.
    destruct c as [[| | | | |fields]|]; cbn in H;
      rewrite ?orb_true_r in H; try discriminate.
    destruct (fields !! "lat") as [[]|] eqn:Hlat; cbn in H; try discriminate.
    destruct (fields !! "lng") as [[]|] eqn:Hlng; cbn in H; try discriminate.
    eexists _, _, _. repeat split; eassumption.
  - intros (fields & latitude & longitude & -> & Hlat & Hlng).
    cbn. now rewrite Hlat, Hlng.
Qed.

Lemma rejected_invalid (c : option json) :
  rejected c = true <-> ~ valid_coords c.
Proof.
  rewrite <- rejected_valid. destruct (rejected c); split; congruence.
Qed.

(** The handler as a function of the outcome of its steps. *)
Lemma directions_run body env :
  POST body env =
  if rejected (to_coords body) then
    (Returned (badRequest
       "Missing or invalid required parameter: to_coords (must be an object with lat and lng numbers)"),
     [])
  else if rejected (from_coords body) then
    (Returned (badRequest
       "Missing or invalid required parameter: from_coords (must be an object with lat and lng numbers)"),
     [])
  else
    match
      match nonempty (GOOGLE_DIRECTIONS_API_KEY env) with
      | Some k => Some k
      | None => nonempty (GOOGLE_PLACES_API_KEY env)
      end
    with
    | None =>
        (Returned (serverError "GOOGLE_DIRECTIONS_API_KEY not configured"), [])
    | Some apiKey =>
        let from_ := coords_of (from_coords body) in
        let to_ := coords_of (to_coords body) in
        let mode := default "driving" (b_mode body) in
        let language := nonempty (b_language body) in
        match directions_api env from_ to_ mode apiKey language with
        | fetch_threw message =>
            (Returned (serverError message),
             [DirectionsRequest from_ to_ mode apiKey language])
        | fetch_json data =>
            (Returned (respond from_ to_ mode data),
             [DirectionsRequest from_ to_ mode apiKey language])
        end
    end.
Proof.
  unfold POST, try_catch.
  destruct (rejected (to_coords body)); [reflexivity|].
  destruct (rejected (from_coords body)); [reflexivity|].
  unfold bind at 1, getenv at 1. unfold bind at 1, getenv at 1.
  destruct (match nonempty (GOOGLE_DIRECTIONS_API_KEY env) with
            | Some k => Some k
            | None => nonempty (GOOGLE_PLACES_API_KEY env)
            end) as [apiKey|]; [|reflexivity].
  unfold bind, fetch_directions, settle, ret. cbv zeta.
  destruct (directions_api env _ _ _ _ _); reflexivity.
Qed.

Lemma respond_provider_error from_ to_ mode data :
  dr_status data <> "OK" \/ lacks_data data ->
  exists message, respond from_ to_ mode data = externalError message.
Proof.
  unfold respond. intros H.
  destruct (String.eqb (dr_status data) "OK") eqn:Hst; cbn [negb]; [|eauto].
  apply String.eqb_eq in Hst.
  destruct H as [H|H]; [contradiction|].
  destruct H as [Hroute|route Hroute Hleg|route Hroute Hline];
    rewrite Hroute; [eauto| |].
  - rewrite Hleg. eauto.
  - destruct (first (legs route)); [|eauto].
    rewrite Hline. eauto.
Qed.

Lemma respond_not_rejected from_ to_ mode data message :
  respond from_ to_ mode data <> badRequest message.
Proof.
  unfold respond.
  destruct (negb (String.eqb (dr_status data) "OK")); [discriminate|].
  destruct (first (routes data)) as [route|]; [|discriminate].
  destruct (first (legs route)) as [leg|]; [|discriminate].
  destruct (nonempty (overview_polyline route ≫= points)); discriminate.
Qed.

End Directions.

(** ** get_directions on the sample data *)

Section DirectionsSamples.
Import JS Utils Types Provider Async Observations Samples.
Import GetDirections.

Lemma coords_valid (latitude longitude : R) :
  valid_coords (Some (coords latitude longitude)).
Proof.
  exists {[ "lat" := JNumber latitude; "lng" := JNumber longitude ]},
    latitude, longitude.
  split; [reflexivity|]. split.
  - apply lookup_insert_eq.
  - rewrite lookup_insert_ne by discriminate. apply lookup_insert_eq.
Qed.

End DirectionsSamples.

(** ** The polyline decoder against the reference encoder *)

Section PolylineRoundTrip.
Import Types Reference Polyline.
Local Open Scope Z_scope.

Lemma ToInt32_small z : - 2 ^ 31 <= z < 2 ^ 31 -> ToInt32 z = z.
Proof.
  intros H. unfold ToInt32.
  rewrite Z.mod_small by lia. lia.
Qed.

Lemma charCode_fromCharCode code :
  0 <= code < 256 -> charCode (fromCharCode code) = code.
Proof.
  intros H. unfold charCode, fromCharCode.
  rewrite nat_ascii_embedding by lia. lia.
Qed.

Lemma testbit_small a n i : 0 <= a < 2 ^ n -> n <= i -> Z.testbit a i = false.
Proof.
  intros Ha Hi.
  destruct (Z.eq_dec a 0) as [->|Hnz]; [apply Z.bits_0|].
  apply Z.bits_above_log2; [lia|].
  assert (Z.log2 a < n) by (apply Z.log2_lt_pow2; lia). lia.
Qed.

Lemma land_shifted a b n :
  0 <= n -> 0 <= a < 2 ^ n -> Z.land a (Z.shiftl b n) = 0.
Proof.
  intros Hn Ha. apply Z.bits_inj'. intros i Hi.
  rewrite Z.land_spec, Z.bits_0.
  destruct (Z.lt_ge_cases i n) as [Hlt|Hge].
  - rewrite Z.shiftl_spec_low by lia. apply andb_false_r.
  - now rewrite (testbit_small a n i).
Qed.

Lemma lor_shifted a b n :
  0 <= n -> 0 <= a < 2 ^ n -> Z.lor a (b * 2 ^ n) = a + b * 2 ^ n.
Proof.
  intros Hn Ha.
  rewrite <- Z.shiftl_mul_pow2 by lia.
  rewrite <- Z.lxor_lor by now apply land_shifted.
  symmetry. apply Z.add_nocarry_lxor. now apply land_shifted.
Qed.

(** One chunk of the decoder, when nothing overflows. *)
Lemma chunk_step acc b shift :
  0 <= shift < 31 -> 0 <= acc < 2 ^ shift -> 0 <= b < 64 ->
  acc + (b mod 32) * 2 ^ shift < 2 ^ 31 ->
  bor acc (shl (band b 31) shift) = acc + (b mod 32) * 2 ^ shift.
Proof.
  intros Hs Ha Hb Hlt.
  assert (0 < 2 ^ shift) by (apply Z.pow_pos_nonneg; lia).
  assert (0 <= b mod 32 < 32) by (apply Z.mod_pos_bound; lia).
  unfold bor, shl, band.
  rewrite (ToInt32_small b) by lia.
  rewrite (ToInt32_small 31) by lia.
  change 31 with (Z.ones 5) at 1. rewrite Z.land_ones by lia.
  change (2 ^ 5) with 32.
  rewrite !(ToInt32_small (b mod 32)) by lia.
  rewrite (Z.mod_small shift) by lia.
  rewrite Z.shiftl_mul_pow2 by lia.
  rewrite (ToInt32_small acc) by lia.
  rewrite !(ToInt32_small (b mod 32 * 2 ^ shift)) by nia.
  rewrite lor_shifted by lia.
  apply ToInt32_small. nia.
Qed.

Lemma lor_32 chunk : 0 <= chunk < 32 -> Z.lor 32 chunk = 32 + chunk.
Proof.
  intros H. rewrite Z.lor_comm.
  change 32 with (1 * 2 ^ 5). rewrite lor_shifted; lia.
Qed.

Lemma append_cons (ch : ascii) (s rest : string) :
  (String ch s ++ rest)%string = String ch (s ++ rest)%string.
Proof. reflexivity. Qed.

Lemma read_encode_unsigned num rest shift acc :
  0 <= num -> 0 <= shift < 31 -> 0 <= acc < 2 ^ shift ->
  acc + num * 2 ^ shift < 2 ^ 31 ->
  read_value (encode_unsigned num ++ rest) shift acc =
  (acc + num * 2 ^ shift, rest).
Proof.
  revert rest shift acc.
  funelim (encode_unsigned num); intros rest shift acc Hn Hs Ha Hlt;
    rewrite append_cons; cbn [read_value].
  - assert (0 < 2 ^ shift) as Hpos by (apply Z.pow_pos_nonneg; lia).
    assert (0 <= num mod 32 < 32) as Hchunk by (apply Z.mod_pos_bound; lia).
    assert (shift + 5 < 31) as Hs'.
    { apply (Z.pow_lt_mono_r_iff 2); [lia|lia|].
      rewrite Z.pow_add_r by lia. change (2 ^ 5) with 32. nia. }
    assert (charCode (fromCharCode (Z.lor 32 (Z.land num 31) + 63)) - 63 =
            32 + num mod 32) as Hcode.
    { change 31 with (Z.ones 5). rewrite Z.land_ones by lia.
      change (2 ^ 5) with 32.
      rewrite lor_32 by lia.
      rewrite charCode_fromCharCode by lia. lia. }
    rewrite !Hcode.
    assert ((32 + num mod 32) mod 32 = num mod 32) as Hmod.
    { replace (32 + num mod 32) with (num mod 32 + 1 * 32) by lia.
      rewrite Z.mod_add by lia. apply Z.mod_mod. lia. }
    pose proof (Z.div_mod num 32 ltac:(lia)) as Hdm.
    assert (0 <= num / 32) as Hq by (apply Z.div_pos; lia).
    assert (num mod 32 * 2 ^ shift <= num * 2 ^ shift) as Hle32.
    { apply Z.mul_le_mono_nonneg_r; [lia|]. apply Z.mod_le; lia. }
    rewrite chunk_step; rewrite ?Hmod; try lia.
    destruct (32 <=? 32 + num mod 32) eqn:Hle; [|lia].
    rewrite Z.shiftr_div_pow2 in * by lia. change (2 ^ 5) with 32 in *.
    assert (num mod 32 * 2 ^ shift + num / 32 * 2 ^ (shift + 5) =
            num * 2 ^ shift) as Hsum.
    { rewrite Z.pow_add_r by lia. change (2 ^ 5) with 32.
      rewrite Hdm at 3. ring. }
    rewrite H; try lia.
    + f_equal. lia.
    + rewrite Z.pow_add_r by lia. change (2 ^ 5) with 32. nia.
  - rewrite charCode_fromCharCode by lia.
    replace (num + 63 - 63) with num by lia.
    assert (num < 32) as Hlt32 by lia.
    assert (num mod 32 = num) as Hsmall by (apply Z.mod_small; lia).
    rewrite chunk_step by (rewrite ?Hsmall; lia).
    rewrite Hsmall.
    destruct (32 <=? num) eqn:Hle; [lia|reflexivity].
Qed.

Lemma band_1 r : - 2 ^ 31 <= r < 2 ^ 31 -> band r 1 = r mod 2.
Proof.
  intros H. unfold band.
  rewrite (ToInt32_small r), (ToInt32_small 1) by lia.
  change 1 with (Z.ones 1). rewrite Z.land_ones by lia.
  change (2 ^ Z.ones 1) with 2.
  apply ToInt32_small.
  pose proof (Z.mod_pos_bound r 2). lia.
Qed.

Lemma sar_1 r : - 2 ^ 31 <= r < 2 ^ 31 -> sar r 1 = r / 2.
Proof.
  intros H. unfold sar. rewrite (ToInt32_small r) by lia.
  change (1 mod 32) with 1. now rewrite Z.shiftr_div_pow2 by lia.
Qed.

Lemma bnot_small x : - 2 ^ 31 <= x < 2 ^ 31 -> bnot x = - x - 1.
Proof.
  intros H. unfold bnot, Z.lnot. rewrite (ToInt32_small x) by lia.
  apply ToInt32_small. lia.
Qed.

Lemma delta_zigzag value :
  - 2 ^ 30 <= value < 2 ^ 30 ->
  let z := if value <? 0 then Z.lnot (Z.shiftl value 1) else Z.shiftl value 1 in
  0 <= z < 2 ^ 31 /\ delta z = value.
Proof.
  intros H. cbv zeta.
  rewrite Z.shiftl_mul_pow2 by lia. change (2 ^ 1) with 2.
  unfold delta.
  destruct (value <? 0) eqn:Hneg.
  - unfold Z.lnot.
    replace (Z.pred (- (value * 2))) with (1 + (- value - 1) * 2) by lia.
    rewrite band_1, sar_1 by lia.
    rewrite Z.mod_add, Z.div_add by lia.
    change (1 mod 2) with 1. change (1 / 2) with 0.
    cbn [Z.eqb]. rewrite bnot_small by lia. lia.
  - rewrite band_1, sar_1 by lia.
    rewrite Z.mod_mul, Z.div_mul by lia.
    cbn [Z.eqb]. lia.
Qed.

Lemma read_encode_signed value rest :
  - 2 ^ 30 <= value < 2 ^ 30 ->
  exists z, read_value (encode_signed value ++ rest) 0 0 = (z, rest) /\
            delta z = value.
Proof.
  intros H. destruct (delta_zigzag value H) as [Hz Hd].
  eexists. split; [|exact Hd].
  unfold encode_signed.
  rewrite read_encode_unsigned by lia.
  f_equal. lia.
Qed.

Lemma encode_unsigned_nonempty num :
  exists ch s, encode_unsigned num = String ch s.
Proof. funelim (encode_unsigned num); eauto. Qed.

Lemma decode_encode_from path lat0 lng0 :
  valid_point (lat0, lng0) -> Forall valid_point path ->
  decode_from (encode_from path lat0 lng0) lat0 lng0 = map degrees path.
Proof.
  revert lat0 lng0.
  induction path as [|[lat1 lng1] path IH]; intros lat0 lng0 H0 Hpath.
  - cbn. now simp decode_from.
  - apply List.Forall_cons_iff in Hpath as [H1 Hpath].
    unfold valid_point in H0, H1. cbn [fst snd] in H0, H1.
    cbn [encode_from map].
    destruct (read_encode_signed (lat1 - lat0)
                (encode_signed (lng1 - lng0) ++ encode_from path lat1 lng1))
      as (z1 & Hr1 & Hd1); [lia|].
    destruct (read_encode_signed (lng1 - lng0) (encode_from path lat1 lng1))
      as (z2 & Hr2 & Hd2); [lia|].
    destruct (encode_unsigned_nonempty
                (if lat1 - lat0 <? 0 then Z.lnot (Z.shiftl (lat1 - lat0) 1)
                 else Z.shiftl (lat1 - lat0) 1)) as (ch & s & Hs).
    unfold encode_signed in Hr1 at 1. unfold encode_signed at 1.
    rewrite Hs in *. rewrite append_cons in *.
    rewrite decode_from_equation_2. cbv zeta.
    rewrite Hr1. cbn [fst snd]. rewrite Hr2. cbn [fst snd].
    rewrite Hd1, Hd2.
    replace (lat0 + (lat1 - lat0)) with lat1 by lia.
    replace (lng0 + (lng1 - lng0)) with lng1 by lia.
    rewrite IH; [reflexivity| |exact Hpath].
    unfold valid_point; cbn [fst snd]; lia.
Qed.

Lemma near_refl (p : LatLng) : near p p.
Proof.
  unfold near. rewrite !Rminus_diag, Rabs_R0. split; lra.
Qed.

(** C9: for a path of coordinates that are multiples of 1e-5 degrees, the
    decoder applied to the encoding of the path yields the points of the
    path, each within 1e-5 degrees. *)
Theorem decodePolyline_roundtrip (path : list (Z * Z)) :
  Forall valid_point path ->
  Forall2 near (decodePolyline (encodePolyline path)) (map degrees path).
Proof.
  intros Hpath. unfold decodePolyline, encodePolyline.
  rewrite decode_encode_from; [| |exact Hpath].
  - induction (map degrees path); constructor; [apply near_refl|assumption].
  - unfold valid_point; cbn [fst snd]; lia.
Qed.

(** C9 on the sample path: the string of the decoder's test is the encoding of
    [samplePath]. *)
Lemma decodePolyline_roundtrip_sample :
  Forall2 near (decodePolyline "_p~iF~ps|U_ulLnnqC_mqNvxq`@")
               (map degrees samplePath).
Proof.
  replace "_p~iF~ps|U_ulLnnqC_mqNvxq`@" with (encodePolyline samplePath)
    by (vm_compute; reflexivity).
  apply decodePolyline_roundtrip.
  repeat constructor; cbn; lia.
Defined.

End PolylineRoundTrip.

(** ** search_places: every outcome *)

Section SearchOutcomes.
Import JS Utils Types Provider Async PlaceFilter SearchPlaces Observations.
Import Reference Outcomes.
Local Open Scope R_scope.

Lemma nonempty_Some (s : option string) (v : string) :
  nonempty s = Some v -> s = Some v /\ truthy_string v = true.
Proof.
  unfold nonempty. destruct s as [w|]; [|discriminate].
  destruct (truthy_string w) eqn:Hw; [|discriminate].
  intros [= ->]. auto.
Qed.

Lemma nonempty_idem (s : option string) (v : string) :
  nonempty s = Some v -> nonempty (Some v) = Some v.
Proof.
  intros H. apply nonempty_Some in H as [_ H]. unfold nonempty. now rewrite H.
Qed.

(** [geocodeWhere] on a place name, as a function of the key and of the
    provider's answer. *)
Lemma geocodeWhere_run (address : string) env :
  truthy_string address = true ->
  geocodeWhere (Some address) env =
  match nonempty (GOOGLE_PLACES_API_KEY env) with
  | None => (Thrown "GOOGLE_PLACES_API_KEY not configured", [])
  | Some key =>
      (Returned (firstLocation (geocode_api env address key)),
       [GeocodeRequest address key])
  end.
Proof.
  intros Hw. unfold geocodeWhere, nonempty at 1. rewrite Hw.
  unfold bind at 1, getenv at 1.
  destruct (nonempty (GOOGLE_PLACES_API_KEY env)) as [key|]; [|reflexivity].
  unfold try_catch, bind, fetch_geocode, settle, throw, ret, firstLocation.
  destruct (geocode_api env address key) as [message|data]; [reflexivity|].
  destruct (String.eqb (gc_status data) "OK"); [|reflexivity].
  destruct (gc_results data) as [[|first rest]|]; try reflexivity.
  destruct (gc_geometry first) as [[[[latitude longitude]|]]|]; reflexivity.
Qed.

(** The resolution of the centre, as a function of the body, the key and
    the provider's answer. *)
Lemma resolveCenter_run body env :
  resolveCenter body env =
  match center_test (b_center body) with
  | Some c => (Returned (inr (c, "")), [])
  | None =>
      match nonempty (b_where body) with
      | None =>
          (Returned (inl (badRequest
             "Either center coordinates or where location string must be provided")),
           [])
      | Some w =>
          match nonempty (GOOGLE_PLACES_API_KEY env) with
          | None => (Thrown "GOOGLE_PLACES_API_KEY not configured", [])
          | Some key =>
              match firstLocation (geocode_api env w key) with
              | Some location =>
                  (Returned (inr (location, w)), [GeocodeRequest w key])
              | None =>
                  (Returned (inl (badRequest
                     "Could not resolve a search area from the provided location")),
                   [GeocodeRequest w key])
              end
          end
      end
  end.
Proof.
  unfold resolveCenter.
  destruct (center_test (b_center body)) as [[latitude longitude]|];
    [reflexivity|].
  destruct (nonempty (b_where body)) as [w|] eqn:Hw; [|reflexivity].
  apply nonempty_Some in Hw as [_ Hw].
  unfold bind. rewrite (geocodeWhere_run w env Hw).
  destruct (nonempty (GOOGLE_PLACES_API_KEY env)) as [key|]; [|reflexivity].
  destruct (firstLocation (geocode_api env w key)); reflexivity.
Qed.

(** X1: the handler always answers, with 200, 400 or 500; 502 is never used. *)
Theorem search_places_statuses body env :
  answers 200 (POST body env) \/ answers 400 (POST body env) \/
  answers 500 (POST body env).
Proof.
  unfold answers. rewrite POST_run, resolveCenter_run.
  destruct (nonempty (b_query body)); [|right; left; eexists; split; reflexivity].
  destruct (center_test (b_center body)).
  - destruct (nonempty (GOOGLE_PLACES_API_KEY env)).
    + left. eexists; split; reflexivity.
    + right; right. eexists; split; reflexivity.
  - destruct (nonempty (b_where body)) as [w|];
      [|right; left; eexists; split; reflexivity].
    destruct (nonempty (GOOGLE_PLACES_API_KEY env)) as [key|];
      [|right; right; eexists; split; reflexivity].
    destruct (firstLocation (geocode_api env w key)).
    + left. eexists; split; reflexivity.
    + right; left. eexists; split; reflexivity.
Qed.

End SearchOutcomes.

(** ** search_places: origin, requests, viewport and ranking *)

Section SearchDetails.
Import JS Utils Types Provider Async PlaceFilter SearchPlaces Observations.
Import Reference Outcomes Samples.
Local Open Scope R_scope.

(** X4: a centre with non-zero latitude and longitude is the origin of the
    search as it stands: whatever [where] says, nothing is geocoded, and a
    successful response carries that centre. *)
Theorem search_places_center_verbatim body env (c : LatLng) :
  b_center body = Some c -> lat c <> 0 -> lng c <> 0 ->
  Forall (fun q => is_geocode_request q = false) (snd (POST body env)) /\
  (forall out, succeeds (POST body env) out ->
     exists s, search out = Some s /\ center s = c /\ resolvedArea s = "").
Proof.
  intros Hc Hlat Hlng.
  assert (center_test (b_center body) = Some c) as Htest
    by (apply center_test_Some; auto).
  unfold succeeds. rewrite POST_run, resolveCenter_run, Htest.
  destruct (nonempty (b_query body)) as [query|].
  2:{ split; [constructor|discriminate]. }
  destruct (nonempty (GOOGLE_PLACES_API_KEY env)) as [key|].
  2:{ split; [constructor|discriminate]. }
  cbn [fst snd app]. split.
  - apply List.Forall_forall. intros q Hq.
    apply in_map_iff in Hq as (placeId & <- & _). reflexivity.
  - intros out [= <-]. eexists. split; [reflexivity|]. split; reflexivity.
Qed.

(** X5: when no centre passes the test, a successful search has geocoded
    [where] with the configured key, once and before any lookup; its
    origin is the location of the first result and its label is [where]. *)
Theorem search_places_geocoded body env out :
  center_test (b_center body) = None ->
  succeeds (POST body env) out ->
  exists w key location s rest,
    nonempty (b_where body) = Some w /\
    nonempty (GOOGLE_PLACES_API_KEY env) = Some key /\
    firstLocation (geocode_api env w key) = Some location /\
    search out = Some s /\ center s = location /\ resolvedArea s = w /\
    snd (POST body env) = GeocodeRequest w key :: rest /\
    Forall (fun q => is_geocode_request q = false) rest.
Proof.
  intros Htest. unfold succeeds.
  rewrite POST_run, resolveCenter_run, Htest.
  destruct (nonempty (b_query body)) as [query|]; [|discriminate].
  destruct (nonempty (b_where body)) as [w|]; [|discriminate].
  destruct (nonempty (GOOGLE_PLACES_API_KEY env)) as [key|]; [|discriminate].
  destruct (firstLocation (geocode_api env w key)) as [location|] eqn:Hloc;
    [|discriminate].
  cbn [fst snd app]. intros [= <-].
  eexists w, key, location, _, _.
  repeat split; try reflexivity; try assumption.
  apply List.Forall_forall. intros q Hq.
  apply in_map_iff in Hq as (placeId & <- & _). reflexivity.
Qed.

(** X6: in a successful search every place id of the database is looked up
    exactly once, in the order of the database, with the fixed field list,
    the configured key and the language of the request when it is not
    empty. *)
Theorem search_places_lookups body env out :
  succeeds (POST body env) out ->
  exists key,
    nonempty (GOOGLE_PLACES_API_KEY env) = Some key /\
    List.filter is_details_request (snd (POST body env)) =
    map (fun placeId =>
           DetailsRequest placeId
             "place_id,name,formatted_address,geometry,rating,user_ratings_total"
             key (nonempty (b_language body)))
        (getAllBusinessPlaceIds (business env)).
Proof.
  unfold succeeds. rewrite POST_run.
  destruct (nonempty (b_query body)) as [query|]; [|discriminate].
  pose proof (resolveCenter_sent body env) as Hsent.
  destruct (resolveCenter body env) as [[[response|[origin area]]|message] sent]
    eqn:Hr; cbn [fst snd] in *; try discriminate.
  { apply resolveCenter_inl in Hr as [message ->]. discriminate. }
  destruct (nonempty (GOOGLE_PLACES_API_KEY env)) as [key|]; [|discriminate].
  cbn [fst snd]. intros _. exists key. split; [reflexivity|].
  rewrite List.filter_app.
  assert (List.filter is_details_request sent = []) as ->.
  { clear Hr. induction Hsent as [|q sent Hq _ IH]; [reflexivity|].
    cbn. destruct q; cbn in *; try discriminate. exact IH. }
  cbn [app].
  induction (getAllBusinessPlaceIds (business env)) as [|placeId rest IH];
    [reflexivity|].
  cbn. now rewrite IH.
Qed.

(** *** The viewport *)

Lemma expandViewportFromPoints_encloses points box :
  expandViewportFromPoints points = Some box ->
  well_formed box /\ Forall (encloses box) points.
Proof.
  destruct points as [|p ps]; [discriminate|].
  cbn [expandViewportFromPoints].
  set (start := {| north := lat p; south := lat p;
                   east := lng p; west := lng p |}).
  set (out := fold_left extend (p :: ps) start).
  intros [= <-].
  assert (Hin : forall q, In q (p :: ps) -> encloses out q).
  { intros q Hq. apply fold_extend_encloses. now right. }
  destruct (Hin p (or_introl eq_refl)) as [Hlat Hlng].
  split.
  - unfold well_formed; cbn [north south east west]. lra.
  - apply List.Forall_forall. intros q Hq.
    destruct (Hin q Hq). unfold encloses; cbn [north south east west]. lra.
Qed.

(** X7: the viewport of a successful response is never inside out and holds
    every place of the response; with no place it is the box of 0.01
    degrees around the origin. *)
Theorem search_places_viewport body env out :
  succeeds (POST body env) out ->
  exists s ps,
    search out = Some s /\ places out = Some ps /\
    well_formed (viewport s) /\
    Forall (fun p => encloses (viewport s) (location p)) ps /\
    (ps = [] -> viewport s = defaultViewport (center s)).
Proof.
  intros H.
  apply POST_succeeds_inv in H
    as (query & origin & area & sent & key & _ & _ & _ & ->).
  set (l := found env origin (searchRadius (b_radius_m body)) key
                  (b_language body) (getAllBusinessPlaceIds (business env))).
  eexists _, (map r_place l). cbn [output search places viewport center].
  split; [reflexivity|]. split; [reflexivity|].
  destruct (expandViewportFromPoints (map location (map r_place l)))
    as [box|] eqn:Hbox; cbn [from_option].
  - pose proof Hbox as Hsome.
    apply expandViewportFromPoints_encloses in Hbox as [Hwf Hall].
    split; [exact Hwf|]. split.
    + apply List.Forall_forall. intros p Hp.
      rewrite List.Forall_forall in Hall. apply Hall.
      now apply in_map.
    + intros Hnil. rewrite Hnil in Hsome. discriminate.
  - destruct l as [|r l']; [|discriminate].
    split; [|split; [constructor|reflexivity]].
    unfold well_formed, defaultViewport; cbn. lra.
Qed.


(** *** The radius and the ranking *)

Lemma searchRadius_monotone (x y : R) :
  x <= y -> searchRadius (Some x) <= searchRadius (Some y).
Proof.
  intros H. unfold searchRadius, Math_max, Math_min, from_option, Datatypes.id.
  destruct (Rle_dec 50000 x), (Rle_dec 50000 y);
  repeat match goal with
         | |- context [Rle_dec ?a ?b] => destruct (Rle_dec a b)
         end; lra.
Qed.

Lemma rankPlace_monotone origin r1 r2 data ranked :
  r1 <= r2 ->
  rankPlace origin r1 data = Some ranked ->
  rankPlace origin r2 data = Some ranked.
Proof.
  intros Hle. unfold rankPlace.
  destruct (String.eqb (pd_status data) "OK"); [|discriminate].
  destruct (pd_result data) as [place|]; [|discriminate].
  destruct (pr_geometry place) as [[[position|]]|]; try discriminate.
  destruct (Rle_dec _ r1) as [H1|]; [|discriminate].
  destruct (Rle_dec _ r2) as [H2|H2]; [trivial|lra].
Qed.

Lemma resolveCenter_with_radius body radius_m env :
  resolveCenter (with_radius body radius_m) env = resolveCenter body env.
Proof. reflexivity. Qed.

(** X8: a larger [radius_m] never loses a place: when the search succeeds for
    two radii, every place returned for the smaller one is returned for
    the larger one. *)
Theorem search_places_radius_monotone body env (r1 r2 : R) out1 out2 :
  r1 <= r2 ->
  succeeds (POST (with_radius body (Some r1)) env) out1 ->
  succeeds (POST (with_radius body (Some r2)) env) out2 ->
  exists ps1 ps2,
    places out1 = Some ps1 /\ places out2 = Some ps2 /\
    forall p, In p ps1 -> In p ps2.
Proof.
  intros Hle H1 H2.
  apply POST_succeeds_inv in H1
    as (query1 & origin1 & area1 & sent1 & key1 & _ & Hr1 & Hk1 & ->).
  apply POST_succeeds_inv in H2
    as (query2 & origin2 & area2 & sent2 & key2 & _ & Hr2 & Hk2 & ->).
  rewrite resolveCenter_with_radius in Hr1, Hr2.
  rewrite Hr1 in Hr2. injection Hr2 as <- <- <-.
  rewrite Hk1 in Hk2. injection Hk2 as <-.
  eexists _, _. split; [reflexivity|]. split; [reflexivity|].
  intros p Hp.
  apply in_map_iff in Hp as (ranked & <- & Hin).
  apply in_map. cbn [with_radius b_radius_m b_language business] in *.
  apply found_In in Hin as (placeId & Hid & Hl).
  apply found_In. exists placeId. split; [exact Hid|].
  apply lookup_Some in Hl as (data & Hd & Hrank).
  unfold lookup. rewrite Hd.
  eapply rankPlace_monotone; [|exact Hrank].
  now apply searchRadius_monotone.
Qed.

Lemma sort_insert_Permutation {A} (compare : A -> A -> R) (x : A) (l : list A) :
  Permutation (sort_insert compare x l) (x :: l).
Proof.
  induction l as [|y l IH]; cbn; [reflexivity|].
  destruct (Rle_dec (compare x y) 0); [reflexivity|].
  rewrite IH. apply perm_swap.
Qed.

Lemma Array_sort_Permutation {A} (compare : A -> A -> R) (l : list A) :
  Permutation (Array_sort compare l) l.
Proof.
  induction l as [|x l IH]; cbn; [reflexivity|].
  rewrite sort_insert_Permutation. now constructor.
Qed.

Lemma omap_length_le {A B} (f : A -> option B) (l : list A) :
  (length (omap f l) <= length l)%nat.
Proof.
  induction l as [|x l IH]; cbn; [lia|].
  destruct (f x); cbn; lia.
Qed.

(** X9: ranking neither drops nor repeats a place: the places of a successful
    response are a rearrangement of the lookups that were kept, so there
    are at most as many as businesses in the database. *)
Theorem search_places_ranking body env out :
  succeeds (POST body env) out ->
  exists s key ps,
    search out = Some s /\ places out = Some ps /\
    nonempty (GOOGLE_PLACES_API_KEY env) = Some key /\
    Permutation ps
      (map r_place
         (kept env (center s) (searchRadius (b_radius_m body)) key
               (b_language body) (getAllBusinessPlaceIds (business env)))) /\
    (length ps <= length (business env))%nat.
Proof.
  intros H.
  apply POST_succeeds_inv in H
    as (query & origin & area & sent & key & _ & _ & Hkey & ->).
  eexists _, key, _. cbn [output search places center].
  split; [reflexivity|]. split; [reflexivity|]. split; [exact Hkey|].
  assert (Permutation
            (found env origin (searchRadius (b_radius_m body)) key
                   (b_language body) (getAllBusinessPlaceIds (business env)))
            (kept env origin (searchRadius (b_radius_m body)) key
                  (b_language body) (getAllBusinessPlaceIds (business env))))
    as Hperm by apply Array_sort_Permutation.
  split.
  - now apply Permutation_map.
  - rewrite length_map, (Permutation_length Hperm).
    unfold kept, getAllBusinessPlaceIds.
    etransitivity; [apply omap_length_le|]. now rewrite !length_map.
Qed.

End SearchDetails.

(** ** search_places: further runs on the sample data *)

Section SearchMoreSamples.
Import JS Utils Types Provider Async PlaceFilter SearchPlaces Observations.
Import Reference Outcomes Samples.
Local Open Scope R_scope.

Lemma sample_geocoded_succeeds :
  succeeds
    (POST (searchBody (Some "Dublin") None)
          (sampleEnv (Some "test-api-key") [row "A"; row "B"; row "C"]))
    (output "coffee" "Dublin" dublin
            [ {| r_place := coffeeShopPlace; r_distance := 0 |} ]).
Proof.
  unfold succeeds. rewrite POST_run, resolveCenter_run.
  cbn [searchBody b_query b_where b_center b_radius_m b_language nonempty
       truthy_string String.eqb Ascii.eqb Bool.eqb negb center_test sampleEnv
       GOOGLE_PLACES_API_KEY geocode_api firstLocation gc_status gc_results
       gc_geometry g_location business getAllBusinessPlaceIds map row
       PlaceFilter.placeId fst].
  now rewrite sample_found.
Qed.

Lemma sample_radius_succeeds (radius_m : option R) :
  succeeds
    (POST (with_radius (searchBody None (Some dublin)) radius_m)
          (sampleEnv (Some "test-api-key") [row "A"]))
    (output "coffee" "" dublin
            [ {| r_place := coffeeShopPlace; r_distance := 0 |} ]).
Proof.
  unfold succeeds. rewrite POST_run, resolveCenter_run.
  cbn [with_radius searchBody b_query b_where b_center b_radius_m b_language
       nonempty truthy_string String.eqb Ascii.eqb Bool.eqb negb].
  rewrite dublin_passes.
  cbn [sampleEnv GOOGLE_PLACES_API_KEY nonempty truthy_string String.eqb
       Ascii.eqb Bool.eqb negb business getAllBusinessPlaceIds map row
       PlaceFilter.placeId fst].
  unfold found, lookup, detailsOf.
  cbn [map sampleEnv details_api String.eqb Ascii.eqb Bool.eqb].
  unfold rankPlace.
  cbn [pd_status pd_result String.eqb Ascii.eqb Bool.eqb coffeeShop pr_geometry].
  rewrite calculateDistance_same.
  destruct (searchRadius_clamp radius_m) as [_ Hbounds].
  destruct (Rle_dec 0 (searchRadius radius_m)); [reflexivity|lra].
Qed.

(** The centre of the sample search is used as it stands, with or without
    a [where]. *)
Lemma search_places_center_verbatim_sample :
  Forall (fun q => is_geocode_request q = false)
    (snd (POST (searchBody (Some "Dublin") (Some dublin))
               (sampleEnv (Some "test-api-key") [row "A"; row "B"; row "C"]))) /\
  (forall out,
     succeeds (POST (searchBody (Some "Dublin") (Some dublin))
                    (sampleEnv (Some "test-api-key") [row "A"; row "B"; row "C"]))
              out ->
     exists s, search out = Some s /\ center s = dublin /\ resolvedArea s = "").
Proof.
  apply (search_places_center_verbatim
           (searchBody (Some "Dublin") (Some dublin))
           (sampleEnv (Some "test-api-key") [row "A"; row "B"; row "C"])
           dublin).
  - reflexivity.
  - cbn. lra.
  - cbn. lra.
Defined.

(** Without a centre, "Dublin" is geocoded once and labels the response. *)
Lemma search_places_geocoded_sample :
  exists w key location s rest,
    Some "Dublin" = Some w /\ Some "test-api-key" = Some key /\
    firstLocation
      (geocode_api (sampleEnv (Some "test-api-key") [row "A"; row "B"; row "C"])
                   w key) = Some location /\
    search (output "coffee" "Dublin" dublin
              [ {| r_place := coffeeShopPlace; r_distance := 0 |} ]) = Some s /\
    center s = location /\ resolvedArea s = w /\
    snd (POST (searchBody (Some "Dublin") None)
              (sampleEnv (Some "test-api-key") [row "A"; row "B"; row "C"])) =
      GeocodeRequest w key :: rest /\
    Forall (fun q => is_geocode_request q = false) rest.
Proof.
  exact (search_places_geocoded
           (searchBody (Some "Dublin") None)
           (sampleEnv (Some "test-api-key") [row "A"; row "B"; row "C"])
           _ eq_refl sample_geocoded_succeeds).
Defined.

(** The three businesses of the sample database are each looked up once. *)
Lemma search_places_lookups_sample :
  exists key,
    Some "test-api-key" = Some key /\
    List.filter is_details_request
      (snd (POST (searchBody (Some "Dublin") None)
                 (sampleEnv (Some "test-api-key") [row "A"; row "B"; row "C"]))) =
    map (fun placeId =>
           DetailsRequest placeId
             "place_id,name,formatted_address,geometry,rating,user_ratings_total"
             key None)
        ["A"; "B"; "C"].
Proof.
  exact (search_places_lookups
           (searchBody (Some "Dublin") None)
           (sampleEnv (Some "test-api-key") [row "A"; row "B"; row "C"])
           _ sample_geocoded_succeeds).
Defined.

(** The viewport of the sample search holds the coffee shop. *)
Lemma search_places_viewport_sample :
  exists s ps,
    search (output "coffee" "Dublin" dublin
              [ {| r_place := coffeeShopPlace; r_distance := 0 |} ]) = Some s /\
    places (output "coffee" "Dublin" dublin
              [ {| r_place := coffeeShopPlace; r_distance := 0 |} ]) = Some ps /\
    well_formed (viewport s) /\
    Forall (fun p => encloses (viewport s) (location p)) ps /\
    (ps = [] -> viewport s = defaultViewport (center s)).
Proof.
  exact (search_places_viewport
           (searchBody (Some "Dublin") None)
           (sampleEnv (Some "test-api-key") [row "A"; row "B"; row "C"])
           _ sample_geocoded_succeeds).
Defined.

(** The coffee shop found within 10 m (raised to 100 m) is found within
    999999 m (lowered to 50 km). *)
Lemma search_places_radius_monotone_sample :
  exists ps1 ps2,
    places (output "coffee" "" dublin
              [ {| r_place := coffeeShopPlace; r_distance := 0 |} ]) = Some ps1 /\
    places (output "coffee" "" dublin
              [ {| r_place := coffeeShopPlace; r_distance := 0 |} ]) = Some ps2 /\
    forall p, In p ps1 -> In p ps2.
Proof.
  apply (search_places_radius_monotone
           (searchBody None (Some dublin))
           (sampleEnv (Some "test-api-key") [row "A"]) 10 999999).
  - lra.
  - apply sample_radius_succeeds.
  - apply sample_radius_succeeds.
Defined.

(** One of the three sample businesses is kept, and returned once. *)
Lemma search_places_ranking_sample :
  exists s key ps,
    search (output "coffee" "Dublin" dublin
              [ {| r_place := coffeeShopPlace; r_distance := 0 |} ]) = Some s /\
    places (output "coffee" "Dublin" dublin
              [ {| r_place := coffeeShopPlace; r_distance := 0 |} ]) = Some ps /\
    Some "test-api-key" = Some key /\
    Permutation ps
      (map r_place
         (kept (sampleEnv (Some "test-api-key") [row "A"; row "B"; row "C"])
               (center s) (searchRadius None) key None ["A"; "B"; "C"])) /\
    (length ps <= 3)%nat.
Proof.
  exact (search_places_ranking
           (searchBody (Some "Dublin") None)
           (sampleEnv (Some "test-api-key") [row "A"; row "B"; row "C"])
           _ sample_geocoded_succeeds).
Defined.

End SearchMoreSamples.

(** ** get_directions: every outcome *)

Section DirectionsOutcomes.
Import JS Utils Types Provider Async Observations Outcomes Samples.
Import GetDirections.

Lemma coords_are_valid (c : option json) (p : LatLng) :
  coords_are c p -> valid_coords c /\ coords_of c = p.
Proof.
  intros (fields & -> & Hlat & Hlng). split.
  - now exists fields, (lat p), (lng p).
  - unfold coords_of, prop. rewrite Hlat, Hlng. now destruct p.
Qed.

Lemma valid_coords_are (c : option json) :
  valid_coords c -> coords_are c (coords_of c).
Proof.
  intros (fields & latitude & longitude & -> & Hlat & Hlng).
  exists fields. unfold coords_of, prop. rewrite Hlat, Hlng. auto.
Qed.

(** X10: the handler always answers, with 200, 400, 500 or 502. *)
Theorem get_directions_statuses body env :
  answers 200 (POST body env) \/ answers 400 (POST body env) \/
  answers 500 (POST body env) \/ answers 502 (POST body env).
Proof.
  unfold answers. rewrite directions_run.
  destruct (rejected (to_coords body));
    [right; left; eexists; split; reflexivity|].
  destruct (rejected (from_coords body));
    [right; left; eexists; split; reflexivity|].
  destruct (match nonempty (GOOGLE_DIRECTIONS_API_KEY env) with
            | Some k => Some k
            | None => nonempty (GOOGLE_PLACES_API_KEY env)
            end) as [apiKey|];
    [|right; right; left; eexists; split; reflexivity].
  cbv zeta.
  destruct (directions_api env _ _ _ _ _) as [message|data];
    [right; right; left; eexists; split; reflexivity|].
  cbn [fst]. unfold respond.
  destruct (negb (String.eqb (dr_status data) "OK"));
    [right; right; right; eexists; split; reflexivity|].
  destruct (first (routes data)) as [route|];
    [|right; right; right; eexists; split; reflexivity].
  destruct (first (legs route)) as [leg|];
    [|right; right; right; eexists; split; reflexivity].
  destruct (nonempty (overview_polyline route ≫= points));
    [left|right; right; right]; eexists; split; reflexivity.
Qed.

(** X11: the provider is asked at most once: not at all when a coordinate
    argument is invalid or no key is configured, and otherwise once, for
    the route from [from_coords] to [to_coords] in the mode of the request
    ("driving" by default), with the Directions key when it is set and the
    Places key otherwise. *)
Theorem get_directions_requests body env :
  (~ valid_coords (to_coords body) \/ ~ valid_coords (from_coords body) \/
   directionsKey env = None ->
   snd (POST body env) = []) /\
  (forall origin destination key,
     coords_are (from_coords body) origin ->
     coords_are (to_coords body) destination ->
     directionsKey env = Some key ->
     snd (POST body env) =
     [DirectionsRequest origin destination (default "driving" (b_mode body))
                        key (nonempty (b_language body))]) /\
  (forall key, nonempty (GOOGLE_DIRECTIONS_API_KEY env) = Some key ->
               directionsKey env = Some key) /\
  (nonempty (GOOGLE_DIRECTIONS_API_KEY env) = None ->
   directionsKey env = nonempty (GOOGLE_PLACES_API_KEY env)).
Proof.
  rewrite directions_run. fold (directionsKey env).
  split; [|split; [|split]].
  - rewrite <- !rejected_invalid.
    destruct (rejected (to_coords body)); [reflexivity|].
    destruct (rejected (from_coords body)); [reflexivity|].
    intros [H|[H|H]]; try discriminate. now rewrite H.
  - intros origin destination key Hfrom Hto Hkey.
    apply coords_are_valid in Hfrom as [Hvf <-], Hto as [Hvt <-].
    apply rejected_valid in Hvf, Hvt. rewrite Hvf, Hvt, Hkey. cbv zeta.
    destruct (directions_api env _ _ _ _ _); reflexivity.
  - intros key H. unfold directionsKey. now rewrite H.
  - intros H. unfold directionsKey. now rewrite H.
Qed.

(** X13: the handler answers 200 exactly when both coordinate arguments are
    valid, a key is configured and the provider's answer is OK with a
    first route, a first leg and a non-empty overview polyline; the
    directions then carry the two points as given, the mode, the polyline
    of the provider unchanged and the texts of the leg, "Unknown distance"
    and "Unknown duration" standing in for a missing one. *)
Theorem get_directions_success body env out :
  succeeds (POST body env) out <->
  exists key data route leg line,
    valid_coords (to_coords body) /\ valid_coords (from_coords body) /\
    directionsKey env = Some key /\
    directions_api env (coords_of (from_coords body))
      (coords_of (to_coords body)) (default "driving" (b_mode body)) key
      (nonempty (b_language body)) = fetch_json data /\
    dr_status data = "OK" /\
    first (routes data) = Some route /\
    first (legs route) = Some leg /\
    nonempty (overview_polyline route ≫= points) = Some line /\
    out =
    {| search := None;
       places := None;
       directions := Some
         {| from := coords_of (from_coords body);
            to := coords_of (to_coords body);
            mode := default "driving" (b_mode body);
            polyline := line;
            distanceText :=
              default "Unknown distance" (nonempty (distance leg ≫= text));
            durationText :=
              default "Unknown duration" (nonempty (duration leg ≫= text));
            googleMapsUrl :=
              {| url_origin := coords_of (from_coords body);
                 url_destination := coords_of (to_coords body);
                 url_travelmode := default "driving" (b_mode body) |} |} |}.
Proof.
  unfold succeeds. rewrite directions_run. fold (directionsKey env). split.
  - destruct (rejected (to_coords body)) eqn:Hto; [discriminate|].
    destruct (rejected (from_coords body)) eqn:Hfrom; [discriminate|].
    apply rejected_valid in Hto, Hfrom.
    destruct (directionsKey env) as [key|]; [|discriminate].
    cbv zeta.
    destruct (directions_api env _ _ _ _ _) as [message|data] eqn:Hcall;
      [discriminate|].
    cbn [fst]. unfold respond.
    destruct (String.eqb (dr_status data) "OK") eqn:Hst; cbn [negb];
      [|discriminate].
    apply String.eqb_eq in Hst.
    destruct (first (routes data)) as [route|] eqn:Hroute; [|discriminate].
    destruct (first (legs route)) as [leg|] eqn:Hleg; [|discriminate].
    destruct (nonempty (overview_polyline route ≫= points)) as [line|] eqn:Hline;
      [|discriminate].
    intros [= <-]. exists key, data, route, leg, line. repeat split; auto.
  - intros (key & data & route & leg & line & Hto & Hfrom & Hkey & Hcall
            & Hst & Hroute & Hleg & Hline & ->).
    apply rejected_valid in Hto, Hfrom.
    rewrite Hto, Hfrom, Hkey. cbv zeta. rewrite Hcall. cbn [fst].
    unfold respond. rewrite Hst, Hroute, Hleg, Hline. reflexivity.
Qed.

(** The sample provider is asked once, with the Places key since no
    Directions key is set. *)
Lemma get_directions_requests_sample :
  snd (POST (directionsBody (Some (coords 53.35 (-6.26)))
                            (Some (coords 53.3498 (-6.2603))) None)
            (sampleEnv (Some "test-api-key") [])) =
  [DirectionsRequest {| lat := 53.3498; lng := -6.2603 |}
                     {| lat := 53.35; lng := -6.26 |}
                     "driving" "test-api-key" None].
Proof.
  apply (proj1 (proj2 (get_directions_requests
                         (directionsBody (Some (coords 53.35 (-6.26)))
                            (Some (coords 53.3498 (-6.2603))) None)
                         (sampleEnv (Some "test-api-key") [])))).
  - eexists. split; [reflexivity|]. split.
    + apply lookup_insert_eq.
    + rewrite lookup_insert_ne by discriminate. apply lookup_insert_eq.
  - eexists. split; [reflexivity|]. split.
    + apply lookup_insert_eq.
    + rewrite lookup_insert_ne by discriminate. apply lookup_insert_eq.
  - reflexivity.
Defined.


(** A driving route on the sample data. *)
Lemma get_directions_success_sample :
  succeeds
    (POST (directionsBody (Some (coords 53.35 (-6.26)))
                          (Some (coords 53.3498 (-6.2603))) None)
          (sampleEnv (Some "test-api-key") []))
    {| search := None;
       places := None;
       directions := Some
         {| from := coords_of (Some (coords 53.3498 (-6.2603)));
            to := coords_of (Some (coords 53.35 (-6.26)));
            mode := "driving";
            polyline := "encodedPolylineString123";
            distanceText := "5.2 km";
            durationText := "12 mins";
            googleMapsUrl :=
              {| url_origin := coords_of (Some (coords 53.3498 (-6.2603)));
                 url_destination := coords_of (Some (coords 53.35 (-6.26)));
                 url_travelmode := "driving" |} |} |}.
Proof.
  apply (proj2 (get_directions_success
                  (directionsBody (Some (coords 53.35 (-6.26)))
                     (Some (coords 53.3498 (-6.2603))) None)
                  (sampleEnv (Some "test-api-key") []) _)).
  exists "test-api-key",
    {| dr_status := "OK"; error_message := None;
       routes := Some [sampleRoute] |},
    sampleRoute,
    {| distance := Some {| text := Some "5.2 km" |};
       duration := Some {| text := Some "12 mins" |} |},
    "encodedPolylineString123".
  split; [apply coords_valid|]. split; [apply coords_valid|].
  repeat split; reflexivity.
Defined.

End DirectionsOutcomes.

(** ** Distance and bounding box, continued *)

Section GeoMathMore.
Import JS Types PlaceFilter SearchPlaces Reference Outcomes.
Local Open Scope R_scope.

(** *** The box depends on the set of points only *)

Lemma fold_extend_bounds (p : LatLng) (ps : list LatLng) :
  let out := fold_left extend (p :: ps)
               {| north := lat p; south := lat p;
                  east := lng p; west := lng p |} in
  is_max lat (p :: ps) (north out) /\ is_min lat (p :: ps) (south out) /\
  is_max lng (p :: ps) (east out) /\ is_min lng (p :: ps) (west out).
Proof.
  set (start := {| north := lat p; south := lat p;
                   east := lng p; west := lng p |}).
  cbv zeta. set (out := fold_left extend (p :: ps) start).
  assert (Hin : forall q, In q (p :: ps) -> encloses out q).
  { intros q Hq. apply fold_extend_encloses. now right. }
  destruct (fold_extend_attained (p :: ps) start) as (Hn & Hs & He & Hw).
  fold out in Hn, Hs, He, Hw.
  apply (attained_first lat) in Hn, Hs.
  apply (attained_first lng) in He, Hw.
  unfold is_max, is_min.
  repeat split; try assumption;
    apply List.Forall_forall; intros q Hq; destruct (Hin q Hq); lra.
Qed.

Lemma is_max_unique f (l1 l2 : list LatLng) (m1 m2 : R) :
  (forall q, In q l1 <-> In q l2) ->
  is_max f l1 m1 -> is_max f l2 m2 -> m1 = m2.
Proof.
  intros Hsame [(q1 & Hq1 & <-) Hall1] [(q2 & Hq2 & <-) Hall2].
  rewrite List.Forall_forall in Hall1, Hall2.
  apply Rle_antisym.
  - apply Hall2. now apply Hsame.
  - apply Hall1. now apply Hsame.
Qed.

Lemma is_min_unique f (l1 l2 : list LatLng) (m1 m2 : R) :
  (forall q, In q l1 <-> In q l2) ->
  is_min f l1 m1 -> is_min f l2 m2 -> m1 = m2.
Proof.
  intros Hsame [(q1 & Hq1 & <-) Hall1] [(q2 & Hq2 & <-) Hall2].
  rewrite List.Forall_forall in Hall1, Hall2.
  apply Rle_antisym.
  - apply Hall1. now apply Hsame.
  - apply Hall2. now apply Hsame.
Qed.

(** X17: the bounding box depends only on which points there are: their order
    and their repetitions do not matter. *)
Theorem expandViewportFromPoints_same_points (ps qs : list LatLng) :
  (forall p, In p ps <-> In p qs) ->
  expandViewportFromPoints ps = expandViewportFromPoints qs.
Proof.
  intros Hsame.
  destruct ps as [|p ps], qs as [|q qs]; [reflexivity| | |].
  - exfalso. apply (Hsame q). now left.
  - exfalso. apply (proj1 (Hsame p)). now left.
  - cbn [expandViewportFromPoints].
    destruct (fold_extend_bounds p ps) as (Hn1 & Hs1 & He1 & Hw1).
    destruct (fold_extend_bounds q qs) as (Hn2 & Hs2 & He2 & Hw2).
    cbv zeta in *.
    rewrite (is_max_unique lat _ _ _ _ Hsame Hn1 Hn2).
    rewrite (is_min_unique lat _ _ _ _ Hsame Hs1 Hs2).
    rewrite (is_max_unique lng _ _ _ _ Hsame He1 He2).
    rewrite (is_min_unique lng _ _ _ _ Hsame Hw1 Hw2).
    reflexivity.
Qed.

(** X18: when all points coincide the box is that point: a span of 0 gets no
    padding. *)
Theorem expandViewportFromPoints_single (p : LatLng) (ps : list LatLng) :
  (forall q, In q ps -> q = p) ->
  expandViewportFromPoints (p :: ps) =
  Some {| north := lat p; south := lat p; east := lng p; west := lng p |}.
Proof.
  intros Hall. cbn [expandViewportFromPoints].
  destruct (fold_extend_bounds p ps)
    as ([(q1 & H1 & E1) _] & [(q2 & H2 & E2) _] & [(q3 & H3 & E3) _]
        & [(q4 & H4 & E4) _]).
  cbv zeta in *.
  assert (forall q, In q (p :: ps) -> q = p) as Hall'.
  { intros q [<-|Hq]; [reflexivity|now apply Hall]. }
  rewrite (Hall' q1 H1) in E1. rewrite (Hall' q2 H2) in E2.
  rewrite (Hall' q3 H3) in E3. rewrite (Hall' q4 H4) in E4.
  rewrite <- E1, <- E2, <- E3, <- E4.
  f_equal. f_equal; lra.
Qed.

(** The two ends of a street, in either order and with one repeated. *)
Lemma expandViewportFromPoints_same_points_sample :
  expandViewportFromPoints
    [ {| lat := 1; lng := 2 |}; {| lat := 3; lng := 4 |} ] =
  expandViewportFromPoints
    [ {| lat := 3; lng := 4 |}; {| lat := 1; lng := 2 |};
      {| lat := 3; lng := 4 |} ].
Proof.
  apply expandViewportFromPoints_same_points.
  intros p. cbn. tauto.
Defined.

(** A single place. *)
Lemma expandViewportFromPoints_single_sample :
  expandViewportFromPoints [ {| lat := 1; lng := 2 |} ] =
  Some {| north := 1; south := 1; east := 2; west := 2 |}.
Proof.
  apply (expandViewportFromPoints_single {| lat := 1; lng := 2 |} []).
  intros q [].
Defined.

End GeoMathMore.

(** ** The place ids of the database *)

Section PlaceIds.
Import PlaceFilter PlaceFilterQueries Samples.

Lemma existsb_eqb_In (s : string) (l : list string) :
  existsb (String.eqb s) l = true <-> In s l.
Proof.
  rewrite existsb_exists. split.
  - intros (x & Hx & Heq). apply String.eqb_eq in Heq. now subst.
  - intros H. exists s. split; [exact H|apply String.eqb_refl].
Qed.

(** X19: [filterPlacesByDatabase] returns exactly the given place ids that the
    database holds, compared character by character. *)
Theorem filterPlacesByDatabase_spec table placeIds (placeId : string) :
  In placeId (filterPlacesByDatabase table placeIds) <->
  In placeId placeIds /\ In placeId (getAllBusinessPlaceIds table).
Proof.
  unfold filterPlacesByDatabase, getAllBusinessPlaceIds.
  destruct placeIds as [|first rest]; cbn [length Nat.eqb].
  { cbn. tauto. }
  rewrite !in_map_iff. split.
  - intros (b & <- & Hb). apply filter_In in Hb as [Hb Hin].
    apply existsb_eqb_In in Hin. split; [exact Hin|]. now exists b.
  - intros (Hin & b & <- & Hb). exists b. split; [reflexivity|].
    apply filter_In. split; [exact Hb|]. now apply existsb_eqb_In.
Qed.

End PlaceIds.

(** ** The polyline decoder, continued *)

Section PolylineMore.
Import Types Reference Polyline.
Local Open Scope Z_scope.

Lemma append_assoc (s1 s2 s3 : string) :
  ((s1 ++ s2) ++ s3)%string = (s1 ++ (s2 ++ s3))%string.
Proof.
  induction s1 as [|ch s1 IH]; [reflexivity|].
  rewrite !append_cons. now rewrite IH.
Qed.

Lemma read_value_empty shift result :
  - 2 ^ 31 <= result < 2 ^ 31 ->
  read_value EmptyString shift result = (result, EmptyString).
Proof.
  intros H. cbn [read_value]. f_equal.
  unfold bor, shl. rewrite (ToInt32_small 0) by lia.
  rewrite Z.shiftl_0_l. rewrite !(ToInt32_small 0) by lia.
  rewrite Z.lor_0_r. rewrite !(ToInt32_small result) by lia.
  reflexivity.
Qed.

Lemma last_cons {A} (x d : A) (l : list A) :
  List.last (x :: l) d = List.last l x.
Proof.
  revert x d. induction l as [|a l IH]; intros x d; [reflexivity|].
  change (List.last (x :: a :: l) d) with (List.last (a :: l) d).
  now rewrite (IH a d), (IH a x).
Qed.

(** Decoding an encoded path followed by more text: the points of the
    path, then the rest decoded from the last point on. *)
Lemma decode_encode_prefix path lat0 lng0 rest :
  valid_point (lat0, lng0) -> Forall valid_point path ->
  decode_from (encode_from path lat0 lng0 ++ rest) lat0 lng0 =
  (map degrees path ++
   decode_from rest (fst (List.last path (lat0, lng0)))
                    (snd (List.last path (lat0, lng0))))%list.
Proof.
  revert lat0 lng0.
  induction path as [|[lat1 lng1] path IH]; intros lat0 lng0 H0 Hpath.
  - reflexivity.
  - apply List.Forall_cons_iff in Hpath as [H1 Hpath].
    assert (valid_point (lat1, lng1)) as H1' by exact H1.
    unfold valid_point in H0, H1. cbn [fst snd] in H0, H1.
    cbn [encode_from map].
    rewrite !append_assoc.
    destruct (read_encode_signed (lat1 - lat0)
                (encode_signed (lng1 - lng0) ++
                 (encode_from path lat1 lng1 ++ rest)))
      as (z1 & Hr1 & Hd1); [lia|].
    destruct (read_encode_signed (lng1 - lng0)
                (encode_from path lat1 lng1 ++ rest))
      as (z2 & Hr2 & Hd2); [lia|].
    destruct (encode_unsigned_nonempty
                (if lat1 - lat0 <? 0 then Z.lnot (Z.shiftl (lat1 - lat0) 1)
                 else Z.shiftl (lat1 - lat0) 1)) as (ch & s & Hs).
    unfold encode_signed in Hr1 at 1. unfold encode_signed at 1.
    rewrite Hs in *. rewrite append_cons in *.
    rewrite decode_from_equation_2. cbv zeta.
    rewrite Hr1. cbn [fst snd]. rewrite Hr2. cbn [fst snd].
    rewrite Hd1, Hd2.
    replace (lat0 + (lat1 - lat0)) with lat1 by lia.
    replace (lng0 + (lng1 - lng0)) with lng1 by lia.
    rewrite IH by assumption.
    cbn [app]. now rewrite last_cons.
Qed.

(** X21: a string that stops after a latitude still decodes: the point gets
    the longitude of the point before it (0 for the first point). *)
Theorem decodePolyline_truncated (path : list (Z * Z)) (latitude : Z) :
  Forall valid_point path ->
  -9000000 <= latitude <= 9000000 ->
  let before := List.last path (0, 0) in
  decodePolyline (encodePolyline path ++ encode_signed (latitude - fst before)) =
  map degrees (path ++ [(latitude, snd before)]).
Proof.
  intros Hpath Hlat before. unfold decodePolyline, encodePolyline.
  rewrite decode_encode_prefix; [|unfold valid_point; cbn; lia|exact Hpath].
  fold before. rewrite map_app. f_equal.
  assert (valid_point before) as Hb.
  { subst before. clear Hlat.
    assert (valid_point (0, 0)) as H0 by (unfold valid_point; cbn; lia).
    revert H0. generalize (0, 0).
    induction Hpath as [|p path Hp _ IH]; intros d Hd; [exact Hd|].
    destruct path as [|q path]; [exact Hp|]. now apply IH. }
  destruct Hb as [Hb1 Hb2].
  destruct (read_encode_signed (latitude - fst before) EmptyString)
    as (z & Hr & Hd); [lia|].
  destruct (encode_unsigned_nonempty
              (if latitude - fst before <? 0
               then Z.lnot (Z.shiftl (latitude - fst before) 1)
               else Z.shiftl (latitude - fst before) 1)) as (ch & s & Hs).
  assert (forall t : string, (t ++ "")%string = t) as Hnil.
  { induction t as [|c t IH]; [reflexivity|]. rewrite append_cons. now rewrite IH. }
  rewrite Hnil in Hr.
  unfold encode_signed in *. rewrite Hs in *.
  rewrite decode_from_equation_2. cbv zeta.
  rewrite Hr. cbn [fst snd].
  rewrite read_value_empty by lia. cbn [fst snd].
  rewrite decode_from_equation_1, Hd.
  change (delta 0) with 0.
  cbn [map]. unfold degrees; cbn [fst snd].
  now replace (fst before + (latitude - fst before)) with latitude by lia;
    rewrite Z.add_0_r.
Qed.

(** X22: every point takes at least two characters, except that the last one
    can do with one: twice the number of points is at most the length of
    the string plus one. *)
Theorem decodePolyline_length (str : string) :
  (2 * length (decodePolyline str) <= String.length str + 1)%nat.
Proof.
  unfold decodePolyline.
  assert (forall lat lng,
            (2 * length (decode_from str lat lng) <= String.length str + 1)%nat)
    as Hall; [|apply Hall].
  intros lat lng.
  funelim (decode_from str lat lng).
  - change (String.length "") with 0%nat. cbn [length]. lia.
  - cbn [length].
    pose proof (read_value_shorter ch rest 0 0) as H1.
    set (r1 := read_value (String ch rest) 0 0) in *.
    change (String.length (String ch rest)) with (S (String.length rest)) in *.
    destruct (snd r1) as [|ch' rest'] eqn:Hrest.
    + cbn [read_value snd]. rewrite decode_from_equation_1.
      cbn [length]. lia.
    + pose proof (read_value_shorter ch' rest' 0 0) as H2.
      change (String.length (String ch' rest'))
        with (S (String.length rest')) in *.
      lia.
Qed.

(** The three-point path, cut after the latitude of a fourth point. *)
Lemma decodePolyline_truncated_sample :
  decodePolyline (encodePolyline samplePath ++ encode_signed (4000000 - 4325200)) =
  map degrees (samplePath ++ [(4000000, -12645300)]).
Proof.
  apply (decodePolyline_truncated samplePath 4000000).
  - repeat constructor; cbn; lia.
  - lia.
Defined.

End PolylineMore.

(** ** The JSON-RPC front door *)

Section McpFacts.
Import JS Provider Async Mcp.
Local Open Scope Z_scope.

Variable ToString : option json -> string.
Variable TypeError : string -> option json -> string.

Lemma callTool_replies id site path failure args text content :
  exists r request,
    callTool id site path failure args text content = (Returned r, [request]) /\
    http_status r = 200 /\ reply_id r = id /\
    url request = (baseUrl site ++ path)%string /\
    http_method request = "POST" /\ request_body request = args /\
    (forall code message,
       reply_body r = rpc_error code message -> code = -32000).
Proof.
  unfold callTool.
  destruct (site_fetch site _) as [message|response].
  { eexists _, _. split; [reflexivity|]. repeat split. intros ? ? [= <- _].
    reflexivity. }
  destruct (negb (ok response)).
  { eexists _, _. split; [reflexivity|]. repeat split. intros ? ? [= <- _].
    reflexivity. }
  destruct (reply_json response) as [message|data].
  { eexists _, _. split; [reflexivity|]. repeat split. intros ? ? [= <- _].
    reflexivity. }
  destruct (text data) as [line|message].
  - eexists _, _. split; [reflexivity|]. repeat split. intros ? ?. discriminate.
  - eexists _, _. split; [reflexivity|]. repeat split. intros ? ? [= <- _].
    reflexivity.
Qed.

(** What [handleToolsCall] does once [params] can be destructured. *)
Lemma handleToolsCall_replies id params site :
  nullish params = false ->
  exists r sent,
    Mcp.handleToolsCall ToString TypeError id params site = (Returned r, sent) /\
    http_status r = 200 /\ reply_id r = id /\
    (forall code message,
       reply_body r = rpc_error code message -> code = -32000).
Proof.
  intros Hp. unfold Mcp.handleToolsCall. rewrite Hp.
  destruct (is_string _ "localhub.search_places").
  { destruct (callTool_replies id site "/api/localhub/tools/search_places"
                "Search failed: " (params ≫= fun p => prop p "arguments")
                (fun data => searchText ToString TypeError data
                               (params ≫= fun p => prop p "arguments"))
                (fun data => data))
      as (r & request & -> & Hs & Hid & _ & _ & _ & Hcode).
    now exists r, [request]. }
  destruct (is_string _ "localhub.get_place_details").
  { destruct (callTool_replies id site "/api/localhub/tools/get_place_details"
                "Get place details failed: "
                (params ≫= fun p => prop p "arguments")
                (detailsText ToString TypeError)
                (fun data => JObject {[ "placeDetails" := data ]}))
      as (r & request & -> & Hs & Hid & _ & _ & _ & Hcode).
    now exists r, [request]. }
  eexists _, _. split; [reflexivity|]. repeat split.
  intros ? ? [= <- _]. reflexivity.
Qed.

Lemma handleResourcesRead_replies id params site r sent :
  Mcp.handleResourcesRead ToString TypeError id params site = (Returned r, sent) ->
  http_status r = 200 /\ reply_id r = id /\
  (forall code message,
     reply_body r = rpc_error code message -> code = -32602).
Proof.
  unfold Mcp.handleResourcesRead.
  destruct (nullish params); [discriminate|].
  destruct (is_string _ "ui://widget/localhub-map.html").
  - destruct (site_fetch site _) as [message|response]; [discriminate|].
    destruct (reply_text response) as [message|html]; [discriminate|].
    intros [= <- <-]. repeat split. intros ? ?. discriminate.
  - intros [= <- <-]. repeat split. intros ? ? [= <- _]. reflexivity.
Qed.

Lemma is_string_distinct (v : option json) (s t : string) :
  is_string v s = true -> is_string v t = true -> s = t.
Proof.
  destruct v as [[]|]; cbn; try discriminate.
  intros Hs Ht. apply String.eqb_eq in Hs, Ht. congruence.
Qed.


Ltac split5 :=
  split; [split|split; [split|split; [split|split]]].

Ltac code_case request :=
  first
    [ solve [intros (r & m & [= <-] & H); discriminate]
    | solve [intros (? & [= <-] & ?); intuition congruence]
    | solve [intros _; eexists _, _; split; reflexivity]
    | solve [intros _; exists request; intuition]
    | solve [discriminate] ].

(** The five ways a parsed request can go. *)
Lemma POST_cases request site :
  nullish (Some request) = false ->
  let id := prop request "id" in
  let params := prop request "params" in
  let result := Mcp.POST ToString TypeError (Some request) site in
  (is_string (prop request "jsonrpc") "2.0" = false /\
   result = (Returned (reply id (rpc_error (-32600)
               "Invalid Request - must be JSON-RPC 2.0")), [])) \/
  (is_string (prop request "jsonrpc") "2.0" = true /\
   routed (prop request "method") = false /\
   result = (Returned (reply id (rpc_error (-32601)
               ("Method not found: " ++ ToString (prop request "method")))),
             [])) \/
  (is_string (prop request "jsonrpc") "2.0" = true /\
   routed (prop request "method") = true /\
   (forall method,
      is_string (prop request "method") method = true ->
      method <> "tools/call" /\ method <> "resources/read") /\
   exists value, result = (Returned (reply id (rpc_result value)), [])) \/
  (calls request "tools/call" /\
   result = Mcp.handleToolsCall ToString TypeError id params site) \/
  (calls request "resources/read" /\
   result = Mcp.handleResourcesRead ToString TypeError id params site).
Proof.
  intros Hn. cbv zeta. unfold calls, routed.
  assert (Mcp.POST ToString TypeError (Some request) site =
          if negb (is_string (prop request "jsonrpc") "2.0") then
            (Returned (reply (prop request "id") (rpc_error (-32600)
               "Invalid Request - must be JSON-RPC 2.0")), [])
          else if is_string (prop request "method") "initialize" then
            (Returned (handleInitialize (prop request "id")
                         (prop request "params")), [])
          else if is_string (prop request "method") "tools/list" then
            (Returned (handleToolsList (prop request "id")), [])
          else if is_string (prop request "method") "tools/call" then
            Mcp.handleToolsCall ToString TypeError (prop request "id")
              (prop request "params") site
          else if is_string (prop request "method") "resources/list" then
            (Returned (handleResourcesList (prop request "id")), [])
          else if is_string (prop request "method") "resources/read" then
            Mcp.handleResourcesRead ToString TypeError (prop request "id")
              (prop request "params") site
          else
            (Returned (reply (prop request "id") (rpc_error (-32601)
               ("Method not found: " ++ ToString (prop request "method")))),
             [])) as ->.
  { destruct request; try reflexivity. discriminate. }
  destruct (is_string (prop request "jsonrpc") "2.0"); cbn [negb]; [|now left].
  destruct (is_string (prop request "method") "initialize") eqn:H1.
  { right; right; left. split; [reflexivity|]. split; [reflexivity|]. split.
    - intros method Hm.
      split; intros ->;
        match goal with
        | H : is_string _ _ = true |- _ =>
            pose proof (is_string_distinct _ _ _ H Hm) as E; discriminate E
        end.
    - eexists. reflexivity. }
  destruct (is_string (prop request "method") "tools/list") eqn:H2.
  { right; right; left. split; [reflexivity|]. split; [reflexivity|]. split.
    - intros method Hm.
      split; intros ->;
        match goal with
        | H : is_string _ _ = true |- _ =>
            pose proof (is_string_distinct _ _ _ H Hm) as E; discriminate E
        end.
    - eexists. reflexivity. }
  destruct (is_string (prop request "method") "tools/call") eqn:H3.
  { right; right; right; left. now repeat split. }
  destruct (is_string (prop request "method") "resources/list") eqn:H4.
  { right; right; left. split; [reflexivity|]. split; [reflexivity|]. split.
    - intros method Hm.
      split; intros ->;
        match goal with
        | H : is_string _ _ = true |- _ =>
            pose proof (is_string_distinct _ _ _ H Hm) as E; discriminate E
        end.
    - eexists. reflexivity. }
  destruct (is_string (prop request "method") "resources/read") eqn:H5.
  { right; right; right; right. now repeat split. }
  right; left. now repeat split.
Qed.

Lemma calls_routed request method :
  calls request method ->
  method = "tools/call" \/ method = "resources/read" ->
  is_string (prop request "jsonrpc") "2.0" = true /\
  routed (prop request "method") = true.
Proof.
  intros [Hj Hm] Hmethod. split; [exact Hj|].
  unfold routed. destruct Hmethod as [-> | ->]; rewrite Hm;
    now rewrite ?orb_true_r.
Qed.

(** X23: which error code means what: -32700 is the answer to a body that is
    not JSON or is null, -32600 to a parsed body without
    [jsonrpc: '2.0'], -32601 to a method that is none of the five; -32000
    comes from tools/call only and -32602 from resources/read only. *)
Theorem mcp_error_codes body site :
  let result := Mcp.POST ToString TypeError body site in
  (errs (-32700) result <-> nullish body = true) /\
  (errs (-32600) result <->
   exists request,
     body = Some request /\ nullish body = false /\
     is_string (prop request "jsonrpc") "2.0" = false) /\
  (errs (-32601) result <->
   exists request,
     body = Some request /\ nullish body = false /\
     is_string (prop request "jsonrpc") "2.0" = true /\
     routed (prop request "method") = false) /\
  (errs (-32000) result ->
   exists request, body = Some request /\ calls request "tools/call") /\
  (errs (-32602) result ->
   exists request, body = Some request /\ calls request "resources/read").
Proof.
  cbv zeta. unfold errs.
  destruct (nullish body) eqn:Hn.
  { assert (Mcp.POST ToString TypeError body site = (Returned parseError, []))
      as -> by (destruct body as [[]|]; try discriminate; reflexivity).
    cbn [fst]. split5; try (intros (r & m & [= <-] & H); discriminate).
    - reflexivity.
    - intros _. eexists _, _. split; reflexivity. }
  destruct body as [request|]; [|discriminate].
  destruct (POST_cases request site Hn)
    as [[Hj ->]|[(Hj & Hm & ->)|[(Hj & Hm & Hother & value & ->)|[[Hc ->]|[Hc ->]]]]];
    cbn [fst].
  - split5; code_case request.
  - split5; code_case request.
  - split5; code_case request.
  - destruct (calls_routed request _ Hc (or_introl eq_refl)) as [Hj Hm].
    assert (forall code, code <> -32000 ->
              ~ exists r m,
                  fst (Mcp.handleToolsCall ToString TypeError
                         (prop request "id") (prop request "params") site) =
                  Returned r /\ reply_body r = rpc_error code m) as Hnot.
    { intros code Hcode (r & m & Hr & Hb).
      destruct (nullish (prop request "params")) eqn:Hp.
      - unfold Mcp.handleToolsCall in Hr. rewrite Hp in Hr. discriminate.
      - destruct (handleToolsCall_replies (prop request "id")
                    (prop request "params") site Hp)
          as (r' & sent & Heq & _ & _ & Hc').
        rewrite Heq in Hr. injection Hr as <-.
        apply Hc' in Hb. contradiction. }
    split5; try code_case request;
      (intros H; apply Hnot in H; [contradiction|discriminate]).
  - destruct (calls_routed request _ Hc (or_intror eq_refl)) as [Hj Hm].
    assert (forall code, code <> -32602 ->
              ~ exists r m,
                  fst (Mcp.handleResourcesRead ToString TypeError
                         (prop request "id") (prop request "params") site) =
                  Returned r /\ reply_body r = rpc_error code m) as Hnot.
    { intros code Hcode (r & m & Hr & Hb).
      destruct (Mcp.handleResourcesRead ToString TypeError _ _ site)
        as [out sent] eqn:Heq.
      cbn [fst] in Hr. subst out.
      apply handleResourcesRead_replies in Heq as (_ & _ & Hc').
      apply Hc' in Hb. contradiction. }
    split5; try code_case request;
      (intros H; apply Hnot in H; [contradiction|discriminate]).
Qed.


(** X24: every reply of the front door has HTTP status 200 and carries the
    [id] of the request, except the reply to a body that could not be
    read, which has status 500 and [id: null]. *)
Theorem mcp_reply_envelope body site r sent :
  Mcp.POST ToString TypeError body site = (Returned r, sent) ->
  (nullish body = true /\ r = parseError /\ sent = []) \/
  (exists request,
     body = Some request /\ nullish body = false /\
     http_status r = 200 /\ reply_id r = prop request "id").
Proof.
  intros Hrun.
  destruct (nullish body) eqn:Hn.
  { left. split; [reflexivity|].
    assert (Mcp.POST ToString TypeError body site = (Returned parseError, []))
      as Heq by (destruct body as [[]|]; try discriminate; reflexivity).
    rewrite Heq in Hrun. injection Hrun as <- <-. now split. }
  right. destruct body as [request|]; [|discriminate].
  exists request. split; [reflexivity|]. split; [reflexivity|].
  destruct (POST_cases request site Hn)
    as [[Hj Heq]|[(Hj & Hm & Heq)|[(Hj & Hm & Hother & value & Heq)|[[Hc Heq]|[Hc Heq]]]]];
    rewrite Heq in Hrun.
  - injection Hrun as <- <-. now split.
  - injection Hrun as <- <-. now split.
  - injection Hrun as <- <-. now split.
  - destruct (nullish (prop request "params")) eqn:Hp.
    { unfold Mcp.handleToolsCall in Hrun. rewrite Hp in Hrun. discriminate. }
    destruct (handleToolsCall_replies (prop request "id")
                (prop request "params") site Hp)
      as (r' & sent' & Heq' & Hs & Hid & _).
    rewrite Heq' in Hrun. injection Hrun as <- <-. now split.
  - apply handleResourcesRead_replies in Hrun as (Hs & Hid & _). now split.
Qed.

Lemma handleResourcesRead_throws id params site :
  (exists message,
     fst (Mcp.handleResourcesRead ToString TypeError id params site) =
     Thrown message) <->
  nullish params = true \/
  (is_string (params ≫= fun p => prop p "uri")
             "ui://widget/localhub-map.html" = true /\
   widget_unavailable site).
Proof.
  unfold Mcp.handleResourcesRead, widget_unavailable.
  destruct (nullish params).
  { split; [now left|]. intros _. eexists. reflexivity. }
  destruct (is_string _ "ui://widget/localhub-map.html").
  - destruct (site_fetch site _) as [message|response].
    { split; [now right|]. intros _. eexists. reflexivity. }
    destruct (reply_text response) as [message|html].
    { split; [now right|]. intros _. eexists. reflexivity. }
    split.
    + intros [message H]. discriminate.
    + intros [H|[_ []]]. discriminate.
  - split.
    + intros [message H]. discriminate.
    + intros [H|[H _]]; discriminate.
Qed.

(** X25: the front door rejects, with no JSON-RPC reply at all, exactly when
    tools/call or resources/read comes with [params] null or missing, or
    when the widget is asked for and cannot be fetched: these handlers are
    returned without being awaited, so the [catch] of [POST] does not see
    what they throw. *)
Theorem mcp_uncaught body site :
  (exists message,
     fst (Mcp.POST ToString TypeError body site) = Thrown message) <->
  (exists request,
     body = Some request /\
     ((calls request "tools/call" /\ nullish (prop request "params") = true) \/
      (calls request "resources/read" /\
       (nullish (prop request "params") = true \/
        (is_string (prop request "params" ≫= fun p => prop p "uri")
                   "ui://widget/localhub-map.html" = true /\
         widget_unavailable site))))).
Proof.
  destruct (nullish body) eqn:Hn.
  { assert (Mcp.POST ToString TypeError body site = (Returned parseError, []))
      as -> by (destruct body as [[]|]; try discriminate; reflexivity).
    split.
    - intros [message H]. discriminate.
    - intros (request & -> & [[[Hj _] _]|[[Hj _] _]]);
        destruct request; cbn in Hn, Hj; discriminate. }
  destruct body as [request|]; [|discriminate].
  assert (forall method other,
            calls request method -> calls request other -> method = other)
    as Hone.
  { intros method other [_ H1] [_ H2]. eapply is_string_distinct; eassumption. }
  destruct (POST_cases request site Hn)
    as [[Hj ->]|[(Hj & Hm & ->)|[(Hj & Hm & Hother & value & ->)|[[Hc ->]|[Hc ->]]]]].
  - split.
    + intros [message H]. discriminate.
    + intros (? & [= <-] & [[[Hj' _] _]|[[Hj' _] _]]); congruence.
  - split.
    + intros [message H]. discriminate.
    + intros (? & [= <-] & [[Hc _]|[Hc _]]).
      * apply calls_routed in Hc as [_ Hr]; [congruence|now left].
      * apply calls_routed in Hc as [_ Hr]; [congruence|now right].
  - split.
    + intros [message H]. discriminate.
    + intros (? & [= <-] & [[[_ Hc] _]|[[_ Hc] _]]);
        apply Hother in Hc as [? ?]; congruence.
  - split.
    + intros [message H]. exists request. split; [reflexivity|]. left.
      split; [exact Hc|].
      destruct (nullish (prop request "params")) eqn:Hp; [reflexivity|].
      destruct (handleToolsCall_replies (prop request "id")
                  (prop request "params") site Hp) as (r & sent & Heq & _).
      rewrite Heq in H. discriminate.
    + intros (? & [= <-] & [[_ Hp]|[Hc' _]]).
      * unfold Mcp.handleToolsCall. rewrite Hp. eexists. reflexivity.
      * pose proof (Hone _ _ Hc Hc'). discriminate.
  - rewrite handleResourcesRead_throws. split.
    + intros H. exists request. split; [reflexivity|]. right. now split.
    + intros (? & [= <-] & [[Hc' _]|[_ H]]).
      * pose proof (Hone _ _ Hc Hc'). discriminate.
      * exact H.
Qed.


Lemma toolNames_eq :
  toolNames = ["localhub.search_places"; "localhub.get_place_details"].
Proof. reflexivity. Qed.


Lemma calls_parsed request method :
  calls request method -> nullish (Some request) = false.
Proof. intros [Hj _]. destruct request; try reflexivity. discriminate. Qed.

Lemma POST_tools_call request site :
  calls request "tools/call" ->
  Mcp.POST ToString TypeError (Some request) site =
  Mcp.handleToolsCall ToString TypeError (prop request "id")
    (prop request "params") site.
Proof.
  intros Hc.
  destruct (calls_routed request _ Hc (or_introl eq_refl)) as [Hj Hm].
  destruct (POST_cases request site (calls_parsed _ _ Hc))
    as [[Hj' _]|[(_ & Hm' & _)|[(_ & _ & Hother & _)|[[_ Heq]|[[_ Hc'] _]]]]].
  - congruence.
  - congruence.
  - destruct Hc as [_ Hc]. apply Hother in Hc as [? _]. congruence.
  - exact Heq.
  - destruct Hc as [_ Hc].
    pose proof (is_string_distinct _ _ _ Hc Hc'). discriminate.
Qed.

Lemma callTool_result id site path failure args text content r sent value :
  callTool id site path failure args text content = (Returned r, sent) ->
  reply_body r = rpc_result value ->
  exists response data line,
    sent = [ {| url := baseUrl site ++ path; http_method := "POST";
                request_body := args |} ] /\
    site_fetch site {| url := baseUrl site ++ path; http_method := "POST";
                       request_body := args |} = fetch_json response /\
    ok response = true /\ reply_json response = fetch_json data /\
    text data = Returned line /\
    prop value "structuredContent" = Some (content data) /\
    prop value "_meta" = Some widgetMeta.
Proof.
  unfold callTool.
  destruct (site_fetch site _) as [message|response] eqn:Hfetch.
  { intros [= <- <-]. discriminate. }
  destruct (ok response) eqn:Hok; cbn [negb].
  2: { intros [= <- <-]. discriminate. }
  destruct (reply_json response) as [message|data] eqn:Hjson.
  { intros [= <- <-]. discriminate. }
  destruct (text data) as [line|message] eqn:Htext.
  2: { intros [= <- <-]. discriminate. }
  intros [= <- <-] [= <-].
  exists response, data, line. repeat split; try assumption; reflexivity.
Qed.

Lemma callTool_sends id site path failure args text content :
  exists r,
    callTool id site path failure args text content =
    (Returned r,
     [ {| url := baseUrl site ++ path; http_method := "POST";
          request_body := args |} ]).
Proof.
  unfold callTool.
  destruct (site_fetch site _) as [message|response]; [now eexists|].
  destruct (negb (ok response)); [now eexists|].
  destruct (reply_json response) as [message|data]; [now eexists|].
  destruct (text data); now eexists.
Qed.

(** X26: a tool is called exactly when its name is in the manifest that
    tools/list hands out: the call goes, as one POST carrying the
    arguments, to the route named like the tool without its prefix; any
    other name is answered with an error and nothing is requested. *)
Theorem mcp_tools_registry request site :
  calls request "tools/call" ->
  nullish (prop request "params") = false ->
  let name := prop request "params" ≫= fun p => prop p "name" in
  let args := prop request "params" ≫= fun p => prop p "arguments" in
  let result := Mcp.POST ToString TypeError (Some request) site in
  (forall tool,
     name = Some (JString tool) -> In tool toolNames ->
     exists suffix r,
       tool = "localhub." ++ suffix /\
       result =
       (Returned r,
        [ {| url := baseUrl site ++ "/api/localhub/tools/" ++ suffix;
             http_method := "POST"; request_body := args |} ])) /\
  ((forall tool, name = Some (JString tool) -> ~ In tool toolNames) ->
   result =
   (Returned (reply (prop request "id")
                (rpc_error (-32000)
                   ("Tool execution failed: Unknown tool: " ++ ToString name))),
    [])).
Proof.
  intros Hc Hp. cbv zeta. rewrite (POST_tools_call _ _ Hc).
  unfold Mcp.handleToolsCall. rewrite Hp. split.
  - intros tool Hname [<- | [<- | []]]; rewrite Hname; cbn [is_string].
    + exists "search_places".
      destruct (callTool_sends (prop request "id") site
                  "/api/localhub/tools/search_places" "Search failed: "
                  (prop request "params" ≫= fun p => prop p "arguments")
                  (fun data => searchText ToString TypeError data
                     (prop request "params" ≫= fun p => prop p "arguments"))
                  (fun data => data))
        as [r Heq].
      exists r. split; [reflexivity|].
      change (String.eqb "localhub.search_places" "localhub.search_places")
        with true. cbv iota. exact Heq.
    + exists "get_place_details".
      destruct (callTool_sends (prop request "id") site
                  "/api/localhub/tools/get_place_details"
                  "Get place details failed: "
                  (prop request "params" ≫= fun p => prop p "arguments")
                  (detailsText ToString TypeError)
                  (fun data => JObject {[ "placeDetails" := data ]}))
        as [r Heq].
      exists r. split; [reflexivity|].
      change (String.eqb "localhub.get_place_details" "localhub.search_places")
        with false.
      change (String.eqb "localhub.get_place_details"
                "localhub.get_place_details") with true.
      cbv iota. exact Heq.
  - intros Hnone.
    destruct (is_string _ "localhub.search_places") eqn:H1.
    { destruct (prop request "params" ≫= fun p => prop p "name")
        as [[| | |tool| |]|]; try discriminate.
      apply String.eqb_eq in H1 as ->.
      exfalso. apply (Hnone _ eq_refl). now left. }
    destruct (is_string _ "localhub.get_place_details") eqn:H2.
    { destruct (prop request "params" ≫= fun p => prop p "name")
        as [[| | |tool| |]|]; try discriminate.
      apply String.eqb_eq in H2 as ->.
      exfalso. apply (Hnone _ eq_refl). right. now left. }
    reflexivity.
Qed.

(** X27: a tools/call is answered with a result only from an OK response of
    the tool's route whose body could be parsed: that body is handed on
    as [structuredContent], as it is for a search and under
    [placeDetails] for place details, with the widget template beside
    it. *)
Theorem mcp_tool_result request site r sent value :
  calls request "tools/call" ->
  Mcp.POST ToString TypeError (Some request) site = (Returned r, sent) ->
  reply_body r = rpc_result value ->
  let name := prop request "params" ≫= fun p => prop p "name" in
  exists fetched response data,
    sent = [fetched] /\
    site_fetch site fetched = fetch_json response /\
    ok response = true /\ reply_json response = fetch_json data /\
    nullish (Some data) = false /\
    prop value "_meta" = Some widgetMeta /\
    ((is_string name "localhub.search_places" = true /\
      prop value "structuredContent" = Some data) \/
     (is_string name "localhub.get_place_details" = true /\
      prop value "structuredContent" =
      Some (JObject {[ "placeDetails" := data ]}))).
Proof.
  intros Hc Hrun Hbody. cbv zeta.
  rewrite (POST_tools_call _ _ Hc) in Hrun.
  unfold Mcp.handleToolsCall in Hrun.
  destruct (nullish (prop request "params")); [discriminate|].
  destruct (is_string _ "localhub.search_places") eqn:H1.
  { destruct (callTool_result _ _ _ _ _ _ _ _ _ _ Hrun Hbody)
      as (response & data & line & -> & Hf & Hok & Hj & Ht & Hs & Hm).
    eexists _, response, data. split; [reflexivity|].
    repeat (split; [assumption|]).
    split.
    { unfold searchText in Ht. destruct (nullish (Some data));
        [discriminate|reflexivity]. }
    split; [assumption|]. left. now split. }
  destruct (is_string _ "localhub.get_place_details") eqn:H2.
  { destruct (callTool_result _ _ _ _ _ _ _ _ _ _ Hrun Hbody)
      as (response & data & line & -> & Hf & Hok & Hj & Ht & Hs & Hm).
    eexists _, response, data. split; [reflexivity|].
    repeat (split; [assumption|]).
    split.
    { unfold detailsText in Ht. destruct (nullish (Some data));
        [discriminate|reflexivity]. }
    split; [assumption|]. right. now split. }
  injection Hrun as <- <-. discriminate.
Qed.

End McpFacts.

(** ** The front door on sample requests *)

Section McpSampleRuns.
Import JS Provider Async Mcp McpSamples.
Local Open Scope Z_scope.

Lemma toolCall_calls name args : calls (toolCall name args) "tools/call".
Proof. split; reflexivity. Qed.

(** tools/list is answered with status 200 and the [id] of the
    request. *)
Lemma mcp_reply_envelope_sample :
  (nullish (Some (rpc "tools/list" JNull)) = true /\
   handleToolsList (Some (JString "a")) = parseError /\
   @nil InternalRequest = []) \/
  (exists request,
     Some (rpc "tools/list" JNull) = Some request /\
     nullish (Some (rpc "tools/list" JNull)) = false /\
     http_status (handleToolsList (Some (JString "a"))) = 200 /\
     reply_id (handleToolsList (Some (JString "a"))) = prop request "id").
Proof.
  apply (mcp_reply_envelope plainToString plainTypeError
           (Some (rpc "tools/list" JNull)) (siteAnswering noPlaces)).
  reflexivity.
Defined.

(** A search for coffee goes to the search route; a call of
    get_directions, which the manifest does not list, goes nowhere. *)
Lemma mcp_tools_registry_sample :
  (forall tool,
     Some (JString "localhub.search_places") = Some (JString tool) ->
     In tool toolNames ->
     exists suffix r,
       tool = "localhub." ++ suffix /\
       Mcp.POST plainToString plainTypeError
         (Some (toolCall "localhub.search_places" coffee))
         (siteAnswering noPlaces) =
       (Returned r,
        [ {| url := baseUrl (siteAnswering noPlaces) ++
                    "/api/localhub/tools/" ++ suffix;
             http_method := "POST"; request_body := Some coffee |} ])) /\
  Mcp.POST plainToString plainTypeError
    (Some (toolCall "localhub.get_directions" coffee))
    (siteAnswering noPlaces) =
  (Returned (reply (Some (JString "a"))
               (rpc_error (-32000)
                  "Tool execution failed: Unknown tool: localhub.get_directions")),
   []).
Proof.
  split.
  - apply (proj1 (mcp_tools_registry plainToString plainTypeError
                    (toolCall "localhub.search_places" coffee)
                    (siteAnswering noPlaces)
                    (toolCall_calls _ _) eq_refl)).
  - apply (proj2 (mcp_tools_registry plainToString plainTypeError
                    (toolCall "localhub.get_directions" coffee)
                    (siteAnswering noPlaces)
                    (toolCall_calls _ _) eq_refl)).
    intros tool [= <-] [H|[H|[]]]; discriminate.
Defined.

(** The result of the sample search carries the body of the route's
    answer. *)
Lemma mcp_tool_result_sample :
  exists r sent value,
    Mcp.POST plainToString plainTypeError
      (Some (toolCall "localhub.search_places" coffee))
      (siteAnswering noPlaces) = (Returned r, sent) /\
    reply_body r = rpc_result value /\
    exists fetched response data,
      sent = [fetched] /\
      site_fetch (siteAnswering noPlaces) fetched = fetch_json response /\
      ok response = true /\ reply_json response = fetch_json data /\
      nullish (Some data) = false /\
      prop value "_meta" = Some widgetMeta /\
      ((is_string (Some (JString "localhub.search_places"))
                  "localhub.search_places" = true /\
        prop value "structuredContent" = Some data) \/
       (is_string (Some (JString "localhub.search_places"))
                  "localhub.get_place_details" = true /\
        prop value "structuredContent" =
        Some (JObject {[ "placeDetails" := data ]}))).
Proof.
  eexists _, _, _. split; [reflexivity|]. split; [reflexivity|].
  apply (mcp_tool_result plainToString plainTypeError
           (toolCall "localhub.search_places" coffee)
           (siteAnswering noPlaces) _ _ _ (toolCall_calls _ _)
           eq_refl eq_refl).
Defined.

End McpSampleRuns.

(** ** Distances along a meridian *)

Section Meridian.
Import JS Types PlaceFilter SearchPlaces Reference.
Local Open Scope R_scope.

(** Going north along a meridian by less than half a turn, the distance
    is the arc: the radius times the angle. *)
Lemma calculateDistance_north (lat1 lng1 degrees : R) :
  0 <= degrees < 180 ->
  calculateDistance lat1 lng1 (lat1 + degrees) lng1 =
  6371000 * (degrees * PI / 180).
Proof.
  intros [Hlo Hhi].
  pose proof PI_RGT_0 as Hpi.
  unfold calculateDistance, Math_sqrt.
  replace ((lat1 + degrees - lat1) * PI / 180 / 2)
    with (degrees * PI / 180 / 2) by lra.
  replace ((lng1 - lng1) * PI / 180 / 2) with 0 by lra.
  rewrite sin_0.
  set (x := degrees * PI / 180 / 2).
  assert (0 <= x < PI / 2) as [Hx0 Hx1].
  { unfold x. split.
    - apply Rmult_le_pos; [|lra].
      apply Rmult_le_pos; [|lra].
      apply Rmult_le_pos; lra.
    - assert (degrees * PI < 180 * PI) by (apply Rmult_lt_compat_r; lra).
      lra. }
  replace (sin x * sin x +
           cos (lat1 * PI / 180) * cos ((lat1 + degrees) * PI / 180) * 0 * 0)
    with (sin x * sin x) by ring.
  assert (0 <= sin x) as Hsin by (apply sin_ge_0; lra).
  assert (0 < cos x) as Hcos by (apply cos_gt_0; lra).
  replace (1 - sin x * sin x) with (cos x * cos x)
    by (pose proof (sin2_cos2 x) as H; unfold Rsqr in H; lra).
  rewrite !sqrt_square by lra.
  unfold Math_atan2. destruct (Rlt_dec 0 (cos x)) as [_|Hn]; [|contradiction].
  change (sin x / cos x) with (tan x).
  rewrite atan_tan by lra.
  unfold x. lra.
Qed.

Lemma PI_gt_3 : 3 < PI.
Proof. pose proof PI2_3_2. lra. Qed.

End Meridian.

(** ** search_places on places at several distances *)

Section RankedRuns.
Import JS Utils Types Provider Async PlaceFilter SearchPlaces Observations.
Import Reference Samples RankedSamples.
Local Open Scope R_scope.

Lemma searchRadius_60000 : searchRadius (Some 60000) = 50000.
Proof.
  unfold searchRadius, Math_max, Math_min; cbn [default from_option].
  unfold Datatypes.id.
  destruct (Rle_dec 50000 60000); [|lra].
  destruct (Rle_dec 100 50000); [reflexivity|lra].
Qed.

Lemma distance_nearby :
  calculateDistance (lat dublin) (lng dublin) (lat nearby) (lng nearby) =
  6371000 * (0.001 * PI / 180).
Proof.
  cbn [dublin nearby lat lng].
  replace 53.3508 with (53.3498 + 0.001) by lra.
  apply calculateDistance_north. lra.
Qed.

Lemma distance_distant :
  calculateDistance (lat dublin) (lng dublin) (lat distant) (lng distant) =
  6371000 * (0.5 * PI / 180).
Proof.
  cbn [dublin distant lat lng].
  replace 53.8498 with (53.3498 + 0.5) by lra.
  apply calculateDistance_north. lra.
Qed.

(** The near bakery is between 106 m and 142 m away, the far one more
    than 53 km. *)
Lemma nearby_bounds : 106 < 6371000 * (0.001 * PI / 180) < 142.
Proof. pose proof PI_gt_3. pose proof PI_4. lra. Qed.

Lemma distant_bounds : 53000 < 6371000 * (0.5 * PI / 180).
Proof. pose proof PI_gt_3. lra. Qed.

Lemma rankPlace_coffee :
  rankPlace dublin 50000
            {| pd_status := "OK"; pd_result := Some coffeeShop |} =
  Some {| r_place := coffeeShopPlace; r_distance := 0 |}.
Proof.
  unfold rankPlace. cbn [pd_status pd_result String.eqb Ascii.eqb Bool.eqb
                         coffeeShop pr_geometry].
  rewrite calculateDistance_same.
  destruct (Rle_dec 0 50000); [reflexivity|lra].
Qed.

Lemma rankPlace_near :
  rankPlace dublin 50000
            {| pd_status := "OK";
               pd_result := Some (shopAt "place2" "Near Bakery" (Some nearby)) |} =
  Some {| r_place := nearPlace;
          r_distance := 6371000 * (0.001 * PI / 180) |}.
Proof.
  unfold rankPlace. cbn [pd_status pd_result String.eqb Ascii.eqb Bool.eqb
                         shopAt pr_geometry].
  rewrite distance_nearby.
  pose proof nearby_bounds.
  destruct (Rle_dec (6371000 * (0.001 * PI / 180)) 50000); [reflexivity|lra].
Qed.

Lemma rankPlace_far :
  rankPlace dublin 50000
            {| pd_status := "OK";
               pd_result := Some (shopAt "place3" "Far Bakery" (Some distant)) |} =
  None.
Proof.
  unfold rankPlace. cbn [pd_status pd_result String.eqb Ascii.eqb Bool.eqb
                         shopAt pr_geometry].
  rewrite distance_distant.
  pose proof distant_bounds.
  destruct (Rle_dec (6371000 * (0.5 * PI / 180)) 50000); [lra|reflexivity].
Qed.

(** Of the six places of the database two are found, the coffee shop
    before the near bakery although the database lists it last. *)
Lemma ranked_found :
  found (rankedEnv rankedRows) dublin 50000 "test-api-key" None
        ["far"; "near"; "B"; "nowhere"; "C"; "A"] =
  [ {| r_place := coffeeShopPlace; r_distance := 0 |};
    {| r_place := nearPlace; r_distance := 6371000 * (0.001 * PI / 180) |} ].
Proof.
  unfold found, lookup, detailsOf.
  cbn [map rankedEnv details_api String.eqb Ascii.eqb Bool.eqb].
  rewrite rankPlace_coffee, rankPlace_near, rankPlace_far.
  unfold rankPlace.
  cbn [pd_status pd_result String.eqb Ascii.eqb Bool.eqb shopAt pr_geometry
       g_location].
  unfold Array_sort.
  cbn [omap list_omap fold_right foldr sort_insert r_distance].
  pose proof nearby_bounds.
  destruct (Rle_dec (6371000 * (0.001 * PI / 180) - 0) 0); [lra|reflexivity].
Qed.

Lemma ranked_resolves :
  origin_resolves rankedBody (rankedEnv rankedRows) dublin "" [].
Proof.
  split; [now exists "coffee"|].
  apply resolveCenter_center. exact dublin_passes.
Qed.

Lemma ranked_search_succeeds :
  succeeds
    (POST rankedBody (rankedEnv rankedRows))
    (output "coffee" "" dublin
       [ {| r_place := coffeeShopPlace; r_distance := 0 |};
         {| r_place := nearPlace;
            r_distance := 6371000 * (0.001 * PI / 180) |} ]).
Proof.
  unfold succeeds. rewrite POST_run.
  destruct ranked_resolves as [_ Hr]. rewrite Hr.
  cbn [rankedBody b_query b_radius_m b_language nonempty truthy_string
       String.eqb Ascii.eqb Bool.eqb negb rankedEnv GOOGLE_PLACES_API_KEY
       business getAllBusinessPlaceIds rankedRows map row
       PlaceFilter.placeId fst].
  rewrite searchRadius_60000.
  now rewrite ranked_found.
Qed.

(** C2 on the sample data: 60 km are asked for and clamped to 50 km; the
    far bakery, 55 km away, is left out, and the coffee shop at the
    origin comes before the near bakery, 111 m away, although the
    database lists the bakery first. *)
Lemma search_sorted_within_radius_sample :
  getAllBusinessPlaceIds (business (rankedEnv rankedRows)) =
    ["far"; "near"; "B"; "nowhere"; "C"; "A"] /\
  distanceFrom dublin coffeeShopPlace = 0 /\
  106 < distanceFrom dublin nearPlace < 142 /\
  50000 <
    calculateDistance (lat dublin) (lng dublin) (lat distant) (lng distant) /\
  exists s ps,
    search (output "coffee" "" dublin
              [ {| r_place := coffeeShopPlace; r_distance := 0 |};
                {| r_place := nearPlace;
                   r_distance := 6371000 * (0.001 * PI / 180) |} ]) = Some s /\
    places (output "coffee" "" dublin
              [ {| r_place := coffeeShopPlace; r_distance := 0 |};
                {| r_place := nearPlace;
                   r_distance := 6371000 * (0.001 * PI / 180) |} ]) = Some ps /\
    StronglySorted
      (fun p q => distanceFrom (center s) p <= distanceFrom (center s) q) ps /\
    Forall (fun p => distanceFrom (center s) p <= searchRadius (Some 60000))
           ps /\
    searchRadius (Some 60000) = clamp 100 50000 (default 40000 (Some 60000)) /\
    100 <= searchRadius (Some 60000) <= 50000.
Proof.
  split; [reflexivity|].
  split; [apply calculateDistance_same|].
  split; [unfold distanceFrom; cbn [nearPlace location]; rewrite distance_nearby;
          exact nearby_bounds|].
  split; [rewrite distance_distant; pose proof distant_bounds; lra|].
  exact (search_sorted_within_radius rankedBody (rankedEnv rankedRows) _
           ranked_search_succeeds).
Defined.

End RankedRuns.

(** ** search_places: the lookups that fail and those that do not *)

Section Lookups.
Import JS Utils Types Provider Async PlaceFilter SearchPlaces Observations.
Import Availability.
Local Open Scope R_scope.

(** The callback keeps a response exactly when it is OK, has a result
    with a location and that location is within the radius; what it
    keeps is the place of the result with its distance. *)
Lemma rankPlace_placeOf origin radius data ranked :
  rankPlace origin radius data = Some ranked <->
  exists result position,
    pd_status data = "OK" /\ pd_result data = Some result /\
    locationOf data = Some position /\
    calculateDistance (lat origin) (lng origin) (lat position) (lng position)
      <= radius /\
    ranked =
    {| r_place := placeOf result position;
       r_distance :=
         calculateDistance (lat origin) (lng origin)
                           (lat position) (lng position) |}.
Proof.
  unfold rankPlace, locationOf.
  destruct (String.eqb (pd_status data) "OK") eqn:Hst.
  - apply String.eqb_eq in Hst.
    destruct (pd_result data) as [result|].
    + destruct (pr_geometry result) as [[[position|]]|].
      * destruct (Rle_dec _ radius) as [Hle|Hgt].
        -- split.
           ++ intros [= <-]. now exists result, position.
           ++ intros (r & p & _ & [= <-] & [= <-] & _ & ->). reflexivity.
        -- split; [discriminate|].
           intros (r & p & _ & [= <-] & [= <-] & Hle & _). contradiction.
      * split; [discriminate|]. intros (r & p & _ & _ & H & _). discriminate.
      * split; [discriminate|]. intros (r & p & _ & _ & H & _). discriminate.
    + split; [discriminate|]. intros (r & p & _ & H & _). discriminate.
  - apply String.eqb_neq in Hst.
    split; [discriminate|]. intros (r & p & H & _). contradiction.
Qed.

Lemma lookup_available env origin radius key language placeId p :
  (exists ranked,
     lookup env origin radius key language placeId = Some ranked /\
     r_place ranked = p) <->
  available env key language origin radius placeId p.
Proof.
  unfold lookup, available.
  destruct (detailsOf env key language placeId) as [message|data].
  - split.
    + intros (ranked & H & _). discriminate.
    + intros (d & r & q & H & _). discriminate.
  - split.
    + intros (ranked & H & <-).
      apply rankPlace_placeOf in H
        as (result & position & Hst & Hres & Hloc & Hle & ->).
      now exists data, result, position.
    + intros (d & result & position & [= <-] & Hst & Hres & Hloc & Hle & ->).
      exists {| r_place := placeOf result position;
                r_distance :=
                  calculateDistance (lat origin) (lng origin)
                                    (lat position) (lng position) |}.
      split; [|reflexivity].
      apply rankPlace_placeOf. now exists result, position.
Qed.

Lemma available_not_fails env key language origin radius placeId p :
  available env key language origin radius placeId p ->
  ~ lookup_fails (detailsOf env key language placeId).
Proof.
  intros (data & result & position & Hd & Hst & _ & Hloc & _) Hfail.
  rewrite Hd in Hfail. inversion Hfail; subst; congruence.
Qed.

(** C4: once the origin is resolved and the provider key is configured,
    the search succeeds whatever the lookups do, and its places are
    exactly the places of the lookups that came back OK with a location
    within the radius: each of those is in the response, and a lookup
    that throws, has a status other than OK or lacks a geometry location
    contributes no place. *)
Theorem lookup_failures_tolerated body env origin area sent key :
  origin_resolves body env origin area sent ->
  nonempty (GOOGLE_PLACES_API_KEY env) = Some key ->
  let radius := searchRadius (b_radius_m body) in
  let placeIds := getAllBusinessPlaceIds (business env) in
  exists out ps,
    succeeds (POST body env) out /\ places out = Some ps /\
    (forall p,
       In p ps <->
       exists placeId,
         In placeId placeIds /\
         available env key (b_language body) origin radius placeId p) /\
    (forall placeId p,
       lookup_fails (detailsOf env key (b_language body) placeId) ->
       ~ available env key (b_language body) origin radius placeId p).
Proof.
  intros [[query Hq] Hr] Hkey radius placeIds.
  subst radius placeIds.
  eexists _, _. split; [|split; [|split]].
  - unfold succeeds. rewrite POST_run, Hq, Hr, Hkey. cbn. reflexivity.
  - reflexivity.
  - intros p. rewrite in_map_iff. split.
    + intros (ranked & <- & Hin).
      apply found_In in Hin as (placeId & Hid & Hl).
      exists placeId. split; [exact Hid|].
      apply lookup_available. now exists ranked.
    + intros (placeId & Hid & Ha).
      apply lookup_available in Ha as (ranked & Hl & <-).
      exists ranked. split; [reflexivity|].
      apply found_In. now exists placeId.
  - intros placeId p Hfail Ha.
    now apply available_not_fails in Ha.
Qed.

End Lookups.

Section LookupSamples.
Import JS Utils Types Provider Async PlaceFilter SearchPlaces Observations.
Import Availability Samples RankedSamples.
Local Open Scope R_scope.

(** C4 on the sample data: of six lookups one throws, one reports
    NOT_FOUND and one has no location; the search succeeds all the same,
    and the near bakery, whose lookup is in order, has to be shown. *)
Lemma lookup_failures_tolerated_sample :
  lookup_fails (detailsOf (rankedEnv rankedRows) "test-api-key" None "C") /\
  lookup_fails (detailsOf (rankedEnv rankedRows) "test-api-key" None "B") /\
  lookup_fails
    (detailsOf (rankedEnv rankedRows) "test-api-key" None "nowhere") /\
  available (rankedEnv rankedRows) "test-api-key" None dublin
            (searchRadius (Some 60000)) "near" nearPlace /\
  exists out ps,
    succeeds (POST rankedBody (rankedEnv rankedRows)) out /\
    places out = Some ps /\
    (forall p,
       In p ps <->
       exists placeId,
         In placeId ["far"; "near"; "B"; "nowhere"; "C"; "A"] /\
         available (rankedEnv rankedRows) "test-api-key" None dublin
                   (searchRadius (Some 60000)) placeId p) /\
    (forall placeId p,
       lookup_fails
         (detailsOf (rankedEnv rankedRows) "test-api-key" None placeId) ->
       ~ available (rankedEnv rankedRows) "test-api-key" None dublin
                   (searchRadius (Some 60000)) placeId p).
Proof.
  split; [apply fails_thrown|].
  split; [apply fails_status; discriminate|].
  split; [apply fails_location; reflexivity|].
  split.
  { eexists _, _, nearby. split; [reflexivity|].
    split; [reflexivity|]. split; [reflexivity|]. split; [reflexivity|].
    split; [|reflexivity].
    rewrite distance_nearby, searchRadius_60000.
    pose proof nearby_bounds. lra. }
  exact (lookup_failures_tolerated rankedBody (rankedEnv rankedRows)
           dublin "" [] "test-api-key" ranked_resolves eq_refl).
Defined.

End LookupSamples.

(** ** get_directions from the request on *)

Section DirectionsRequests.
Import JS Utils Types Provider Async Observations Outcomes Requests.
Import GetDirections.

Variable TypeError : string -> string.

Lemma directions_400 body env :
  fails_with 400 (POST body env) <->
  ~ valid_coords (to_coords body) \/ ~ valid_coords (from_coords body).
Proof.
  rewrite directions_run. unfold fails_with.
  rewrite <- !rejected_invalid.
  destruct (rejected (to_coords body)); cbn [fst].
  { split; [auto|]. intros _. eexists. reflexivity. }
  destruct (rejected (from_coords body)); cbn [fst].
  { split; [auto|]. intros _. eexists. reflexivity. }
  split; [|intros [H|H]; discriminate].
  intros [message H]. exfalso.
  destruct (match nonempty (GOOGLE_DIRECTIONS_API_KEY env) with
            | Some k => Some k
            | None => nonempty (GOOGLE_PLACES_API_KEY env)
            end) as [apiKey|]; [|discriminate].
  cbv zeta in H.
  destruct (directions_api env _ _ _ _ _) as [m|data]; [discriminate|].
  cbn [fst] in H. injection H as H.
  now apply respond_not_rejected in H.
Qed.

Lemma directions_502 body env origin destination mode key language data :
  valid_coords (to_coords body) ->
  valid_coords (from_coords body) ->
  In (DirectionsRequest origin destination mode key language)
     (snd (POST body env)) ->
  directions_api env origin destination mode key language = fetch_json data ->
  dr_status data <> "OK" \/ lacks_data data ->
  fails_with 502 (POST body env) /\ ~ fails_with 400 (POST body env).
Proof.
  rewrite directions_run. unfold fails_with.
  intros Hto Hfrom Hin Hdata Hbad.
  apply rejected_valid in Hto, Hfrom. rewrite Hto, Hfrom in *.
  destruct (match nonempty (GOOGLE_DIRECTIONS_API_KEY env) with
            | Some k => Some k
            | None => nonempty (GOOGLE_PLACES_API_KEY env)
            end) as [apiKey|]; [|destruct Hin].
  cbv zeta in *.
  assert (directions_api env (coords_of (from_coords body))
            (coords_of (to_coords body)) (default "driving" (b_mode body))
            apiKey (nonempty (b_language body)) = fetch_json data) as Hcall.
  { assert (DirectionsRequest origin destination mode key language =
            DirectionsRequest (coords_of (from_coords body))
              (coords_of (to_coords body)) (default "driving" (b_mode body))
              apiKey (nonempty (b_language body))) as Hq.
    { destruct (directions_api env (coords_of (from_coords body)) _ _ _ _);
        destruct Hin as [H|[]]; symmetry; exact H. }
    injection Hq as -> -> -> -> ->. exact Hdata. }
  rewrite Hcall. cbn [fst].
  destruct (respond_provider_error (coords_of (from_coords body))
              (coords_of (to_coords body)) (default "driving" (b_mode body))
              data Hbad) as [message Hr].
  rewrite Hr. split.
  - now exists message.
  - intros [m [=]].
Qed.

Lemma directions_500 body env :
  answers 500 (POST body env) <->
  valid_coords (to_coords body) /\ valid_coords (from_coords body) /\
  (directionsKey env = None \/
   exists key message,
     directionsKey env = Some key /\
     directions_api env (coords_of (from_coords body))
       (coords_of (to_coords body)) (default "driving" (b_mode body)) key
       (nonempty (b_language body)) = fetch_threw message).
Proof.
  unfold answers. rewrite directions_run. fold (directionsKey env).
  rewrite <- !rejected_valid.
  destruct (rejected (to_coords body)).
  { split; [intros (r & [= <-] & Hs); discriminate|intros [H _]; discriminate]. }
  destruct (rejected (from_coords body)).
  { split; [intros (r & [= <-] & Hs); discriminate|].
    intros (_ & H & _); discriminate. }
  destruct (directionsKey env) as [key|].
  2:{ split; [auto|]. intros _. eexists; split; reflexivity. }
  cbv zeta.
  destruct (directions_api env _ _ _ _ _) as [message|data] eqn:Hcall.
  - split; [|intros _; eexists; split; reflexivity].
    intros _. repeat split. right. now exists key, message.
  - split.
    + intros (r & [= <-] & Hs). exfalso. revert Hs. unfold respond.
      destruct (negb (String.eqb (dr_status data) "OK")); [discriminate|].
      destruct (first (routes data)) as [route|]; [|discriminate].
      destruct (first (legs route)) as [leg|]; [|discriminate].
      destruct (nonempty (overview_polyline route ≫= points)); discriminate.
    + intros (_ & _ & [H|(key' & message & [= <-] & H)]); congruence.
Qed.

(** A request without a body to read: no JSON, or null. *)
Lemma unreadable_run (request : Received Body) env :
  (forall body, request <> json_members body) ->
  exists message,
    GetDirectionsRoute.POST TypeError request env =
    (Returned (serverError message), []).
Proof.
  destruct request as [message| |body]; intros H.
  - now exists message.
  - eexists. reflexivity.
  - now destruct (H body).
Qed.

(** C6: get_directions answers 400 exactly when its body could be read
    and [to_coords] or [from_coords] is missing or is not an object with
    numeric [lat] and [lng]; a body that is not JSON or is null is
    answered with 500; with valid coordinates, a provider answer whose
    status is not OK, or that has no first route, no first leg or no
    overview polyline, is answered with 502, which is not a 400. *)
Theorem get_directions_errors (request : Received Body) env :
  (fails_with 400 (GetDirectionsRoute.POST TypeError request env) <->
   (exists body, request = json_members body) /\
   (~ valid_coords (member to_coords request) \/
    ~ valid_coords (member from_coords request))) /\
  ((forall body, request <> json_members body) ->
   fails_with 500 (GetDirectionsRoute.POST TypeError request env)) /\
  (forall origin destination mode key language data,
     valid_coords (member to_coords request) ->
     valid_coords (member from_coords request) ->
     In (DirectionsRequest origin destination mode key language)
        (snd (GetDirectionsRoute.POST TypeError request env)) ->
     directions_api env origin destination mode key language = fetch_json data ->
     dr_status data <> "OK" \/ lacks_data data ->
     fails_with 502 (GetDirectionsRoute.POST TypeError request env) /\
     ~ fails_with 400 (GetDirectionsRoute.POST TypeError request env)).
Proof.
  split; [|split].
  - destruct request as [message| |body].
    + split.
      * intros [m H]. discriminate.
      * intros [[body H] _]. discriminate.
    + split.
      * intros [m H]. discriminate.
      * intros [[body H] _]. discriminate.
    + change (GetDirectionsRoute.POST TypeError (json_members body) env)
        with (POST body env).
      rewrite directions_400. cbn [member]. split.
      * intros H. split; [now exists body|exact H].
      * intros [_ H]. exact H.
  - intros H.
    destruct (unreadable_run request env H) as [message ->].
    now exists message.
  - destruct request as [message| |body].
    + intros ? ? ? ? ? ? (fields & ? & ? & H & _). discriminate.
    + intros ? ? ? ? ? ? (fields & ? & ? & H & _). discriminate.
    + apply directions_502.
Qed.

(** X12: get_directions answers 500 exactly when its body is not JSON
    or is null, or when both coordinate arguments are valid and either
    no key is configured or the request to the provider throws. *)
Theorem get_directions_server_error (request : Received Body) env :
  answers 500 (GetDirectionsRoute.POST TypeError request env) <->
  (forall body, request <> json_members body) \/
  exists body,
    request = json_members body /\
    valid_coords (to_coords body) /\ valid_coords (from_coords body) /\
    (directionsKey env = None \/
     exists key message,
       directionsKey env = Some key /\
       directions_api env (coords_of (from_coords body))
         (coords_of (to_coords body)) (default "driving" (b_mode body)) key
         (nonempty (b_language body)) = fetch_threw message).
Proof.
  destruct request as [message| |body].
  - split.
    + intros _. left. intros body H. discriminate.
    + intros _. eexists. split; reflexivity.
  - split.
    + intros _. left. intros body H. discriminate.
    + intros _. eexists. split; reflexivity.
  - change (GetDirectionsRoute.POST TypeError (json_members body) env)
      with (POST body env).
    rewrite directions_500. split.
    + intros H. right. now exists body.
    + intros [H|(body' & [= <-] & H)]; [|exact H].
      now destruct (H body).
Qed.

End DirectionsRequests.

Section DirectionsRequestSamples.
Import JS Utils Types Provider Async Observations Outcomes Requests.
Import Samples RankedSamples GetDirections.

(** C6 as stated fails for a request whose body is null: there is no
    [to_coords], and the answer is 500, not 400. *)
Lemma get_directions_null_body :
  let request : Received Body := json_null in
  let env := sampleEnv (Some "test-api-key") [] in
  ~ valid_coords (member to_coords request) /\
  GetDirectionsRoute.POST nullMessage request env =
    (Returned
       (serverError
          "Cannot destructure '{ to_coords, from_coords, mode = 'driving', language } = body' as it is null."),
     []) /\
  ~ fails_with 400 (GetDirectionsRoute.POST nullMessage request env).
Proof.
  cbv zeta. split; [|split].
  - intros (fields & latitude & longitude & H & _). discriminate.
  - reflexivity.
  - intros [message H]. discriminate.
Qed.

(** C6, in the form that holds, on the sample data: a missing
    [to_coords] gives 400; a body that is not JSON gives 500; valid
    coordinates with a provider answer ZERO_RESULTS, without routes,
    give 502. *)
Lemma get_directions_errors_sample :
  let env := sampleEnv (Some "test-api-key") [] in
  let here := Some (coords 53.3498 (-6.2603)) in
  let there := Some (coords 53.35 (-6.26)) in
  fails_with 400
    (GetDirectionsRoute.POST nullMessage
       (json_members (directionsBody None here None)) env) /\
  fails_with 500
    (GetDirectionsRoute.POST nullMessage
       (not_json "Unexpected end of JSON input") env) /\
  fails_with 502
    (GetDirectionsRoute.POST nullMessage
       (json_members (directionsBody there here (Some "walking"))) env) /\
  ~ fails_with 400
    (GetDirectionsRoute.POST nullMessage
       (json_members (directionsBody there here (Some "walking"))) env).
Proof.
  cbv zeta. split; [|split].
  - apply (proj1 (get_directions_errors nullMessage _ _)).
    split; [eexists; reflexivity|].
    left. intros (fields & latitude & longitude & H & _). discriminate.
  - apply (proj1 (proj2 (get_directions_errors nullMessage _ _))).
    intros body H. discriminate.
  - set (body := directionsBody (Some (coords 53.35 (-6.26)))
                   (Some (coords 53.3498 (-6.2603))) (Some "walking")).
    set (env := sampleEnv (Some "test-api-key") []).
    apply (proj2 (proj2 (get_directions_errors nullMessage
                           (json_members body) env))
             (coords_of (from_coords body)) (coords_of (to_coords body))
             "walking" "test-api-key" None
             {| dr_status := "ZERO_RESULTS"; error_message := None;
                routes := None |}).
    + apply coords_valid.
    + apply coords_valid.
    + change (GetDirectionsRoute.POST nullMessage (json_members body) env)
        with (POST body env).
      rewrite directions_run.
      rewrite (proj2 (rejected_valid (to_coords body))) by apply coords_valid.
      rewrite (proj2 (rejected_valid (from_coords body))) by apply coords_valid.
      left. reflexivity.
    + reflexivity.
    + left. discriminate.
Defined.

End DirectionsRequestSamples.

(** ** search_places from the request on *)

Section SearchRequests.
Import JS Utils Types Provider Async PlaceFilter SearchPlaces Observations.
Import Outcomes Requests.

Variable TypeError : string -> string.

(** The handler when the read of the database rejects. *)
Lemma database_down_run body message env :
  SearchPlacesRoute.database_down body message env =
  match nonempty (b_query body) with
  | None => (Returned (badRequest "Missing required parameter: query"), [])
  | Some query =>
      match resolveCenter body env with
      | (Thrown thrown, sent) => (Returned (serverError thrown), sent)
      | (Returned (inl response), sent) => (Returned response, sent)
      | (Returned (inr (origin, area)), sent) =>
          match nonempty (GOOGLE_PLACES_API_KEY env) with
          | None =>
              (Returned (serverError "GOOGLE_PLACES_API_KEY not configured"),
               sent)
          | Some key => (Returned (serverError message), sent)
          end
      end
  end.
Proof.
  unfold SearchPlacesRoute.database_down, try_catch.
  destruct (nonempty (b_query body)) as [query|]; [|reflexivity].
  unfold bind at 1.
  destruct (resolveCenter body env) as [[[response|[origin area]]|thrown] sent];
    cbn [ret]; rewrite ?app_nil_r; try reflexivity.
  unfold bind at 1, getenv at 1.
  destruct (nonempty (GOOGLE_PLACES_API_KEY env)) as [key|];
    cbn [ret throw app]; now rewrite ?app_nil_r.
Qed.

(** The status of the answer to a body that could be read, step by
    step: the check of [query], the centre, the key, the geocoder and
    the database. *)
Lemma search_status body database_error env status :
  answers status
    (SearchPlacesRoute.POST TypeError (json_members body) database_error env)
  <->
  status =
  match nonempty (b_query body) with
  | None => 400%Z
  | Some _ =>
      match center_test (b_center body), nonempty (b_where body),
            nonempty (GOOGLE_PLACES_API_KEY env) with
      | None, None, _ => 400%Z
      | _, _, None => 500%Z
      | Some _, _, Some _ =>
          match database_error with Some _ => 500%Z | None => 200%Z end
      | None, Some w, Some key =>
          match firstLocation (geocode_api env w key) with
          | None => 400%Z
          | Some _ =>
              match database_error with Some _ => 500%Z | None => 200%Z end
          end
      end
  end.
Proof.
  unfold answers.
  assert (forall response sent,
            (exists r : NextResponse ToolOutput,
               fst (Returned response, sent : list Request) = Returned r /\
               statusOf r = status) <->
            status = statusOf response) as Hone.
  { intros response sent. cbn [fst]. split.
    - intros (r & [= <-] & <-). reflexivity.
    - intros ->. now exists response. }
  cbn [SearchPlacesRoute.POST].
  destruct database_error as [message|].
  - rewrite database_down_run, resolveCenter_run.
    destruct (nonempty (b_query body)) as [query|]; [|apply Hone].
    destruct (center_test (b_center body)) as [c|].
    { destruct (nonempty (GOOGLE_PLACES_API_KEY env));
        destruct (nonempty (b_where body)); apply Hone. }
    destruct (nonempty (b_where body)) as [w|]; [|apply Hone].
    destruct (nonempty (GOOGLE_PLACES_API_KEY env)) as [key|]; [|apply Hone].
    destruct (firstLocation (geocode_api env w key)); apply Hone.
  - rewrite POST_run, resolveCenter_run.
    destruct (nonempty (b_query body)) as [query|]; [|apply Hone].
    destruct (center_test (b_center body)) as [c|].
    { destruct (nonempty (GOOGLE_PLACES_API_KEY env));
        destruct (nonempty (b_where body)); apply Hone. }
    destruct (nonempty (b_where body)) as [w|]; [|apply Hone].
    destruct (nonempty (GOOGLE_PLACES_API_KEY env)) as [key|]; [|apply Hone].
    destruct (firstLocation (geocode_api env w key)); apply Hone.
Qed.

(** X2: search_places answers 400 exactly when its body could be read
    and [query] is missing or empty, or no centre passes the test and
    either [where] is missing or empty or the geocoder, asked with the
    configured key, gives no location. *)
Theorem search_places_bad_request (request : Received Body) database_error env :
  answers 400 (SearchPlacesRoute.POST TypeError request database_error env) <->
  exists body,
    request = json_members body /\
    (nonempty (b_query body) = None \/
     (center_test (b_center body) = None /\
      (nonempty (b_where body) = None \/
       exists w key,
         nonempty (b_where body) = Some w /\
         nonempty (GOOGLE_PLACES_API_KEY env) = Some key /\
         firstLocation (geocode_api env w key) = None))).
Proof.
  destruct request as [message| |body].
  - split.
    + intros (r & [= <-] & H). discriminate.
    + intros (body & H & _). discriminate.
  - split.
    + intros (r & [= <-] & H). discriminate.
    + intros (body & H & _). discriminate.
  - rewrite search_status. split.
    + intros H. exists body. split; [reflexivity|].
      destruct (nonempty (b_query body)) as [query|]; [|now left].
      right.
      destruct (center_test (b_center body)) as [c|].
      { destruct (nonempty (b_where body));
          destruct (nonempty (GOOGLE_PLACES_API_KEY env));
          destruct database_error; discriminate. }
      split; [reflexivity|].
      destruct (nonempty (b_where body)) as [w|]; [|now left].
      right.
      destruct (nonempty (GOOGLE_PLACES_API_KEY env)) as [key|];
        [|discriminate].
      destruct (firstLocation (geocode_api env w key)) eqn:Hloc.
      { destruct database_error; discriminate. }
      now exists w, key.
    + intros (body' & [= <-] & H).
      destruct (nonempty (b_query body)) as [query|]; [|reflexivity].
      destruct H as [H|[-> H]]; [discriminate|].
      destruct H as [-> | (w & key & -> & -> & ->)]; reflexivity.
Qed.

(** X3: search_places answers 500 exactly when its body is not JSON or
    is null, or [query] is present and either the provider key is not
    configured while a centre passes the test or [where] is present, or
    the key is configured, the centre is resolved and the read of the
    database rejects. *)
Theorem search_places_server_error (request : Received Body) database_error
    env :
  answers 500 (SearchPlacesRoute.POST TypeError request database_error env) <->
  (forall body, request <> json_members body) \/
  exists body,
    request = json_members body /\
    nonempty (b_query body) <> None /\
    ((nonempty (GOOGLE_PLACES_API_KEY env) = None /\
      (center_test (b_center body) <> None \/
       nonempty (b_where body) <> None)) \/
     (exists key message,
        nonempty (GOOGLE_PLACES_API_KEY env) = Some key /\
        database_error = Some message /\
        (center_test (b_center body) <> None \/
         exists w location,
           nonempty (b_where body) = Some w /\
           firstLocation (geocode_api env w key) = Some location))).
Proof.
  destruct request as [message| |body].
  - split.
    + intros _. left. intros body H. discriminate.
    + intros _. eexists. split; reflexivity.
  - split.
    + intros _. left. intros body H. discriminate.
    + intros _. eexists. split; reflexivity.
  - rewrite search_status. split.
    + intros H. right. exists body. split; [reflexivity|].
      destruct (nonempty (b_query body)) as [query|]; [|discriminate].
      split; [discriminate|].
      destruct (center_test (b_center body)) as [c|].
      { destruct (nonempty (GOOGLE_PLACES_API_KEY env)) as [key|].
        - right.
          destruct (nonempty (b_where body));
            (destruct database_error as [message|]; [|discriminate]);
            exists key, message; repeat split; left; discriminate.
        - left. split; [reflexivity|]. left. discriminate. }
      destruct (nonempty (b_where body)) as [w|]; [|discriminate].
      destruct (nonempty (GOOGLE_PLACES_API_KEY env)) as [key|].
      * right.
        destruct (firstLocation (geocode_api env w key)) as [location|] eqn:Hl;
          [|discriminate].
        destruct database_error as [message|]; [|discriminate].
        exists key, message. repeat split. right. now exists w, location.
      * left. split; [reflexivity|]. right. discriminate.
    + intros [H|(body' & [= <-] & Hq & H)]; [now destruct (H body)|].
      destruct (nonempty (b_query body)) as [query|]; [|congruence].
      destruct H as [[-> H]|(key & message & -> & -> & H)].
      * destruct (center_test (b_center body));
          destruct (nonempty (b_where body)); try reflexivity.
        destruct H; congruence.
      * destruct (center_test (b_center body)) as [c|].
        { destruct (nonempty (b_where body)); reflexivity. }
        destruct H as [H|(w & location & -> & ->)]; [congruence|reflexivity].
Qed.

End SearchRequests.
